(** * Pulse video platform: the asynchronous media pipeline

    A shallow embedding of the backend services of the repository
    (sensitivity scorer, transcode pipeline, job queue, streaming
    responder) and the properties the specification states about them.

    Conventions of the embedding.
    - JavaScript strings are [string]; HTTP header values are ASCII.
    - Integer-valued JavaScript numbers (byte offsets, file sizes, HTTP
      status codes, percentages after [Math.floor]) are [Z].  All of them
      stay far below 2^53, where binary64 arithmetic on integers is exact.
    - Fractional JavaScript numbers are binary64.  The scorer is embedded
      in that arithmetic in [Sensitivity64], on Rocq's primitive [float],
      and what is stated about the values it computes is proved there.
      Elsewhere (the scan as the pipeline calls it, the analyzers, stage
      progress) fractional numbers are idealised as exact rationals [Q],
      with the decimal literals of the source (0.3, 0.7, 0.2, ...) the
      rationals they denote; the two scorers can disagree where a score
      lies within rounding of a threshold.
    - [undefined]/[null] fields are [option]; JavaScript truthiness of a
      possibly missing string is [truthy].
    - The record store is a [gmap] from record id to record, the file
      system a [gmap] from path to file content. *)

From Stdlib Require Import ZArith QArith Qround Qminmax List String Ascii Bool Lia Lqa.
From Stdlib Require Import Decimal DecimalString DecimalZ DecimalN DecimalPos.
From Stdlib Require Strings.Byte.
From Stdlib Require Floats.
From stdpp Require Import base option list gmap strings sorting.

Local Open Scope Z_scope.

(** ** JavaScript strings and numbers *)

Module Js.

(** [\d] of a JavaScript regular expression. *)
Definition is_digit (c : ascii) : bool :=
  let n := N_of_ascii c in ((48 <=? n) && (n <=? 57))%N.

Definition digit_value (c : ascii) : Z := Z.of_N (N_of_ascii c) - 48.

(** The longest prefix of decimal digits, and the rest: what a greedy
    [\d*] consumes. *)
Fixpoint span_digits (s : string) : string * string :=
  match s with
  | String c t =>
      if is_digit c
      then let '(d, r) := span_digits t in (String c d, r)
      else (EmptyString, s)
  | EmptyString => (EmptyString, EmptyString)
  end.

Fixpoint parse_digits (s : string) (acc : Z) : Z :=
  match s with
  | String c t => parse_digits t (10 * acc + digit_value c)
  | EmptyString => acc
  end.

(** [parseInt(s, 10)] on the strings the range parser hands it (no sign,
    no leading blanks): the value of the leading digits, [None] for NaN. *)
Definition parseInt (s : string) : option Z :=
  match fst (span_digits s) with
  | EmptyString => None
  | ds => Some (parse_digits ds 0)
  end.

(** [`${n}`] for an integer-valued number. *)
Definition toString (n : Z) : string := NilZero.string_of_int (Z.to_int n).

(** [s.startsWith(p)], returning the remainder. *)
Fixpoint strip_prefix (p s : string) : option string :=
  match p, s with
  | EmptyString, _ => Some s
  | String a p', String b s' => if Ascii.eqb a b then strip_prefix p' s' else None
  | String _ _, EmptyString => None
  end.

(** Truthiness of a possibly missing string: [undefined], [null] and the
    empty string are falsy. *)
Definition truthy (o : option string) : option string :=
  match o with
  | Some EmptyString => None
  | _ => o
  end.

(** [a || b] on possibly missing strings. *)
Definition or_else (a b : option string) : option string :=
  match truthy a with
  | Some s => Some s
  | None => b
  end.

(** The string does not begin with a digit. *)
Definition no_leading_digit (s : string) : Prop :=
  match s with
  | String c _ => is_digit c = false
  | EmptyString => True
  end.

(** [s.split(' ')]. *)
Fixpoint split_space (s : string) : list string :=
  match s with
  | EmptyString => [EmptyString]
  | String c t =>
      if Ascii.eqb c " "%char
      then EmptyString :: split_space t
      else match split_space t with
           | w :: ws => String c w :: ws
           | [] => [String c EmptyString]
           end
  end.

End Js.

(** ** Record store *)

Inductive Status :=
  | uploaded | processing | safe | flagged | ready | failed.

Inductive Level := low | medium | high.

#[global] Instance Status_eq_dec : EqDecision Status.
Proof. solve_decision. Defined.

#[global] Instance Level_eq_dec : EqDecision Level.
Proof. solve_decision. Defined.

(** The fields of models/Video.js the services read or write. *)
Record Video := mkVideo {
  tenantId : string;
  uploadedBy : string;
  originalFilePath : string;
  processedFilePath : option string;
  thumbnailPath : option string;
  mimeType : option string;
  duration : option Z;
  status : Status;
  processingProgress : Z;
  sensitivityLevel : Level
}.

Definition set_status (s : Status) (v : Video) : Video :=
  mkVideo (tenantId v) (uploadedBy v) (originalFilePath v) (processedFilePath v)
          (thumbnailPath v) (mimeType v) (duration v) s
          (processingProgress v) (sensitivityLevel v).

Definition set_progress (p : Z) (v : Video) : Video :=
  mkVideo (tenantId v) (uploadedBy v) (originalFilePath v) (processedFilePath v)
          (thumbnailPath v) (mimeType v) (duration v) (status v)
          p (sensitivityLevel v).

Definition set_duration (d : Z) (v : Video) : Video :=
  mkVideo (tenantId v) (uploadedBy v) (originalFilePath v) (processedFilePath v)
          (thumbnailPath v) (mimeType v) (Some d) (status v)
          (processingProgress v) (sensitivityLevel v).

Definition set_results (processed thumb : string) (lvl : Level) (v : Video) : Video :=
  mkVideo (tenantId v) (uploadedBy v) (originalFilePath v) (Some processed)
          (Some thumb) (mimeType v) (duration v) (status v)
          (processingProgress v) lvl.

Abbreviation Db := (gmap string Video).
Abbreviation Fs := (gmap string (list Byte.byte)).

(** [Video.findById(id)]. *)
Definition findById (db : Db) (id : string) : option Video := db !! id.

(** [fs.existsSync(path)]. *)
Definition existsSync (fs : Fs) (path : string) : bool :=
  bool_decide (is_Some (fs !! path)).

(** [fs.statSync(path).size]. *)
Definition statSize (fs : Fs) (path : string) : Z :=
  match fs !! path with
  | Some content => Z.of_nat (length content)
  | None => 0
  end.

(** ** Error classes (utils/errors.js) and the central error handler *)

(** What a handler can throw: the error classes of the application, a
    plain [Error], and the [CastError] with which mongoose rejects a
    query whose [_id] is not an ObjectId ([value] is the offending id). *)
Inductive AppError :=
  | UnauthorizedError (message : string)
  | ForbiddenError (message : string)
  | NotFoundError (resource : string)
  | PlainError (message : string)
  | CastError (value : string).

(** The status [errorHandler] answers with: the error's own
    [statusCode], 404 for a [CastError] ("Mongoose bad ObjectId"), and
    500 for an error that has none. *)
Definition statusCode (e : AppError) : Z :=
  match e with
  | UnauthorizedError _ => 401
  | ForbiddenError _ => 403
  | NotFoundError _ => 404
  | PlainError _ => 500
  | CastError _ => 404
  end.

Definition errorMessage (e : AppError) : string :=
  match e with
  | UnauthorizedError m | ForbiddenError m | PlainError m => m
  | NotFoundError r => r +:+ " not found"
  | CastError value => "Resource not found with id of " +:+ value
  end.

(** What a handler sends: a byte stream, a JSON error document, or
    nothing ([res.end()]). *)
Inductive Body :=
  | BodyBytes (bytes : list Byte.byte)
  | BodyJson (message : string)
  | BodyNone.

Record Response := mkResponse {
  res_status : Z;
  res_headers : gmap string string;
  res_body : Body
}.

(** [errorHandler]: [res.status(error.statusCode || 500).json({success: false, message})]. *)
Definition errorHandler (e : AppError) : Response :=
  mkResponse (statusCode e) ∅ (BodyJson (errorMessage e)).

(** ** Streaming responder (controllers/stream.controller.js) *)

Module Stream.

Record Range := mkRange { start : Z; end_ : Z; chunkSize : Z }.

(** One attempt of the range pattern at the head of [s]: the literal
    [bytes=], one or more digits (group 1), a dash, zero or more digits
    (group 2).  Both quantifiers are greedy, and giving digits back can
    never produce the dash that must follow the first group. *)
Definition match_here (s : string) : option (string * string) :=
  match Js.strip_prefix "bytes=" s with
  | Some r =>
      match Js.span_digits r with
      | (String c g1, String "-" r2) => Some (String c g1, fst (Js.span_digits r2))
      | _ => None
      end
  | None => None
  end.

(** [rangeHeader.match(...)] with that pattern: it is not anchored, so
    the leftmost position where it matches is taken. *)
Fixpoint regex_match (s : string) : option (string * string) :=
  match match_here s with
  | Some m => Some m
  | None =>
      match s with
      | String _ t => regex_match t
      | EmptyString => None
      end
  end.

Definition parseRange (rangeHeader : option string) (fileSize : Z) : option Range :=
  match Js.truthy rangeHeader with
  | None => None
  | Some h =>
      match regex_match h with
      | None => None
      | Some (g1, g2) =>
          let start := Js.parseInt g1 in
          let end_ := match g2 with
                      | EmptyString => Some (fileSize - 1)
                      | _ => Js.parseInt g2
                      end in
          match start, end_ with
          | Some start, Some end_ =>
              if (start >? end_) || (start <? 0) || (end_ >=? fileSize)
              then None
              else
                let end_ := Z.min end_ (fileSize - 1) in
                Some (mkRange start end_ (end_ - start + 1))
          | _, _ => None
          end
      end
  end.

(** The payload of a verified token. *)
Record Decoded := mkDecoded { tok_userId : string; tok_role : string; tok_tenantId : string }.

Record Request := mkRequest {
  videoId : string;
  query_token : option string;
  authorization : option string;
  range : option string
}.

(** [createReadStream(path, {start, end})]: both bounds inclusive. *)
Definition readSpan (content : list Byte.byte) (start end_ : Z) : list Byte.byte :=
  take (Z.to_nat (end_ - start + 1)) (drop (Z.to_nat start) content).

Definition readFile (fs : Fs) (path : string) : list Byte.byte :=
  default [] (fs !! path).

Section WithLibraries.

(** [jwt.verify(token, JWT_SECRET)]; [None] when it throws. *)
Variable jwt_verify : string -> option Decoded.
(** [path.extname(p).toLowerCase()]. *)
Variable extname : string -> string.
(** Whether mongoose can cast a string to an ObjectId, the type of
    [_id].  An id that casts is looked up as it is written: record ids
    are the strings [ObjectId.toString] gives. *)
Variable isObjectId : string -> bool.

(** [Video.findOne(tenantQuery(tenantId, {_id}))]: [tenantQuery] throws
    on a missing tenant id; [findOne] rejects with a [CastError] when the
    id is not an ObjectId, and otherwise selects the record with that id
    and tenant. *)
Definition findOneTenant (db : Db) (tenant id : string) : AppError + option Video :=
  match tenant with
  | EmptyString => inl (PlainError "tenantId is required for tenant filtering")
  | _ =>
      if isObjectId id
      then inr (match db !! id with
                | Some v => if decide (tenantId v = tenant) then Some v else None
                | None => None
                end)
      else inl (CastError id)
  end.

Definition verifyToken (req : Request) : option Decoded :=
  let tokenFromQuery := query_token req in
  let tokenFromHeader :=
    match authorization req with
    | Some a => Js.split_space a !! 1%nat
    | None => None
    end in
  match Js.or_else tokenFromQuery tokenFromHeader with
  | Some token =>
      match Js.truthy (Some token) with
      | Some token => jwt_verify token
      | None => None
      end
  | None => None
  end.

Definition getMimeType (filePath : string) : string :=
  let ext := extname filePath in
  if decide (ext = ".mp4") then "video/mp4"
  else if decide (ext = ".mkv") then "video/x-matroska"
  else if decide (ext = ".avi") then "video/x-msvideo"
  else if decide (ext = ".webm") then "video/webm"
  else if decide (ext = ".mov") then "video/quicktime"
  else "video/mp4".

Definition contentType (video : Video) (filePath : string) : string :=
  match Js.truthy (mimeType video) with
  | Some m => m
  | None => getMimeType filePath
  end.

(** The file to serve: [video.processedFilePath || video.originalFilePath],
    [None] when that is falsy or not on disk. *)
Definition selectFile (fs : Fs) (video : Video) : option string :=
  match Js.or_else (processedFilePath video) (Some (originalFilePath video)) with
  | Some p =>
      match Js.truthy (Some p) with
      | Some p => if existsSync fs p then Some p else None
      | None => None
      end
  | None => None
  end.

Definition streamVideo_body (db : Db) (fs : Fs) (req : Request) : AppError + Response :=
  match verifyToken req with
  | None => inl (UnauthorizedError "Authentication required")
  | Some decoded =>
      match findOneTenant db (tok_tenantId decoded) (videoId req) with
      | inl e => inl e
      | inr None => inl (NotFoundError "Video")
      | inr (Some video) =>
          if bool_decide (status video = uploaded) || bool_decide (status video = processing)
          then inl (ForbiddenError "Video is not ready for streaming")
          else
            match selectFile fs video with
            | None => inl (NotFoundError "Video file")
            | Some filePath =>
                let fileSize := statSize fs filePath in
                let mime := contentType video filePath in
                let range := parseRange (range req) fileSize in
                let h0 : gmap string string := ∅ in
                let h1 := <["Content-Type" := mime]> h0 in
                let h2 := <["Accept-Ranges" := "bytes"]> h1 in
                let h3 := <["Content-Length" :=
                            Js.toString (match range with
                                         | Some r => chunkSize r
                                         | None => fileSize
                                         end)]> h2 in
                match range with
                | None =>
                    let h4 := <["Content-Range" :=
                                "bytes 0-" +:+ Js.toString (fileSize - 1) +:+ "/"
                                +:+ Js.toString fileSize]> h3 in
                    inr (mkResponse 200 h4 (BodyBytes (readFile fs filePath)))
                | Some r =>
                    let h4 := <["Content-Range" :=
                                "bytes " +:+ Js.toString (start r) +:+ "-"
                                +:+ Js.toString (end_ r) +:+ "/"
                                +:+ Js.toString fileSize]> h3 in
                    inr (mkResponse 206 h4
                           (BodyBytes (readSpan (readFile fs filePath) (start r) (end_ r))))
                end
            end
      end
  end.

(** [asyncHandler(...)] followed by the error middleware. *)
Definition streamVideo (db : Db) (fs : Fs) (req : Request) : Response :=
  match streamVideo_body db fs req with
  | inl e => errorHandler e
  | inr res => res
  end.

(** [getStreamInfo] answers its own errors: whatever is thrown inside
    its [try], the [CastError] of the lookup included, is answered 500. *)
Definition getStreamInfo (db : Db) (fs : Fs) (req : Request) : Response :=
  match verifyToken req with
  | None => mkResponse 401 ∅ (BodyJson "Authentication required")
  | Some decoded =>
      match findOneTenant db (tok_tenantId decoded) (videoId req) with
      | inl _ => mkResponse 500 ∅ (BodyJson "Server error")
      | inr None => mkResponse 404 ∅ (BodyJson "Video not found or access denied")
      | inr (Some video) =>
          match selectFile fs video with
          | None => mkResponse 404 ∅ (BodyJson "Video file not found")
          | Some filePath =>
              let fileSize := statSize fs filePath in
              let mime := contentType video filePath in
              let h0 : gmap string string := ∅ in
              let h1 := <["Content-Type" := mime]> h0 in
              let h2 := <["Accept-Ranges" := "bytes"]> h1 in
              let h3 := <["Content-Length" := Js.toString fileSize]> h2 in
              mkResponse 200 h3 BodyNone
          end
      end
  end.

End WithLibraries.

End Stream.

(** ** Sensitivity scorer (services/sensitivity.service.js)

    The scan with its numbers idealised as exact rationals: the pipeline
    reads the flag and the level of its result, and the bounds proved of
    it are bounds on sums and means.  The values the code computes are
    those of [Sensitivity64] below. *)

Module Sensitivity.

Local Open Scope Q_scope.

(** [a > b] and [a < b] on numbers. *)
Definition gt (a b : Q) : bool := negb (Qle_bool a b).
Definition lt (a b : Q) : bool := negb (Qle_bool b a).

Definition BRIGHTNESS_MIN : Q := 0.2.
Definition BRIGHTNESS_MAX : Q := 0.9.
Definition FLAG_THRESHOLD : Q := 0.6.

Record FrameAnalysis := mkFrame {
  framePath : string;
  brightness : Q;
  skinTone : Q;
  timestamp : Z
}.

(** The body of the [forEach] of [calculateSensitivityScore], up to the
    point where [frameScore] is final. *)
Definition frameScore (analysis : FrameAnalysis) : Q :=
  let frameScore := 0 in
  let frameScore :=
    if lt (brightness analysis) BRIGHTNESS_MIN || gt (brightness analysis) BRIGHTNESS_MAX
    then frameScore + 0.3 else frameScore in
  let frameScore :=
    if gt (skinTone analysis) 0.4
    then frameScore + skinTone analysis * 0.7 else frameScore in
  frameScore.

(** One iteration of the [forEach]: the accumulators are
    [(totalScore, flaggedFrames)]. *)
Definition accumulate (acc : Q * Z) (analysis : FrameAnalysis) : Q * Z :=
  let '(totalScore, flaggedFrames) := acc in
  let frameScore := frameScore analysis in
  let totalScore := totalScore + frameScore in
  let flaggedFrames := if gt frameScore 0.5 then (flaggedFrames + 1)%Z else flaggedFrames in
  (totalScore, flaggedFrames).

Definition len (frameAnalyses : list FrameAnalysis) : Q :=
  inject_Z (Z.of_nat (length frameAnalyses)).

Definition calculateSensitivityScore (frameAnalyses : list FrameAnalysis) : Q :=
  match frameAnalyses with
  | [] => 0
  | _ =>
      let '(totalScore, flaggedFrames) := fold_left accumulate frameAnalyses (0, 0%Z) in
      let averageScore := totalScore / len frameAnalyses in
      let flaggedRatio := inject_Z flaggedFrames / len frameAnalyses in
      let finalScore := averageScore + flaggedRatio * 0.3 in
      Qmin finalScore 1
  end.

(** The [details] of a result.  The two averages of the last return are
    left out: nothing downstream reads them. *)
Inductive Details :=
  | Frames (framesAnalyzed flaggedFrames : Z)
  | Failure (error : string).

Record Result := mkResult {
  flagged : bool;
  level : Level;
  confidence : Q;
  score : Q;
  details : Details
}.

(** The literal returned when no frame could be extracted. *)
Definition noFrames : Result := mkResult false low 0.0 0 (Frames 0 0).

(** The literal returned by the [catch] of [processSensitivityCheck]. *)
Definition safeOnError (message : string) : Result :=
  mkResult false low 0.0 0 (Failure message).

(** The frame score recomputed by the [filter] that counts flagged frames. *)
Definition filterScore (a : FrameAnalysis) : Q :=
  (if lt (brightness a) BRIGHTNESS_MIN || gt (brightness a) BRIGHTNESS_MAX then 0.3 else 0)
  + (if gt (skinTone a) 0.4 then skinTone a * 0.7 else 0).

(** From "Calculate overall sensitivity score" to the last return. *)
Definition classify (frameAnalyses : list FrameAnalysis) : Result :=
  let score := calculateSensitivityScore frameAnalyses in
  let flagged := gt score FLAG_THRESHOLD in
  let level := if gt score 0.8 then high else if gt score 0.5 then medium else low in
  let flaggedFrames :=
    Z.of_nat (length (List.filter (fun a => gt (filterScore a) 0.5) frameAnalyses)) in
  mkResult flagged level score score
           (Frames (Z.of_nat (length frameAnalyses)) flaggedFrames).

(** What the environment does during one scan: the error of making the
    temporary directory, if any; what [extractFrames] resolves to (frame
    paths) or rejects with; and what the two analyses of a frame give
    ([None] when one of them throws). *)
Record Engine := mkEngine {
  mkdirError : option string;
  extractFrames : string + list string;
  analyze : string -> option (Q * Q)
}.

(** The analysis loop: frames whose analysis throws are skipped; [i] is
    the index of the frame at the head of [framePaths]. *)
Fixpoint analyzeFrames (E : Engine) (framePaths : list string) (i : Z)
  : list FrameAnalysis :=
  match framePaths with
  | [] => []
  | framePath :: rest =>
      match analyze E framePath with
      | Some (brightness, skinTone) =>
          mkFrame framePath brightness skinTone (i * 5) :: analyzeFrames E rest (i + 1)
      | None => analyzeFrames E rest (i + 1)
      end
  end.

(** The progress reported at the head of iteration [i] of the loop. *)
Definition frameProgress (i totalFrames : Z) : Z :=
  (30 + Qfloor ((inject_Z i / inject_Z totalFrames) * 50))%Z.

(** [processSensitivityCheck]: the result and, in order, the percentages
    handed to [progressCallback].  The function also works on files: it
    makes the directory [temp_frames] beside the video, the engine writes
    the frames [frame_<ts>.png] into it, over any file of that name, and
    the frames listed by [extractFrames] are deleted before the function
    returns; when the extraction rejects, nothing is listed and what was
    written stays.  These files are outside the model: the files of a
    [Pipeline.World] are the media files of the records, and what is
    proved about files says nothing of the [temp_frames] directories. *)
Definition processSensitivityCheck (E : Engine) : Result * list Z :=
  match mkdirError E with
  | Some message => (safeOnError message, [10%Z])
  | None =>
    match extractFrames E with
    | inl message => (safeOnError message, [10; 20]%Z)
    | inr [] => (noFrames, [10; 20]%Z)
    | inr framePaths =>
        let totalFrames := Z.of_nat (length framePaths) in
        let frameAnalyses := analyzeFrames E framePaths 0 in
        (classify frameAnalyses,
         [10; 20; 30]%Z
         ++ List.map (fun i => frameProgress (Z.of_nat i) totalFrames)
                     (seq 0 (length framePaths))
         ++ [85; 100]%Z)
    end
  end.

End Sensitivity.

(** ** The scorer in the arithmetic of the code: binary64
    (services/sensitivity.service.js) *)

Module Sensitivity64.
Import PrimFloat FloatOps.

#[local] Set Warnings "-inexact-float".
Local Open Scope float_scope.

(** A JavaScript number is an IEEE 754 binary64 value, and so is a
    [float]: [+], [*] and [/] round to the nearest value, ties to even;
    a decimal literal denotes the value nearest to it; a comparison with
    NaN is false. *)

(** [a > b] and [a < b]. *)
Definition gt (a b : float) : bool := b <? a.
Definition lt (a b : float) : bool := a <? b.

(** [Math.min(a, b)]: NaN when an argument is NaN, and -0 counts as
    smaller than +0. *)
Definition Math_min (a b : float) : float :=
  if is_nan a || is_nan b then nan
  else if a <? b then a
  else if b <? a then b
  else if get_sign a then a else b.

(** An array length or a counter as a number: integers are exact in
    binary64 up to 2^53. *)
Definition of_count (n : Z) : float := of_uint63 (Uint63.of_Z n).

(** The rational a finite number is (0 for NaN and the infinities, which
    are none). *)
Definition toQ (x : float) : Q :=
  match Prim2SF x with
  | SpecFloat.S754_finite s m e =>
      (inject_Z (if s then Z.neg m else Z.pos m) * Qpower 2 e)%Q
  | _ => 0%Q
  end.

Definition BRIGHTNESS_MIN : float := 0.2.
Definition BRIGHTNESS_MAX : float := 0.9.
Definition FLAG_THRESHOLD : float := 0.6.

Record FrameAnalysis := mkFrame {
  framePath : string;
  brightness : float;
  skinTone : float;
  timestamp : Z
}.

(** The body of the [forEach] of [calculateSensitivityScore], up to the
    point where [frameScore] is final. *)
Definition frameScore (analysis : FrameAnalysis) : float :=
  let frameScore := 0 in
  let frameScore :=
    if lt (brightness analysis) BRIGHTNESS_MIN || gt (brightness analysis) BRIGHTNESS_MAX
    then frameScore + 0.3 else frameScore in
  let frameScore :=
    if gt (skinTone analysis) 0.4
    then frameScore + skinTone analysis * 0.7 else frameScore in
  frameScore.

(** One iteration of the [forEach]: the accumulators are
    [(totalScore, flaggedFrames)]; the counter is an integer. *)
Definition accumulate (acc : float * Z) (analysis : FrameAnalysis) : float * Z :=
  let '(totalScore, flaggedFrames) := acc in
  let frameScore := frameScore analysis in
  let totalScore := totalScore + frameScore in
  let flaggedFrames := if gt frameScore 0.5 then (flaggedFrames + 1)%Z else flaggedFrames in
  (totalScore, flaggedFrames).

Definition len (frameAnalyses : list FrameAnalysis) : float :=
  of_count (Z.of_nat (length frameAnalyses)).

Definition calculateSensitivityScore (frameAnalyses : list FrameAnalysis) : float :=
  match frameAnalyses with
  | [] => 0
  | _ =>
      let '(totalScore, flaggedFrames) := fold_left accumulate frameAnalyses (0, 0%Z) in
      let averageScore := totalScore / len frameAnalyses in
      let flaggedRatio := of_count flaggedFrames / len frameAnalyses in
      let finalScore := averageScore + flaggedRatio * 0.3 in
      Math_min finalScore 1
  end.

Record Result := mkResult {
  flagged : bool;
  level : Level;
  confidence : float;
  score : float;
  details : Sensitivity.Details
}.

(** The literal returned when no frame could be extracted. *)
Definition noFrames : Result := mkResult false low 0.0 0 (Sensitivity.Frames 0 0).

(** The literal returned by the [catch] of [processSensitivityCheck]. *)
Definition safeOnError (message : string) : Result :=
  mkResult false low 0.0 0 (Sensitivity.Failure message).

(** The frame score recomputed by the [filter] that counts flagged frames. *)
Definition filterScore (a : FrameAnalysis) : float :=
  (if lt (brightness a) BRIGHTNESS_MIN || gt (brightness a) BRIGHTNESS_MAX then 0.3 else 0)
  + (if gt (skinTone a) 0.4 then skinTone a * 0.7 else 0).

(** From "Calculate overall sensitivity score" to the last return. *)
Definition classify (frameAnalyses : list FrameAnalysis) : Result :=
  let score := calculateSensitivityScore frameAnalyses in
  let flagged := gt score FLAG_THRESHOLD in
  let level := if gt score 0.8 then high else if gt score 0.5 then medium else low in
  let flaggedFrames :=
    Z.of_nat (length (List.filter (fun a => gt (filterScore a) 0.5) frameAnalyses)) in
  mkResult flagged level score score
           (Sensitivity.Frames (Z.of_nat (length frameAnalyses)) flaggedFrames).

(** What the environment does during one scan, as in [Sensitivity], with
    the two analyses of a frame as numbers. *)
Record Engine := mkEngine {
  mkdirError : option string;
  extractFrames : string + list string;
  analyze : string -> option (float * float)
}.

Fixpoint analyzeFrames (E : Engine) (framePaths : list string) (i : Z)
  : list FrameAnalysis :=
  match framePaths with
  | [] => []
  | framePath :: rest =>
      match analyze E framePath with
      | Some (brightness, skinTone) =>
          mkFrame framePath brightness skinTone (i * 5) :: analyzeFrames E rest (i + 1)
      | None => analyzeFrames E rest (i + 1)
      end
  end.

(** The result of [processSensitivityCheck]; the percentages it reports
    are those of [Sensitivity.processSensitivityCheck]. *)
Definition processSensitivityCheck (E : Engine) : Result :=
  match mkdirError E with
  | Some message => safeOnError message
  | None =>
    match extractFrames E with
    | inl message => safeOnError message
    | inr [] => noFrames
    | inr framePaths => classify (analyzeFrames E framePaths 0)
    end
  end.

(** The same analysis with its two numbers as the rationals they are. *)
Definition exact (a : FrameAnalysis) : Sensitivity.FrameAnalysis :=
  Sensitivity.mkFrame (framePath a) (toQ (brightness a)) (toQ (skinTone a)) (timestamp a).

End Sensitivity64.

(** ** Transcode pipeline (services/videoProcessing.service.js) *)

Module Pipeline.

(** Everything one run reads or writes: the record store, the files, the
    percentages handed to [progressCallback] (oldest first) and the
    pending [setTimeout] promotions (by record id).  What can fail in a
    run is what the external engine and [mkdirSync] do ([Engine] below);
    the record store, [unlink] and the progress callback are taken to
    succeed, and a [save] writes the whole record. *)
Record World := mkWorld {
  db : Db;
  fs : Fs;
  reported : list Z;
  timers : list string
}.

(** An [async] function that may throw: the error message or the value,
    and the world it leaves. *)
Definition M (A : Type) : Type := World -> (string + A) * World.

#[global] Instance M_ret : MRet M := fun A a w => (inr a, w).

#[global] Instance M_bind : MBind M := fun A B k m w =>
  match m w with
  | (inl e, w') => (inl e, w')
  | (inr a, w') => k a w'
  end.

Definition throw {A} (message : string) : M A := fun w => (inl message, w).

(** [try { m } catch (error) { h error }]. *)
Definition try_catch {A} (m : M A) (h : string -> M A) : M A := fun w =>
  match m w with
  | (inl e, w') => h e w'
  | r => r
  end.

Definition findByIdM (id : string) : M (option Video) :=
  fun w => (inr (findById (db w) id), w).

(** [video.save()] for the record [id]. *)
Definition save (id : string) (video : Video) : M unit :=
  fun w => (inr (), mkWorld (<[id := video]> (db w)) (fs w) (reported w) (timers w)).

Definition existsM (path : string) : M bool :=
  fun w => (inr (existsSync (fs w) path), w).

Definition writeFile (path : string) (content : list Byte.byte) : M unit :=
  fun w => (inr (), mkWorld (db w) (<[path := content]> (fs w)) (reported w) (timers w)).

Definition unlink (path : string) : M unit :=
  fun w => (inr (), mkWorld (db w) (delete path (fs w)) (reported w) (timers w)).

(** [progressCallback(percent, message)]; the message is not recorded. *)
Definition progressCallback (percent : Z) : M unit :=
  fun w => (inr (), mkWorld (db w) (fs w) (reported w ++ [percent]) (timers w)).

(** [setTimeout(..., 1000)] of the promotion of record [id]. *)
Definition setTimeout (id : string) : M unit :=
  fun w => (inr (), mkWorld (db w) (fs w) (reported w) (timers w ++ [id])).

(** [for (x of l) f(x)]. *)
Fixpoint forEach {A} (f : A -> M unit) (l : list A) : M unit :=
  match l with
  | [] => mret ()
  | x :: rest => f x ;; forEach f rest
  end.

(** utils/fileStorage.utils.js: [deleteFile]. *)
Definition deleteFile (filePath : string) : M unit :=
  e ← existsM filePath;
  if bool_decide (filePath = "") || negb e then mret () else unlink filePath.

(** What the external engine and the file system do during one run.
    - [transcodeProgress]: the [progress.percent] of ffmpeg's progress
      events; [transcodeOutput]: what ffmpeg leaves at the output path (a
      whole file, or a partial one when it fails); [transcodeError]: the
      error of ffprobe or ffmpeg, if any.
    - the same for the thumbnail; [metadata] is the error of ffprobe or
      [format.duration]. *)
Record Engine := mkEngine {
  mkdirError : option string;
  transcodeProgress : list Q;
  transcodeOutput : option (list Byte.byte);
  transcodeError : option string;
  thumbnailOutput : option (list Byte.byte);
  thumbnailError : option string;
  metadata : string + Q;
  scan : Sensitivity.Engine
}.

Record Outcome := mkOutcome {
  success : bool;
  video : Video;
  sensitivityResult : Sensitivity.Result
}.

(** [path.join(a, b, c)] on plain segments. *)
Definition path_join (a b c : string) : string := a +:+ "/" +:+ b +:+ "/" +:+ c.

(** [s.slice(1)]. *)
Definition slice1 (s : string) : string :=
  match s with
  | String _ t => t
  | EmptyString => EmptyString
  end.

(** [Math.floor(progress * weight)] on a stage percentage. *)
Definition scaled (progress weight : Q) : Z := Qfloor (progress * weight).

Section WithConfig.

(** [UPLOAD_PATH] of config/env.js. *)
Variable UPLOAD_PATH : string.
(** [path.extname(p).toLowerCase()]. *)
Variable extname : string -> string.

Definition getFileExtension (filename : string) : string := slice1 (extname filename).

Definition getOriginalFilePath (tenantId videoId extension : string) : string :=
  path_join UPLOAD_PATH tenantId (videoId +:+ "_original." +:+ extension).

Definition getProcessedFilePath (tenantId videoId extension : string) : string :=
  path_join UPLOAD_PATH tenantId (videoId +:+ "_processed." +:+ extension).

Definition getThumbnailPath (tenantId videoId extension : string) : string :=
  path_join UPLOAD_PATH tenantId (videoId +:+ "_thumbnail." +:+ extension).

(** [transcodeVideo]: progress events with a falsy percent are dropped. *)
Definition transcodeVideo (E : Engine) (outputPath : string)
    (onProgress : Q -> M unit) : M unit :=
  forEach (fun percent => if Qeq_bool percent 0 then mret () else onProgress percent)
          (transcodeProgress E) ;;
  match transcodeOutput E with
  | Some content => writeFile outputPath content
  | None => mret ()
  end ;;
  match transcodeError E with
  | Some message => throw message
  | None => mret ()
  end.

(** [generateThumbnail]: one progress event, 100, when the screenshot ends. *)
Definition generateThumbnail (E : Engine) (thumbnailPath : string)
    (onProgress : Q -> M unit) : M unit :=
  match thumbnailOutput E with
  | Some content => writeFile thumbnailPath content
  | None => mret ()
  end ;;
  match thumbnailError E with
  | Some message => throw message
  | None => onProgress 100%Q
  end.

(** [getVideoMetadata]: only [duration] is read by the pipeline. *)
Definition getVideoMetadata (E : Engine) : M Z :=
  match metadata E with
  | inl message => throw message
  | inr d => mret (Qfloor d)
  end.

(** The [try] block of [processVideo]. *)
Definition processVideo_try (E : Engine) (videoId : string) : M Outcome :=
  found ← findByIdM videoId;
  match found with
  | None => throw "Video not found"
  | Some video =>
      let tenantId := tenantId video in
      let originalPath := originalFilePath video in
      present ← existsM originalPath;
      if negb present then throw "Original video file not found" else
      let video := set_progress 0 (set_status processing video) in
      save videoId video ;;
      progressCallback 10 ;;
      let ext := match getFileExtension originalPath with
                 | EmptyString => "mp4"
                 | e => e
                 end in
      let processedPath := getProcessedFilePath tenantId videoId ext in
      let thumbnailPath := getThumbnailPath tenantId videoId "jpg" in
      match mkdirError E with Some message => throw message | None => mret () end ;;
      transcodeVideo E processedPath
        (fun progress => progressCallback (10 + scaled progress 0.3)) ;;
      progressCallback 40 ;;
      generateThumbnail E thumbnailPath
        (fun progress => progressCallback (40 + scaled progress 0.2)) ;;
      progressCallback 60 ;;
      d ← getVideoMetadata E;
      let video := set_duration d video in
      save videoId video ;;
      progressCallback 70 ;;
      progressCallback 70 ;;
      let '(sensitivityResult, scanProgress) := Sensitivity.processSensitivityCheck (scan E) in
      forEach (fun progress => progressCallback (70 + scaled (inject_Z progress) 0.2))
              scanProgress ;;
      let video := set_results processedPath thumbnailPath
                     (Sensitivity.level sensitivityResult) video in
      let video := set_progress 100 video in
      let video := if Sensitivity.flagged sensitivityResult
                   then set_status flagged video
                   else set_status safe video in
      save videoId video ;;
      progressCallback 100 ;;
      setTimeout videoId ;;
      mret (mkOutcome true video sensitivityResult)
  end.

(** The [catch] block of [processVideo]. *)
Definition processVideo_catch (videoId : string) (error : string) : M Outcome :=
  found ← findByIdM videoId;
  match found with
  | Some video => save videoId (set_status failed video)
  | None => mret ()
  end ;;
  found ← findByIdM videoId;
  match found with
  | Some video =>
      match Js.truthy (processedFilePath video) with
      | Some p => deleteFile p
      | None => mret ()
      end ;;
      match Js.truthy (thumbnailPath video) with
      | Some p => deleteFile p
      | None => mret ()
      end
  | None => mret ()
  end ;;
  throw error.

Definition processVideo (E : Engine) (videoId : string) : M Outcome :=
  try_catch (processVideo_try E videoId) (processVideo_catch videoId).

End WithConfig.

(** The callback of the [setTimeout] at the end of [processVideo]: it
    reads the record again when it fires. *)
Definition promote (videoId : string) (w : World) : World :=
  match findById (db w) videoId with
  | Some updatedVideo =>
      if bool_decide (status updatedVideo = safe) || bool_decide (status updatedVideo = flagged)
      then mkWorld (<[videoId := set_status ready updatedVideo]> (db w))
                   (fs w) (reported w) (timers w)
      else w
  | None => w
  end.

End Pipeline.

(** ** Job queue (services/processingQueue.service.js) *)

Module Queue.

(** A queued job: the record id and whether a push transport came with it. *)
Record Job := mkJob { videoId : string; io : bool }.

#[global] Instance Job_eq_dec : EqDecision Job.
Proof. solve_decision. Defined.

(** What an observer sees of the worker: a pipeline run begins, a
    pipeline run ends (with or without an error). *)
Inductive Event :=
  | Started (job : Job)
  | Finished (job : Job) (ok : bool).

(** The module-level variables, the [setImmediate] callbacks not yet run,
    the frame of the [processNext] call suspended at an [await] (its
    local [videoId] and [io]), and the events so far.  The push
    notifications [processNext] emits are not part of the state. *)
Record State := mkState {
  processingQueue : list Job;
  isProcessing : bool;
  currentVideoId : option string;
  immediates : nat;
  running : option Job;
  trace : list Event
}.

Definition initial : State := mkState [] false None 0 None [].

(** [processNext] up to its first [await]: the guard, the shift, and the
    start of the run. *)
Definition processNext (s : State) : State :=
  if isProcessing s || (length (processingQueue s) =? 0)%nat then s
  else
    match processingQueue s with
    | job :: rest =>
        mkState rest true (Some (videoId job)) (immediates s) (Some job)
                (trace s ++ [Started job])
    | [] => s
    end.

(** [addToQueue]: returns as soon as the synchronous part of
    [processNext] has run. *)
Definition addToQueue (job : Job) (s : State) : State :=
  let s := mkState (processingQueue s ++ [job]) (isProcessing s) (currentVideoId s)
                   (immediates s) (running s) (trace s) in
  if negb (isProcessing s) then processNext s else s.

(** The suspended [processNext] resumes when [processVideo] settles: the
    rest of the [try] or the [catch], then the [finally]. *)
Definition resume (ok : bool) (s : State) : option State :=
  match running s with
  | None => None
  | Some job =>
      let immediates :=
        if (0 <? length (processingQueue s))%nat then S (immediates s) else immediates s in
      Some (mkState (processingQueue s) false None immediates None
                    (trace s ++ [Finished job ok]))
  end.

(** One [setImmediate(() => processNext())] callback runs. *)
Definition runImmediate (s : State) : option State :=
  match immediates s with
  | O => None
  | S n =>
      Some (processNext (mkState (processingQueue s) (isProcessing s) (currentVideoId s)
                                 n (running s) (trace s)))
  end.

(** The turns of the event loop that touch the queue. *)
Inductive Action :=
  | Enqueue (job : Job)
  | Settle (ok : bool)
  | Immediate.

Definition step (a : Action) (s : State) : option State :=
  match a with
  | Enqueue job => Some (addToQueue job s)
  | Settle ok => resume ok s
  | Immediate => runImmediate s
  end.

Fixpoint run (acts : list Action) (s : State) : option State :=
  match acts with
  | [] => Some s
  | a :: rest =>
      match step a s with
      | Some s' => run rest s'
      | None => None
      end
  end.

(** The jobs handed to [addToQueue], in call order. *)
Fixpoint enqueued (acts : list Action) : list Job :=
  match acts with
  | [] => []
  | Enqueue job :: rest => job :: enqueued rest
  | _ :: rest => enqueued rest
  end.

Fixpoint started (t : list Event) : list Job :=
  match t with
  | [] => []
  | Started job :: rest => job :: started rest
  | Finished _ _ :: rest => started rest
  end.

Fixpoint finished (t : list Event) : list Job :=
  match t with
  | [] => []
  | Started _ :: rest => finished rest
  | Finished job _ :: rest => job :: finished rest
  end.

(** Runs never overlap: reading the events in order with [cur] the run in
    flight, a run starts only when none is in flight and the run that
    ends is the one in flight.  The result is the run in flight at the
    end, [None] when the events break the rule. *)
Fixpoint sequential (cur : option Job) (t : list Event) : option (option Job) :=
  match t with
  | [] => Some cur
  | Started job :: rest =>
      match cur with
      | None => sequential (Some job) rest
      | Some _ => None
      end
  | Finished job _ :: rest =>
      match cur with
      | Some j => if decide (j = job) then sequential None rest else None
      | None => None
      end
  end.

(** The turns still owed when no further job is enqueued. *)
Definition measure (s : State) : nat :=
  (2 * length (processingQueue s) + immediates s + (if isProcessing s then 2 else 0))%nat.

(** The event loop left alone: the run in flight settles with the outcome
    [outcome] gives its job, pending immediates run, until nothing is
    left to do or [fuel] turns have passed. *)
Fixpoint drain (outcome : Job -> bool) (fuel : nat) (s : State) : State :=
  match fuel with
  | O => s
  | S fuel' =>
      match running s with
      | Some job =>
          match resume (outcome job) s with
          | Some s' => drain outcome fuel' s'
          | None => s
          end
      | None =>
          match runImmediate s with
          | Some s' => drain outcome fuel' s'
          | None => s
          end
      end
  end.

End Queue.

(** ** The streaming responder: the specification's ranges, and the
    requests that reach a file *)

Module StreamSpec.
Import Js Stream.

(** The header [bytes=<start>-<end>] written out; [end_] is optional. *)
Definition rangeHeaderOf (start : Z) (end_ : option Z) : string :=
  "bytes=" +:+ toString start +:+ "-"
  +:+ match end_ with Some e => toString e | None => EmptyString end.

(** The numbers the pattern of the code captures in a header, when it
    is found there. *)
Definition captured (h : string) : option (Z * option Z) :=
  match regex_match h with
  | None => None
  | Some (g1, g2) =>
      Some (parse_digits g1 0,
            match g2 with
            | EmptyString => None
            | _ => Some (parse_digits g2 0)
            end)
  end.

(** The string is made of decimal digits only. *)
Fixpoint digits (s : string) : bool :=
  match s with
  | EmptyString => true
  | String c t => is_digit c && digits t
  end.


(** The form of a range header in the specification's words,
    [bytes=<start>-<end>]: the header is the word [bytes=], the digits of
    the start, a dash and the digits of the end, which may be left out;
    nothing precedes [bytes=] and nothing follows the end. *)
Definition hasForm (h start end_ : string) : Prop :=
  h = "bytes=" +:+ start +:+ "-" +:+ end_
  /\ start <> EmptyString /\ digits start = true /\ digits end_ = true.

(** The same, computed: the digits of the start and of the end of a
    header of that form, [None] for any other header. *)
Definition form (h : string) : option (string * string) :=
  match strip_prefix "bytes=" h with
  | Some r =>
      match span_digits r with
      | (String c g1, String "-" r2) =>
          match span_digits r2 with
          | (g2, EmptyString) => Some (String c g1, g2)
          | _ => None
          end
      | _ => None
      end
  | None => None
  end.



Section WithLibraries.

Variable jwt_verify : string -> option Decoded.
Variable extname : string -> string.
Variable isObjectId : string -> bool.

(** The request authenticates and its token's tenant owns the record
    [video] that [videoId] names. *)
Definition resolves (db : Db) (req : Request) (video : Video) : Prop :=
  exists decoded,
    verifyToken jwt_verify req = Some decoded
    /\ findOneTenant isObjectId db (tok_tenantId decoded) (videoId req) = inr (Some video).

(** The request gets as far as opening the file [path], whose content is
    [content]. *)
Definition serves (db : Db) (fs : Fs) (req : Request)
    (video : Video) (path : string) (content : list Byte.byte) : Prop :=
  resolves db req video
  /\ status video <> uploaded /\ status video <> processing
  /\ selectFile fs video = Some path
  /\ fs !! path = Some content.

(** What [streamVideo] does once it has the file. *)
Definition respond (video : Video) (path : string) (content : list Byte.byte)
    (rangeHeader : option string) : Response :=
  let fileSize := Z.of_nat (length content) in
  let common : gmap string string :=
    <["Accept-Ranges" := "bytes"]> (<["Content-Type" := contentType extname video path]> ∅) in
  match parseRange rangeHeader fileSize with
  | None =>
      mkResponse 200
        (<["Content-Range" := "bytes 0-" +:+ toString (fileSize - 1) +:+ "/" +:+ toString fileSize]>
           (<["Content-Length" := toString fileSize]> common))
        (BodyBytes content)
  | Some r =>
      mkResponse 206
        (<["Content-Range" := "bytes " +:+ toString (start r) +:+ "-" +:+ toString (end_ r)
                              +:+ "/" +:+ toString fileSize]>
           (<["Content-Length" := toString (chunkSize r)]> common))
        (BodyBytes (readSpan content (start r) (end_ r)))
  end.

End WithLibraries.

End StreamSpec.

(** ** The scorer as the specification words it *)

Module ScorerSpec.
Import Sensitivity.

Local Open Scope Q_scope.

Definition sumQ (l : list Q) : Q := fold_right Qplus 0 l.

Definition count_of (n : nat) : Q := inject_Z (Z.of_nat n).

(** 0.3 when the brightness is outside the band [0.2, 0.9], plus
    0.7 x skinTone when skinTone > 0.4. *)
Definition per_frame (a : FrameAnalysis) : Q :=
  (if Qlt_le_dec (brightness a) 0.2 then 0.3
   else if Qlt_le_dec 0.9 (brightness a) then 0.3 else 0)
  + (if Qlt_le_dec 0.4 (skinTone a) then 0.7 * skinTone a else 0).

Definition mean (l : list FrameAnalysis) : Q :=
  sumQ (List.map per_frame l) / count_of (length l).

(** The frames whose score exceeds 0.5. *)
Definition exceeding (l : list FrameAnalysis) : list FrameAnalysis :=
  List.filter (fun a => if Qlt_le_dec 0.5 (per_frame a) then true else false) l.

Definition fraction (l : list FrameAnalysis) : Q :=
  count_of (length (exceeding l)) / count_of (length l).

(** The mean score plus 0.3 x the fraction of frames above 0.5, capped at 1. *)
Definition overall (l : list FrameAnalysis) : Q :=
  Qmin (mean l + 0.3 * fraction l) 1.

Definition level_of (score : Q) : Level :=
  if Qlt_le_dec 0.8 score then high
  else if Qlt_le_dec 0.5 score then medium
  else low.

End ScorerSpec.

(** ** The scorer as the specification words it, evaluated in binary64 *)

Module ScorerSpec64.
Import PrimFloat Sensitivity64.

#[local] Set Warnings "-inexact-float".
Local Open Scope float_scope.

(** The sum of the numbers of a list, taken in the order of the list. *)
Definition sum (l : list float) : float := fold_left add l 0.

(** 0.3 when the brightness is outside the band [0.2, 0.9], plus
    0.7 x skinTone when skinTone > 0.4. *)
Definition per_frame (a : FrameAnalysis) : float :=
  (if (brightness a <? 0.2) || (0.9 <? brightness a) then 0.3 else 0)
  + (if 0.4 <? skinTone a then 0.7 * skinTone a else 0).

Definition mean (l : list FrameAnalysis) : float :=
  sum (List.map per_frame l) / of_count (Z.of_nat (length l)).

(** The frames whose score exceeds 0.5. *)
Definition exceeding (l : list FrameAnalysis) : list FrameAnalysis :=
  List.filter (fun a => 0.5 <? per_frame a) l.

Definition fraction (l : list FrameAnalysis) : float :=
  of_count (Z.of_nat (length (exceeding l))) / of_count (Z.of_nat (length l)).

(** A score capped at 1. *)
Definition capped (x : float) : float := if 1 <? x then 1 else x.

(** The mean score plus 0.3 x the fraction of frames above 0.5, capped at 1. *)
Definition overall (l : list FrameAnalysis) : float :=
  capped (mean l + 0.3 * fraction l).

Definition level_of (score : float) : Level :=
  if 0.8 <? score then high
  else if 0.5 <? score then medium
  else low.

(** A zero of either sign, or NaN: what a zero count divided by a
    length can be. *)
Definition zero_or_nan (f : SpecFloat.spec_float) : Prop :=
  match f with
  | SpecFloat.S754_zero _ | SpecFloat.S754_nan => True
  | _ => False
  end.

End ScorerSpec64.

(** ** The pipeline: the specification's bands, and the runs of
    [processVideo] written out *)

Module PipelineSpec.
Import Pipeline.


(** The percentages the transcode stage passes up: one per progress
    event with a non-zero percent. *)
Definition transcodeReports (E : Engine) : list Z :=
  List.map (fun p => 10 + scaled p 0.3)
           (List.filter (fun p => negb (Qeq_bool p 0)) (transcodeProgress E)).

(** The percentages the scan stage passes up. *)
Definition scanReports (E : Engine) : list Z :=
  List.map (fun p => 70 + scaled (inject_Z p) 0.2)
           (snd (Sensitivity.processSensitivityCheck (scan E))).

(** Everything a run that completes reports, in order. *)
Definition successReports (E : Engine) : list Z :=
  [10] ++ transcodeReports E ++ [40] ++ [40 + scaled 100 0.2] ++ [60; 70; 70]
  ++ scanReports E ++ [100].

(** The files of a world after an optional write. *)
Definition written (path : string) (content : option (list Byte.byte)) (fs : Fs) : Fs :=
  match content with
  | Some c => <[path := c]> fs
  | None => fs
  end.

(** [deleteFile] of an optional stored path, as the cleanup calls it. *)
Definition removed (path : option string) (fs : Fs) : Fs :=
  match Js.truthy path with
  | Some p => if existsSync fs p then delete p fs else fs
  | None => fs
  end.

(** The points where the [try] block of [processVideo] can throw. *)
Inductive Stage := Load | Original | Mkdir | Transcode | Thumbnail | Metadata.

Section WithConfig.

Variable UPLOAD_PATH : string.
Variable extname : string -> string.

(** The derivative and thumbnail paths a run computes for a record. *)
Definition derivativePath (v : Video) (id : string) : string :=
  getProcessedFilePath UPLOAD_PATH (tenantId v) id
    match getFileExtension extname (originalFilePath v) with
    | EmptyString => "mp4"
    | e => e
    end.

Definition thumbPath (v : Video) (id : string) : string :=
  getThumbnailPath UPLOAD_PATH (tenantId v) id "jpg".

(** [path.join(path.dirname(processedPath), 'temp_frames')]: the
    directory in which the scan of a record's derivative keeps its frame
    files. *)
Definition scanDirectory (v : Video) : string :=
  UPLOAD_PATH +:+ "/" +:+ tenantId v +:+ "/" +:+ "temp_frames".

(** [p] is a file of that directory. *)
Definition inScanDirectory (v : Video) (p : string) : Prop :=
  exists name, p = scanDirectory v +:+ "/" +:+ name.

(** A record as the upload handler stores it: the original under its
    secure name, no derivative and no thumbnail yet. *)
Definition storedByUpload (id : string) (v : Video) : Prop :=
  (exists extension,
     originalFilePath v = getOriginalFilePath UPLOAD_PATH (tenantId v) id extension)
  /\ processedFilePath v = None /\ thumbnailPath v = None.

(** The first point at which a run throws, with the error; [None] when
    it does not throw.  The scan is not among them: it catches its own
    errors. *)
Definition failure (E : Engine) (id : string) (w : World) : option (Stage * string) :=
  match db w !! id with
  | None => Some (Load, "Video not found")
  | Some v =>
      if negb (existsSync (fs w) (originalFilePath v))
      then Some (Original, "Original video file not found")
      else
        match mkdirError E, transcodeError E, thumbnailError E, metadata E with
        | Some m, _, _, _ => Some (Mkdir, m)
        | None, Some m, _, _ => Some (Transcode, m)
        | None, None, Some m, _ => Some (Thumbnail, m)
        | None, None, None, inl m => Some (Metadata, m)
        | None, None, None, inr _ => None
        end
  end.

(** The record a run that completes stores last. *)
Definition finalRecord (E : Engine) (id : string) (v : Video) (dur : Q) : Video :=
  let res := fst (Sensitivity.processSensitivityCheck (scan E)) in
  let v2 := set_duration (Qfloor dur) (set_progress 0 (set_status processing v)) in
  let v3 := set_progress 100
              (set_results (derivativePath v id) (thumbPath v id) (Sensitivity.level res) v2) in
  if Sensitivity.flagged res then set_status flagged v3 else set_status safe v3.

(** The [try] block run symbolically: what it returns and the world it
    leaves, by the point where it stops. *)
Definition tryResult (E : Engine) (id : string) (w : World) : (string + Outcome) * World :=
  match db w !! id with
  | None => (inl "Video not found", w)
  | Some v =>
      if negb (existsSync (fs w) (originalFilePath v))
      then (inl "Original video file not found", w)
      else
        let v1 := set_progress 0 (set_status processing v) in
        let d1 := <[id := v1]> (db w) in
        let r1 := reported w ++ [10] in
        match mkdirError E with
        | Some m => (inl m, mkWorld d1 (fs w) r1 (timers w))
        | None =>
        let f2 := written (derivativePath v id) (transcodeOutput E) (fs w) in
        let r2 := r1 ++ transcodeReports E in
        match transcodeError E with
        | Some m => (inl m, mkWorld d1 f2 r2 (timers w))
        | None =>
        let f3 := written (thumbPath v id) (thumbnailOutput E) f2 in
        match thumbnailError E with
        | Some m => (inl m, mkWorld d1 f3 (r2 ++ [40]) (timers w))
        | None =>
        let r3 := r2 ++ [40; 40 + scaled 100 0.2; 60] in
        match metadata E with
        | inl m => (inl m, mkWorld d1 f3 r3 (timers w))
        | inr dur =>
            let v2 := set_duration (Qfloor dur) v1 in
            let v3 := finalRecord E id v dur in
            (inr (mkOutcome true v3 (fst (Sensitivity.processSensitivityCheck (scan E)))),
             mkWorld (<[id := v3]> (<[id := v2]> d1)) f3
                     (r3 ++ [70; 70] ++ scanReports E ++ [100])
                     (timers w ++ [id]))
        end end end end
  end.

(** The [catch] block run symbolically. *)
Definition catchResult (id : string) (w : World) : World :=
  match db w !! id with
  | Some v =>
      mkWorld (<[id := set_status failed v]> (db w))
              (removed (thumbnailPath v) (removed (processedFilePath v) (fs w)))
              (reported w) (timers w)
  | None => w
  end.

End WithConfig.

(** A pending promotion fires: the oldest timer runs its callback. *)
Definition fireTimer (w : World) : option World :=
  match timers w with
  | id :: rest => Some (promote id (mkWorld (db w) (fs w) (reported w) rest))
  | [] => None
  end.

End PipelineSpec.

(** ** The queue's invariant *)

Module QueueSpec.
Import Queue.

Definition inFlight (s : State) : list Job :=
  match running s with
  | Some job => [job]
  | None => []
  end.

(** What holds of every state the queue can be in after the jobs [jobs]
    have been enqueued: started and waiting jobs are [jobs] in order; the
    events show one run at a time, the last still open exactly when a
    call is suspended; every started job but that one has finished; and
    the flag and the current id agree with the suspended call. *)
Definition consistent (jobs : list Job) (s : State) : Prop :=
  started (trace s) ++ processingQueue s = jobs
  /\ sequential None (trace s) = Some (running s)
  /\ finished (trace s) ++ inFlight s = started (trace s)
  /\ isProcessing s = match running s with Some _ => true | None => false end
  /\ currentVideoId s = videoId <$> running s.

(** A waiting job is never stranded: with the worker idle and jobs
    waiting, a callback that will start the next one is pending. *)
Definition live (s : State) : Prop :=
  isProcessing s = false -> processingQueue s <> [] -> (0 < immediates s)%nat.

(** Nothing left to do. *)
Definition quiescent (s : State) : Prop :=
  running s = None /\ isProcessing s = false
  /\ immediates s = O /\ processingQueue s = [].

End QueueSpec.

(** ** Sample data *)

Module Sample.
Import Stream.

(** One valid token, of a viewer of tenant [t1]. *)
Definition jwt_verify (token : string) : option Decoded :=
  if decide (token = "token-u1") then Some (mkDecoded "u1" "viewer" "t1") else None.

(** Enough of [path.extname] for the sample paths: the suffix that
    starts at the last dot. *)
Fixpoint extname (p : string) : string :=
  match p with
  | EmptyString => EmptyString
  | String c t =>
      match extname t with
      | EmptyString => if Ascii.eqb c "."%char then p else EmptyString
      | e => e
      end
  end.

(** The sample ids stand for ObjectIds: a string of two characters
    casts, any other string does not. *)
Definition isObjectId (id : string) : bool := bool_decide (String.length id = 2%nat).

Definition UPLOAD_PATH : string := "uploads".

(** A ten-byte file. *)
Definition content : list Byte.byte :=
  [Byte.x30; Byte.x31; Byte.x32; Byte.x33; Byte.x34;
   Byte.x35; Byte.x36; Byte.x37; Byte.x38; Byte.x39].

Definition original (id : string) : string :=
  Pipeline.getOriginalFilePath UPLOAD_PATH "t1" id "mp4".

Definition record (id : string) (st : Status) : Video :=
  mkVideo "t1" "u1" (original id) None None (Some "video/mp4") None st 0 low.

(** Three records of tenant [t1]: [v1] is ready, [v2] is being
    processed, [v3] has just been uploaded. *)
Definition db : Db :=
  <["v1" := record "v1" ready]>
    (<["v2" := record "v2" processing]> (<["v3" := record "v3" uploaded]> ∅)).

Definition fs : Fs :=
  <[original "v1" := content]>
    (<[original "v2" := content]> (<[original "v3" := content]> ∅)).

Definition get (id : string) (token rangeHeader : option string) : Request :=
  mkRequest id token None rangeHeader.

(** Two frames: one dark and skin-toned, one unremarkable. *)
Definition frames : list Sensitivity.FrameAnalysis :=
  [Sensitivity.mkFrame "frame_0.png" 0.1 0.9 0;
   Sensitivity.mkFrame "frame_5.png" 0.5 0.1 5].


(** A scan of three frames, all unremarkable. *)
Definition scan_ok : Sensitivity.Engine :=
  Sensitivity.mkEngine None (inr ["frame_0.png"; "frame_5.png"; "frame_10.png"])
                       (fun _ => Some (0.5, 0.1)%Q).

(** A scan whose frame extraction fails in the external engine. *)
Definition scan_broken : Sensitivity.Engine :=
  Sensitivity.mkEngine None (inl "Failed to get video metadata: ffprobe exited with code 1")
                       (fun _ => None).

Definition engine_ok : Pipeline.Engine :=
  Pipeline.mkEngine None [25; 50; 100]%Q (Some content) None (Some content) None
                    (inr 12.5%Q) scan_ok.

Definition engine_scan_broken : Pipeline.Engine :=
  Pipeline.mkEngine None [25; 50; 100]%Q (Some content) None (Some content) None
                    (inr 12.5%Q) scan_broken.



(** The transcode leaves a derivative, then the thumbnail fails. *)
Definition engine_thumbnail_broken : Pipeline.Engine :=
  Pipeline.mkEngine None [25; 50; 100]%Q (Some content) None None
                    (Some "Thumbnail generation failed: ffmpeg exited with code 1")
                    (inr 12.5%Q) scan_ok.

Definition world : Pipeline.World := Pipeline.mkWorld db fs [] [].

Definition run (E : Pipeline.Engine) : (string + Pipeline.Outcome) * Pipeline.World :=
  Pipeline.processVideo UPLOAD_PATH extname E "v3" world.

(** The record a run returns; the record given when it threw. *)
Definition returned (r : (string + Pipeline.Outcome) * Pipeline.World) (v : Video) : Video :=
  match fst r with
  | inr o => Pipeline.video o
  | inl _ => v
  end.

Definition job (id : string) : Queue.Job := Queue.mkJob id true.

(** Two uploads, the first run fails, the callback starts the second,
    a third upload arrives while it runs. *)
Definition turns : list Queue.Action :=
  [Queue.Enqueue (job "a"); Queue.Enqueue (job "b"); Queue.Settle false;
   Queue.Immediate; Queue.Enqueue (job "c")].

(** The state those turns lead to. *)
Definition after_turns : Queue.State :=
  default Queue.initial (Queue.run turns Queue.initial).

End Sample.

(** ** Frame extraction and the two analyzers (services/sensitivity.service.js) *)

Module Frames.
Import Sensitivity.

Local Open Scope Q_scope.

(** [Math.ceil(duration / interval)]. *)
Definition frameCount (duration : Q) (interval : Z) : Z :=
  Qceiling (duration / inject_Z interval).

(** The loop of [extractFrames] that collects the timestamps: [i] runs
    from 0 while [i < frameCount], and [i * interval] is kept when it is
    below the duration. *)
Definition timestamps (duration : Q) (interval : Z) : list Z :=
  List.filter (fun timestamp => lt (inject_Z timestamp) duration)
    (List.map (fun i => (Z.of_nat i * interval)%Z)
              (seq 0 (Z.to_nat (frameCount duration interval)))).

(** [path.join(outputDir, `frame_${ts}.png`)]. *)
Definition framePathOf (outputDir : string) (ts : Z) : string :=
  outputDir +:+ "/" +:+ "frame_" +:+ Js.toString ts +:+ ".png".

(** What the external engine does during one extraction: ffprobe gives
    an error or [format.duration] (possibly missing); the screenshot
    command ends or fails with an error; [onDisk] is [fs.existsSync] on
    the frame paths once it has ended. *)
Record Extraction := mkExtraction {
  probe : string + option Q;
  screenshotError : option string;
  onDisk : string -> bool
}.

(** [extractFrames(videoPath, interval, outputDir)]; [X] is what the
    external engine does with [videoPath]. *)
Definition extractFrames (X : Extraction) (interval : Z) (outputDir : string)
  : string + list string :=
  match probe X with
  | inl message => inl ("Failed to get video metadata: " +:+ message)
  | inr d =>
      let duration := default 0 d in
      match timestamps duration interval with
      | [] => inr []
      | ts =>
          match screenshotError X with
          | Some message => inl ("Frame extraction failed: " +:+ message)
          | None => inr (List.filter (onDisk X) (List.map (framePathOf outputDir) ts))
          end
      end
  end.



End Frames.

(** ** The scale filter of the transcode (services/videoProcessing.service.js) *)

Module Transcode.




End Transcode.

(** ** Tenant-scoped queries (middlewares/tenant.middleware.js) *)

Module Tenant.

(** A query or request body: a JavaScript object with string values. *)
Abbreviation Object := (gmap string string).

(** [{ ...query, tenantId }]: the tenant id is written last. *)
Definition addTenantFilter (query : Object) (tenantId : option string) : string + Object :=
  match Js.truthy tenantId with
  | None => inl "tenantId is required for tenant filtering"
  | Some tenantId => inr (<["tenantId" := tenantId]> query)
  end.

(** [{ tenantId, ...additionalFilters }]: the additional filters are
    written last. *)
Definition tenantQuery (tenantId : option string) (additionalFilters : Object)
  : string + Object :=
  match Js.truthy tenantId with
  | None => inl "tenantId is required for tenant filtering"
  | Some tenantId => inr (additionalFilters ∪ {["tenantId" := tenantId]})
  end.

(** Whether the record [id] satisfies a query on the fields [_id] and
    [tenantId]. *)
Definition satisfies (query : Object) (id : string) (video : Video) : bool :=
  match query !! "_id" with
  | Some wanted => bool_decide (wanted = id)
  | None => true
  end
  && match query !! "tenantId" with
     | Some wanted => bool_decide (wanted = tenantId video)
     | None => true
     end.

(** The first record, in the order of the store, that satisfies the
    query. *)
Definition firstMatch (db : Db) (query : Object) : option Video :=
  snd <$> head (List.filter (fun '(id, video) => satisfies query id video) (map_to_list db)).

(** [Video.findOne(query)]: mongoose casts the query to the schema
    first and rejects with a [CastError] when its [_id] is not an
    ObjectId ([isObjectId] is that cast); otherwise the answer is the
    first record that satisfies the query. *)
Definition findOne (isObjectId : string -> bool) (db : Db) (query : Object)
  : AppError + option Video :=
  match query !! "_id" with
  | Some id => if isObjectId id then inr (firstMatch db query) else inl (CastError id)
  | None => inr (firstMatch db query)
  end.

End Tenant.

(** ** File removal and the video controller
    (utils/fileStorage.utils.js, utils/fileCleanup.utils.js,
    controllers/video.controller.js) *)

Module Library.
Import Pipeline.

(** What the upload and delete handlers read and write: the records,
    the legacy [filePath] field of each record (kept in a map of its
    own: the pipeline never reads or writes it), the files, and the job
    queue.  The record store is taken to succeed, as in the pipeline. *)
Record Server := mkServer {
  videos : Db;
  filePaths : gmap string string;
  files : Fs;
  queue : Queue.State
}.

(** [deleteFile] of fileStorage.utils.js, on the files alone. *)
Definition deleteFile (filePath : string) (f : Fs) : Fs :=
  if bool_decide (filePath = "") || negb (existsSync f filePath) then f
  else delete filePath f.

(** [if (path) filesToDelete.push(deleteFile(path))]. *)
Definition deleteIfSet (path : option string) (f : Fs) : Fs :=
  match Js.truthy path with
  | Some p => deleteFile p f
  | None => f
  end.

(** [deleteVideoFiles]; [filePath] is the legacy field of the record.
    The deletions are started one after the other and their errors are
    absorbed by [Promise.allSettled]. *)
Definition deleteVideoFiles (video : Video) (filePath : option string) (f : Fs) : Fs :=
  let f := deleteIfSet (Some (originalFilePath video)) f in
  let f := deleteIfSet (processedFilePath video) f in
  let f := deleteIfSet (thumbnailPath video) f in
  match Js.truthy filePath with
  | Some p => if bool_decide (p <> originalFilePath video) then deleteFile p f else f
  | None => f
  end.

(** [cleanupUploadedFile]: [fs.unlink], every error ignored. *)
Definition cleanupUploadedFile (filePath : option string) (s : Server) : Server :=
  match Js.truthy filePath with
  | Some p => mkServer (videos s) (filePaths s) (delete p (files s)) (queue s)
  | None => s
  end.

(** [cleanupVideoRecord]. *)
Definition cleanupVideoRecord (videoId : string) (s : Server) : Server :=
  match findById (videos s) videoId with
  | Some video =>
      mkServer (delete videoId (videos s)) (delete videoId (filePaths s))
               (deleteVideoFiles video (filePaths s !! videoId) (files s))
               (queue s)
  | None => s
  end.

(** [renameToSecurePath]: [fs.rename] fails with the error the
    environment gives, or because the old path does not exist. *)
Definition renameToSecurePath (renameError : option string) (oldPath newPath : string)
    (f : Fs) : string + Fs :=
  match renameError, f !! oldPath with
  | Some message, _ => inl message
  | None, None =>
      inl ("ENOENT: no such file or directory, rename '" +:+ oldPath +:+ "' -> '"
           +:+ newPath +:+ "'")
  | None, Some content => inr (<[newPath := content]> (delete oldPath f))
  end.

(** [req.file] as multer leaves it. *)
Record File := mkFile {
  path : string;
  filename : string;
  originalname : string;
  mimetype : string;
  size : Z
}.

(** The part of the request [uploadVideo] reads: the file, the
    authenticated user, and whether [req.app.locals.io] is set. *)
Record UploadRequest := mkUploadRequest {
  file : option File;
  user_tenantId : string;
  user_userId : string;
  has_io : bool
}.

(** What the environment decides during one upload: the id
    [Video.create] gives the new record; the error thrown before the
    record exists, if any (by [ensureTenantDirectory],
    [Organization.findOne] or [Video.create]), as the status and message
    the error handler answers with; and the error of [fs.rename]. *)
Record Env := mkEnv {
  newId : string;
  createError : option (Z * string);
  renameError : option string
}.

Definition answer (status : Z) (message : string) : Response :=
  mkResponse status ∅ (BodyJson message).

Section WithConfig.

Variable UPLOAD_PATH : string.
Variable extname : string -> string.

Definition uploadVideo (env : Env) (req : UploadRequest) (s : Server) : Response * Server :=
  match file req with
  | None => (answer 400 "No video file provided", s)
  | Some fileInfo =>
      let tenantId := user_tenantId req in
      let userId := user_userId req in
      let tempFilePath := path fileInfo in
      let fileExtension := getFileExtension extname (originalname fileInfo) in
      match createError env with
      | Some (status, message) =>
          (answer status message, cleanupUploadedFile (Some tempFilePath) s)
      | None =>
          let videoId := newId env in
          let video := mkVideo tenantId userId tempFilePath None None
                               (Some (mimetype fileInfo)) None uploaded 0 low in
          let s := mkServer (<[videoId := video]> (videos s))
                            (<[videoId := tempFilePath]> (filePaths s))
                            (files s) (queue s) in
          let secureOriginalPath :=
            getOriginalFilePath UPLOAD_PATH tenantId videoId fileExtension in
          match renameToSecurePath (renameError env) tempFilePath secureOriginalPath (files s) with
          | inl message =>
              let s := cleanupUploadedFile (Some tempFilePath) s in
              (answer 500 message,
               match Js.truthy (Some videoId) with
               | Some videoId => cleanupVideoRecord videoId s
               | None => s
               end)
          | inr renamed =>
              let video := mkVideo tenantId userId secureOriginalPath None None
                                   (Some (mimetype fileInfo)) None uploaded 0 low in
              let s := mkServer (<[videoId := video]> (videos s))
                                (<[videoId := secureOriginalPath]> (filePaths s))
                                renamed (queue s) in
              let s := if has_io req
                       then mkServer (videos s) (filePaths s) (files s)
                                     (Queue.addToQueue (Queue.mkJob videoId true) (queue s))
                       else s in
              (answer 201 "Video uploaded successfully. Processing started.", s)
          end
      end
  end.

End WithConfig.

(** [deleteVideo], followed by the error middleware; [isObjectId] is the
    cast of mongoose, as in the stream handlers. *)
Definition deleteVideo (isObjectId : string -> bool) (tenantId id : string) (s : Server)
  : Response * Server :=
  match Stream.findOneTenant isObjectId (videos s) tenantId id with
  | inl e => (errorHandler e, s)
  | inr None => (errorHandler (NotFoundError "Video"), s)
  | inr (Some video) =>
      (answer 200 "Video deleted successfully",
       mkServer (delete id (videos s)) (delete id (filePaths s))
                (deleteVideoFiles video (filePaths s !! id) (files s))
                (queue s))
  end.

End Library.

(** ** Authentication and roles on the video routes
    (middlewares/auth.middleware.js, middlewares/role.middleware.js,
    routes/video.routes.js) *)

Module Routes.
Import Stream.

(** How [jwt.verify] can throw. *)
Inductive JwtError :=
  | TokenExpiredError
  | JsonWebTokenError
  | OtherError (message : string).

(** [req.user] as [authenticate] sets it. *)
Record User := mkUser { userId : string; role : string; user_tenant : option string }.

(** The token [authenticate] reads: the second word of an Authorization
    header that starts with [Bearer], else the [token] query parameter. *)
Definition selectToken (req : Request) : option string :=
  match authorization req with
  | Some a =>
      match Js.strip_prefix "Bearer" a with
      | Some _ => Js.truthy (Js.split_space a !! 1%nat)
      | None => Js.truthy (query_token req)
      end
  | None => Js.truthy (query_token req)
  end.

(** The tenant id [decoded.tenantId || user.tenantId]. *)
Definition attached (decoded : Decoded) (stored : string) : string :=
  if decide (tok_tenantId decoded = EmptyString) then stored else tok_tenantId decoded.

Section WithLibraries.

(** [jwt.verify(token, JWT_SECRET)]. *)
Variable jwt : string -> JwtError + Decoded.
(** The cast of mongoose, as in the stream handlers. *)
Variable isObjectId : string -> bool.

(** The same call as the stream handlers see it: any error is a missing
    user. *)
Definition jwt_verify (token : string) : option Decoded :=
  match jwt token with
  | inr decoded => Some decoded
  | inl _ => None
  end.

(** [authenticate]; [users] maps the ids of the stored users to their
    tenant ids. *)
Definition authenticate (users : gmap string string) (req : Request) : AppError + User :=
  match selectToken req with
  | None => inl (UnauthorizedError "Not authorized, no token provided")
  | Some token =>
      match jwt token with
      | inl TokenExpiredError =>
          inl (UnauthorizedError "Token has expired. Please login again.")
      | inl JsonWebTokenError =>
          inl (UnauthorizedError "Invalid token. Please login again.")
      | inl (OtherError message) => inl (PlainError message)
      | inr decoded =>
          match users !! tok_userId decoded with
          | None => inl (UnauthorizedError "User no longer exists")
          | Some userTenantId =>
              inr (mkUser (tok_userId decoded) (tok_role decoded)
                          (Js.or_else (Some (tok_tenantId decoded)) (Some userTenantId)))
          end
      end
  end.

(** [ensureTenant]: the response it sends, [None] when it calls [next]. *)
Definition ensureTenant (user : option User) : option Response :=
  match user with
  | Some u =>
      match Js.truthy (user_tenant u) with
      | Some _ => None
      | None =>
          Some (Library.answer 401 "Tenant information not available. Please login again.")
      end
  | None => Some (Library.answer 401 "Tenant information not available. Please login again.")
  end.

(** [roles.join(', ')]. *)
Fixpoint join (roles : list string) : string :=
  match roles with
  | [] => EmptyString
  | [r] => r
  | r :: rest => r +:+ ", " +:+ join rest
  end.

(** [checkRole(...roles)]: the response it sends, [None] when it calls
    [next]. *)
Definition checkRole (roles : list string) (user : option User) : option Response :=
  match user with
  | None => Some (Library.answer 401 "Not authorized, please login")
  | Some u =>
      if bool_decide (role u ∈ roles) then None
      else Some (Library.answer 403
                   ("User role '" +:+ role u
                    +:+ "' is not authorized to access this route. Required roles: "
                    +:+ join roles))
  end.

(** [DELETE /api/videos/:id]: [authenticate], [ensureTenant],
    [checkRole('admin')], [deleteVideo]. *)
Definition deleteRoute (users : gmap string string) (req : Request) (s : Library.Server)
  : Response * Library.Server :=
  match authenticate users req with
  | inl e => (errorHandler e, s)
  | inr user =>
      match ensureTenant (Some user) with
      | Some res => (res, s)
      | None =>
          match checkRole ["admin"] (Some user) with
          | Some res => (res, s)
          | None => Library.deleteVideo isObjectId (default EmptyString (user_tenant user)) (videoId req) s
          end
      end
  end.

End WithLibraries.

End Routes.

(** ** Queue status (services/processingQueue.service.js) *)

Module QueueStatus.
Import Queue.

(** The object [getQueueStatus] returns. *)
Record Report := mkReport {
  queueLength : nat;
  isProcessing : bool;
  currentVideo : option string
}.

Definition getQueueStatus (s : State) : Report :=
  mkReport (length (processingQueue s)) (Queue.isProcessing s) (currentVideoId s).

End QueueStatus.

(** ** Words for the properties of the code above *)

Module StreamWords.
Import Js Stream.

(** The string holds no blank. *)
Fixpoint no_space (s : string) : bool :=
  match s with
  | EmptyString => true
  | String c t => negb (Ascii.eqb c " "%char) && no_space t
  end.

(** [body] is the part of [content] that follows [before] and precedes
    [after]. *)
Definition slice_of (content before body after : list Byte.byte) : Prop :=
  content = before ++ body ++ after.

Section WithLibraries.

Variable jwt_verify : string -> option Decoded.
Variable isObjectId : string -> bool.

(** A request for the record [id], an id that casts to an ObjectId as
    the id of every stored record does, by a token of the tenant
    [tenant]. *)
Definition asks (req : Request) (id tenant : string) : Prop :=
  videoId req = id /\ isObjectId id = true
  /\ exists decoded, verifyToken jwt_verify req = Some decoded /\ tok_tenantId decoded = tenant.

End WithLibraries.

End StreamWords.

Module FramesSpec.
Import Sensitivity Frames.

Local Open Scope Q_scope.




(** The scan whose frames come from [extractFrames], as
    [processSensitivityCheck] calls it: every 5 seconds, into [tempDir]. *)
Definition scanWith (X : Extraction) (tempDir : string) (mkdirError : option string)
    (analyze : string -> option (Q * Q)) : Engine :=
  mkEngine mkdirError (Frames.extractFrames X 5 tempDir) analyze.

End FramesSpec.

Module LibrarySpec.
Import Library.

(** [p] is a file the record names: its original, derivative, thumbnail
    or legacy path, and not the empty string. *)
Definition named (video : Video) (filePath : option string) (p : string) : Prop :=
  p <> EmptyString
  /\ (originalFilePath video = p \/ processedFilePath video = Some p
      \/ thumbnailPath video = Some p \/ filePath = Some p).

#[global] Instance named_dec video filePath p : Decision (named video filePath p).
Proof. unfold named. apply _. Defined.

(** The upload cannot complete: there is no file, or creating the record
    or renaming the temporary file fails. *)
Definition uploadFails (env : Env) (req : UploadRequest) (s : Server) : Prop :=
  match file req with
  | None => True
  | Some fileInfo =>
      createError env <> None \/ renameError env <> None
      \/ files s !! path fileInfo = None
  end.

End LibrarySpec.

(** ** More sample data *)

Module Sample2.
Import Stream Sample.

(** A record of another tenant, [t2], beside the three of [t1]. *)
Definition foreign : Video :=
  mkVideo "t2" "u9" (Pipeline.getOriginalFilePath UPLOAD_PATH "t2" "w1" "mp4")
          None None (Some "video/mp4") None ready 0 low.

Definition db2 : Db := <["w1" := foreign]> db.

(** A request for [v1] with an Authorization header and no query token. *)
Definition with_header (id a : string) : Request := mkRequest id None (Some a) None.

(** A video whose probed duration is zero, and whose screenshot command
    would fail. *)
Definition still : Frames.Extraction :=
  Frames.mkExtraction (inr (Some 0%Q)) (Some "ffmpeg exited with code 1") (fun _ => true).

(** A video of 12.5 seconds whose second frame is missing on disk. *)
Definition clip : Frames.Extraction :=
  Frames.mkExtraction (inr (Some 12.5%Q)) None
    (fun p => negb (bool_decide (p = "temp_frames/frame_5.png"))).


(** A record of [t1] that has been processed, with its three files and
    the legacy path. *)
Definition processed : Video :=
  mkVideo "t1" "u1" (original "v1")
          (Some (Pipeline.getProcessedFilePath UPLOAD_PATH "t1" "v1" "mp4"))
          (Some (Pipeline.getThumbnailPath UPLOAD_PATH "t1" "v1" "jpg"))
          (Some "video/mp4") (Some 12) ready 100 low.

Definition library : Library.Server :=
  Library.mkServer
    (<["v1" := processed]> db2)
    {["v1" := original "v1"]}
    (<[Pipeline.getProcessedFilePath UPLOAD_PATH "t1" "v1" "mp4" := content]>
       (<[Pipeline.getThumbnailPath UPLOAD_PATH "t1" "v1" "jpg" := content]> fs))
    Queue.initial.

(** An upload of [clip.mp4] by user [u1] of tenant [t1], received by
    multer under a temporary name. *)
Definition incoming : Library.File :=
  Library.mkFile "uploads/t1/temp_clip-1700000000000-42.mp4"
                 "temp_clip-1700000000000-42.mp4" "clip.mp4" "video/mp4" 10.

Definition upload : Library.UploadRequest :=
  Library.mkUploadRequest (Some incoming) "t1" "u1" true.

Definition server : Library.Server :=
  Library.mkServer db ∅ (<[Library.path incoming := content]> fs) Queue.initial.

Definition env_ok : Library.Env := Library.mkEnv "v9" None None.

Definition env_rename_broken : Library.Env :=
  Library.mkEnv "v9" None (Some "EXDEV: cross-device link not permitted").

(** The server after the upload, and the run of the pipeline on the new
    record. *)
Definition server_after_upload : Library.Server :=
  snd (Library.uploadVideo UPLOAD_PATH extname env_ok upload server).

Definition run_uploaded (E : Pipeline.Engine)
  : (string + Pipeline.Outcome) * Pipeline.World :=
  Pipeline.processVideo UPLOAD_PATH extname E "v9"
    (Pipeline.mkWorld (Library.videos server_after_upload)
                      (Library.files server_after_upload) [] []).

(** Tokens as [jwt.verify] sees them: a viewer and an administrator of
    [t1], and an expired token. *)
Definition jwt (token : string) : Routes.JwtError + Decoded :=
  if decide (token = "token-u1") then inr (mkDecoded "u1" "viewer" "t1")
  else if decide (token = "token-admin") then inr (mkDecoded "a1" "admin" "t1")
  else if decide (token = "token-old") then inl Routes.TokenExpiredError
  else inl Routes.JsonWebTokenError.

(** The stored users, with their tenants. *)
Definition users : gmap string string := <["u1" := "t1"]> (<["a1" := "t1"]> ∅).

End Sample2.

(** ** Sample frames in binary64 *)

Module Sample64.
Import PrimFloat Sensitivity64.

#[local] Set Warnings "-inexact-float".
Local Open Scope float_scope.

(** Two frames: one dark and skin-toned, one unremarkable. *)
Definition frames : list FrameAnalysis :=
  [mkFrame "frame_0.png" 0.1 0.9 0; mkFrame "frame_5.png" 0.5 0.1 5].

(** Seven frames whose numbers are exact in binary64: a dark frame with
    skin tone 1/8, three dark frames with skin tone 1/2, and three
    normally lit frames with skin tone 1/2.  Their frame scores are 0.3,
    0.65 and 0.35, so the formula of the specification gives
    (0.3 + 3 x 0.65 + 3 x 0.35) / 7 + 0.3 x 3/7 = 0.6. *)
Definition borderline : list FrameAnalysis :=
  [mkFrame "frame_0.png" 0 0.125 0;
   mkFrame "frame_5.png" 0 0.5 5;
   mkFrame "frame_10.png" 0 0.5 10;
   mkFrame "frame_15.png" 0 0.5 15;
   mkFrame "frame_20.png" 0.5 0.5 20;
   mkFrame "frame_25.png" 0.5 0.5 25;
   mkFrame "frame_30.png" 0.5 0.5 30].

(** A normally lit frame whose skin tone is the number nearest to 5/7,
    which is above 5/7. *)
Definition rounded : FrameAnalysis := mkFrame "frame_0.png" 0.5 0.7142857142857143 0.

Definition half : float := 0.5.

(** The number the code computes for [borderline]. *)
Definition above : float := 0.6000000000000001.

End Sample64.

(** * Properties *)

(** ** Decimal strings: printing and parsing back *)

Module JsFacts.
Import Js.

Lemma append_empty_r (s : string) : s +:+ EmptyString = s.
Proof. induction s as [|c t IH]; [reflexivity|]. change (String c (t +:+ EmptyString) = String c t). f_equal. exact IH. Qed.

Lemma span_digits_stop s : no_leading_digit s -> span_digits s = (EmptyString, s).
Proof. destruct s as [|c t]; simpl; [reflexivity|]. intros ->. reflexivity. Qed.

Lemma span_digits_uint (d : uint) (r : string) :
  no_leading_digit r ->
  span_digits (NilEmpty.string_of_uint d +:+ r) = (NilEmpty.string_of_uint d, r).
Proof.
  intros Hr. induction d; simpl; try (rewrite IHd; reflexivity).
  apply span_digits_stop, Hr.
Qed.

Lemma parse_digits_acc (d : uint) (acc : positive) :
  parse_digits (NilEmpty.string_of_uint d) (Z.pos acc) = Z.pos (Pos.of_uint_acc d acc).
Proof.
  revert acc. induction d; intros acc; simpl; [reflexivity|..];
    (etransitivity; [|apply IHd]); f_equal; unfold digit_value; simpl; lia.
Qed.

Lemma parse_digits_uint (d : uint) :
  parse_digits (NilEmpty.string_of_uint d) 0 = Z.of_N (Pos.of_uint d).
Proof.
  induction d; simpl; [reflexivity|exact IHd|..];
    (etransitivity; [|apply parse_digits_acc]); f_equal.
Qed.

(** A number that is not negative prints as a non-empty string of digits
    whose value it is. *)
Lemma toString_nonneg (n : Z) :
  0 <= n ->
  exists d : uint, toString n = NilEmpty.string_of_uint d
                   /\ d <> Nil /\ Z.of_N (Pos.of_uint d) = n.
Proof.
  intros Hn. unfold toString. destruct n as [|p|p]; [| |lia].
  - exists (D0 Nil). split; [reflexivity|]. split; [discriminate|reflexivity].
  - exists (Pos.to_uint p). simpl. split; [|split].
    + unfold NilZero.string_of_uint.
      pose proof (DecimalPos.Unsigned.to_uint_nonnil p) as Hnn.
      destruct (Pos.to_uint p); [contradiction|reflexivity..].
    + apply DecimalPos.Unsigned.to_uint_nonnil.
    + rewrite DecimalPos.Unsigned.of_to. reflexivity.
Qed.

Lemma string_of_uint_nonempty (d : uint) :
  d <> Nil -> exists c t, NilEmpty.string_of_uint d = String c t.
Proof. destruct d; [contradiction|..]; intros _; simpl; eauto. Qed.

Lemma span_digits_toString (n : Z) (r : string) :
  0 <= n -> no_leading_digit r -> span_digits (toString n +:+ r) = (toString n, r).
Proof.
  intros Hn Hr. destruct (toString_nonneg n Hn) as (d & -> & _ & _).
  apply span_digits_uint, Hr.
Qed.

Lemma toString_nonempty (n : Z) : 0 <= n -> exists c t, toString n = String c t.
Proof.
  intros Hn. destruct (toString_nonneg n Hn) as (d & -> & Hd & _).
  apply string_of_uint_nonempty, Hd.
Qed.

(** Printing then parsing gives the number back. *)
Lemma parseInt_toString (n : Z) : 0 <= n -> parseInt (toString n) = Some n.
Proof.
  intros Hn. unfold parseInt.
  pose proof (span_digits_toString n EmptyString Hn I) as Hs.
  rewrite append_empty_r in Hs. rewrite Hs. simpl.
  destruct (toString_nonneg n Hn) as (d & Hd & Hnn & Hv). rewrite Hd.
  destruct (string_of_uint_nonempty d Hnn) as (c & t & Ht).
  destruct (NilEmpty.string_of_uint d) as [|c' t'] eqn:E; [discriminate|].
  change (Some (parse_digits (String c' t') 0) = Some n).
  rewrite <- E, parse_digits_uint, Hv. reflexivity.
Qed.

End JsFacts.

(** ** The range parser *)

Module RangeFacts.
Import Js JsFacts Stream StreamSpec.

Lemma span_digits_idem (s : string) :
  span_digits (fst (span_digits s)) = (fst (span_digits s), EmptyString).
Proof.
  induction s as [|c t IH]; simpl; [reflexivity|].
  destruct (is_digit c) eqn:Hc; [|reflexivity].
  destruct (span_digits t) as [d r]. simpl in *. rewrite Hc, IH. reflexivity.
Qed.

(** A non-empty run of digits always parses: the [isNaN] tests of
    [parseRange] never fire on what the pattern captured. *)
Lemma parseInt_digits (s : string) (c : ascii) (g : string) :
  fst (span_digits s) = String c g ->
  parseInt (String c g) = Some (parse_digits (String c g) 0).
Proof.
  intros H. unfold parseInt. rewrite <- H, span_digits_idem. simpl.
  rewrite H. reflexivity.
Qed.

Lemma match_here_groups (s g1 g2 : string) :
  match_here s = Some (g1, g2) ->
  (exists r c g, fst (span_digits r) = String c g /\ g1 = String c g)
  /\ exists r, g2 = fst (span_digits r).
Proof.
  unfold match_here. destruct (strip_prefix "bytes=" s) as [r|]; [|discriminate].
  destruct (span_digits r) as [d r1] eqn:Hd.
  destruct d as [|c g]; [discriminate|].
  destruct r1 as [|c1 r2]; [discriminate|].
  destruct (Ascii.eqb_spec c1 "-"%char) as [->|Hne].
  - intros [= <- <-]. split.
    + exists r, c, g; rewrite ?Hd; auto.
    + exists r2. reflexivity.
  - intros H. exfalso.
    destruct c1 as [[] [] [] [] [] [] [] []]; try discriminate H. congruence.
Qed.

Lemma regex_match_groups (s g1 g2 : string) :
  regex_match s = Some (g1, g2) ->
  (exists r c g, fst (span_digits r) = String c g /\ g1 = String c g)
  /\ exists r, g2 = fst (span_digits r).
Proof.
  induction s as [|c t IH]; simpl.
  - discriminate.
  - destruct (match_here (String c t)) as [[a b]|] eqn:E.
    + intros [= <- <-]. eapply match_here_groups, E.
    + apply IH.
Qed.

(** [parseRange] in terms of the captured numbers. *)
Lemma parseRange_captured (h : string) (fileSize : Z) :
  parseRange (Some h) fileSize =
  match captured h with
  | None => None
  | Some (start, end_) =>
      let end_ := default (fileSize - 1) end_ in
      if (start >? end_) || (start <? 0) || (end_ >=? fileSize) then None
      else Some (mkRange start end_ (end_ - start + 1))
  end.
Proof.
  unfold parseRange, captured.
  destruct h as [|c0 h0].
  - reflexivity.
  - cbn [truthy].
    destruct (regex_match (String c0 h0)) as [[g1 g2]|] eqn:E; [|reflexivity].
    destruct (regex_match_groups _ _ _ E) as [(r & c & g & Hg & ->) [r2 ->]].
    rewrite (parseInt_digits r c g Hg).
    destruct (fst (span_digits r2)) as [|c2 g2] eqn:Hg2.
    + cbn [from_option]; unfold id.
      destruct ((parse_digits (String c g) 0 >? fileSize - 1)
                || (parse_digits (String c g) 0 <? 0)
                || (fileSize - 1 >=? fileSize)) eqn:Hb; [reflexivity|].
      rewrite Z.min_id. reflexivity.
    + rewrite (parseInt_digits r2 c2 g2 Hg2). cbn [from_option]; unfold id.
      destruct ((parse_digits (String c g) 0 >? parse_digits (String c2 g2) 0)
                || (parse_digits (String c g) 0 <? 0)
                || (parse_digits (String c2 g2) 0 >=? fileSize)) eqn:Hb; [reflexivity|].
      rewrite Z.min_l; [reflexivity|].
      apply orb_false_iff in Hb as [_ Hb]. lia.
Qed.

Lemma regex_match_head (s : string) (m : string * string) :
  match_here s = Some m -> regex_match s = Some m.
Proof. intros H. destruct s; cbn [regex_match]; rewrite H; reflexivity. Qed.


Lemma strip_prefix_Some (p s r : string) : strip_prefix p s = Some r -> s = p +:+ r.
Proof.
  revert s. induction p as [|a p IH]; intros s H.
  - injection H as ->. reflexivity.
  - destruct s as [|b s]; [discriminate|]. cbn [strip_prefix] in H.
    destruct (Ascii.eqb_spec a b) as [->|]; [|discriminate].
    change (String b s = String b (p +:+ r)). f_equal. apply IH, H.
Qed.

Lemma strip_prefix_append (p r : string) : strip_prefix p (p +:+ r) = Some r.
Proof.
  induction p as [|a p IH]; [reflexivity|].
  change (String a p +:+ r) with (String a (p +:+ r)). cbn [strip_prefix].
  rewrite Ascii.eqb_refl. exact IH.
Qed.

(** What a greedy run of digits splits a string into. *)
Lemma span_digits_split (s d r : string) :
  span_digits s = (d, r) -> s = d +:+ r /\ digits d = true /\ no_leading_digit r.
Proof.
  revert d r. induction s as [|c t IH]; intros d r H; cbn [span_digits] in H.
  - injection H as <- <-. repeat split.
  - destruct (is_digit c) eqn:Hc.
    + destruct (span_digits t) as [d' r'] eqn:E. injection H as <- <-.
      destruct (IH d' r' eq_refl) as (-> & Hd & Hr).
      split; [reflexivity|]. split; [|exact Hr]. cbn [digits]. rewrite Hc, Hd. reflexivity.
    + injection H as <- <-. split; [reflexivity|]. split; [reflexivity|exact Hc].
Qed.

Lemma span_digits_append (d r : string) :
  digits d = true -> no_leading_digit r -> span_digits (d +:+ r) = (d, r).
Proof.
  intros Hd Hr. induction d as [|c d IH].
  - apply span_digits_stop, Hr.
  - cbn [digits] in Hd. apply andb_true_iff in Hd as [Hc Hd].
    change (String c d +:+ r) with (String c (d +:+ r)). cbn [span_digits].
    rewrite Hc, (IH Hd). reflexivity.
Qed.

(** [form] computes the form the specification words. *)
Lemma form_hasForm (h g1 g2 : string) : form h = Some (g1, g2) <-> hasForm h g1 g2.
Proof.
  unfold form, hasForm. split.
  - destruct (strip_prefix "bytes=" h) as [r|] eqn:Hp; [|discriminate].
    apply strip_prefix_Some in Hp.
    destruct (span_digits r) as [d r1] eqn:Hd.
    destruct d as [|c d]; [discriminate|].
    destruct r1 as [|c1 r2]; [discriminate|].
    destruct (Ascii.eqb_spec c1 "-"%char) as [->|Hne].
    2:{ intros H. exfalso.
        destruct c1 as [[] [] [] [] [] [] [] []]; try discriminate H. congruence. }
    destruct (span_digits r2) as [d2 r3] eqn:Hd2.
    destruct r3; [|discriminate]. intros [= <- <-].
    destruct (span_digits_split _ _ _ Hd) as (-> & Hg1 & _).
    destruct (span_digits_split _ _ _ Hd2) as (-> & Hg2 & _).
    rewrite append_empty_r in Hp. split; [exact Hp|]. split; [discriminate|]. split; trivial.
  - intros (-> & Hne & Hg1 & Hg2).
    rewrite strip_prefix_append, (span_digits_append g1 ("-" +:+ g2) Hg1 eq_refl).
    destruct g1 as [|c g1]; [contradiction|].
    change ("-" +:+ g2) with (String "-"%char g2). cbv iota beta.
    pose proof (span_digits_append g2 EmptyString Hg2 I) as H.
    rewrite append_empty_r in H. rewrite H. reflexivity.
Qed.







Lemma match_here_header (start : Z) (end_ : option Z) :
  0 <= start -> (forall e, end_ = Some e -> 0 <= e) ->
  match_here (rangeHeaderOf start end_) =
  Some (toString start, match end_ with Some e => toString e | None => EmptyString end).
Proof.
  intros Hs He. unfold rangeHeaderOf, match_here.
  change (strip_prefix "bytes=" ("bytes=" +:+ ?x)) with (Some x). cbv beta iota.
  rewrite span_digits_toString by (trivial; reflexivity).
  destruct (toString_nonempty start Hs) as (c & g & Hc). rewrite Hc.
  change ("-" +:+ ?x) with (String "-"%char x). cbv iota beta.
  destruct end_ as [e|]; [|reflexivity].
  pose proof (span_digits_toString e EmptyString (He e eq_refl) I) as H.
  rewrite append_empty_r in H. rewrite H. reflexivity.
Qed.

(** A header in the canonical form is captured as written. *)
Lemma captured_header (start : Z) (end_ : option Z) :
  0 <= start -> (forall e, end_ = Some e -> 0 <= e) ->
  captured (rangeHeaderOf start end_) = Some (start, end_).
Proof.
  intros Hs He. unfold captured.
  rewrite (regex_match_head _ _ (match_here_header start end_ Hs He)).
  pose proof (parseInt_toString start Hs) as Hp. unfold parseInt in Hp.
  pose proof (span_digits_toString start EmptyString Hs I) as Hsp.
  rewrite append_empty_r in Hsp. rewrite Hsp in Hp. cbn [fst] in Hp.
  destruct (toString_nonempty start Hs) as (c & g & Hc).
  assert (parse_digits (toString start) 0 = start) as ->.
  { rewrite Hc in Hp |- *. congruence. }
  destruct end_ as [e|]; [|reflexivity].
  specialize (He e eq_refl).
  pose proof (parseInt_toString e He) as Hpe. unfold parseInt in Hpe.
  pose proof (span_digits_toString e EmptyString He I) as Hspe.
  rewrite append_empty_r in Hspe. rewrite Hspe in Hpe. cbn [fst] in Hpe.
  destruct (toString_nonempty e He) as (ce & ge & Hce).
  rewrite Hce in Hpe |- *. congruence.
Qed.


(** A valid range is parsed to itself. *)
Lemma parseRange_valid (start : Z) (end_ : option Z) (fileSize : Z) :
  let last := default (fileSize - 1) end_ in
  0 <= start -> start <= last -> last < fileSize ->
  parseRange (Some (rangeHeaderOf start end_)) fileSize
  = Some (mkRange start last (last - start + 1)).
Proof.
  intros last Hs Hle Hlt. rewrite parseRange_captured, captured_header; trivial.
  - cbn zeta. fold last.
    replace ((start >? last) || (start <? 0) || (last >=? fileSize)) with false; [reflexivity|].
    symmetry. apply orb_false_iff. split; [apply orb_false_iff; split|]; lia.
  - intros e ->. simpl in last. lia.
Qed.

End RangeFacts.

(** ** The streaming responder *)

Module StreamFacts.
Import Js JsFacts Stream StreamSpec RangeFacts.

Section WithLibraries.

Variable jwt_verify : string -> option Decoded.
Variable extname : string -> string.
Variable isObjectId : string -> bool.

Lemma streamVideo_serves db fs req video path content :
  serves jwt_verify isObjectId db fs req video path content ->
  streamVideo jwt_verify extname isObjectId db fs req = respond extname video path content (range req).
Proof.
  intros ((decoded & Hv & Hf) & Hu & Hp & Hsel & Hfs).
  unfold streamVideo, streamVideo_body, respond.
  rewrite Hv, Hf.
  rewrite (bool_decide_eq_false_2 _ Hu), (bool_decide_eq_false_2 _ Hp). cbn [orb].
  rewrite Hsel. unfold statSize, readFile. rewrite Hfs. cbn [from_option]. unfold id.
  destruct (parseRange (range req) (Z.of_nat (length content))); reflexivity.
Qed.

(** What the lookup returns, case by case. *)
Lemma findOneTenant_Some db tenant id video :
  findOneTenant isObjectId db tenant id = inr (Some video) ->
  tenant <> EmptyString /\ isObjectId id = true
  /\ db !! id = Some video /\ tenantId video = tenant.
Proof.
  unfold findOneTenant. destruct tenant as [|c t]; [discriminate|].
  destruct (isObjectId id); [|discriminate].
  destruct (db !! id) as [v|]; [|discriminate].
  destruct (decide (tenantId v = String c t)); [|discriminate].
  intros [= <-]. repeat split; trivial. discriminate.
Qed.

Lemma findOneTenant_inl db tenant id e :
  findOneTenant isObjectId db tenant id = inl e ->
  tenant = EmptyString /\ e = PlainError "tenantId is required for tenant filtering"
  \/ tenant <> EmptyString /\ isObjectId id = false /\ e = CastError id.
Proof.
  unfold findOneTenant. destruct tenant as [|c t].
  - intros [= <-]. left. split; reflexivity.
  - destruct (isObjectId id); [discriminate|]. intros [= <-].
    right. repeat split; trivial. discriminate.
Qed.

Lemma findOneTenant_found db tenant id video :
  tenant <> EmptyString -> isObjectId id = true ->
  db !! id = Some video -> tenantId video = tenant ->
  findOneTenant isObjectId db tenant id = inr (Some video).
Proof.
  intros Ht Hid Hdb Hv. unfold findOneTenant. destruct tenant as [|c t]; [contradiction|].
  rewrite Hid, Hdb. rewrite decide_True by exact Hv. reflexivity.
Qed.

(** The inclusive span [start..last] of a file: its length, and its
    bytes one by one. *)
Lemma readSpan_spec (content : list Byte.byte) (start last : Z) :
  0 <= start -> start <= last -> last < Z.of_nat (length content) ->
  Z.of_nat (length (readSpan content start last)) = last - start + 1
  /\ forall i, 0 <= i <= last - start ->
       readSpan content start last !! Z.to_nat i = content !! Z.to_nat (start + i).
Proof.
  intros Hs Hle Hlt. unfold readSpan. split.
  - rewrite length_take, length_drop. lia.
  - intros i Hi. rewrite lookup_take_lt by lia. rewrite lookup_drop.
    f_equal. lia.
Qed.

(** Without a token nothing is decoded. *)
Lemma verifyToken_none (req : Request) :
  query_token req = None -> authorization req = None ->
  verifyToken jwt_verify req = None.
Proof. intros Hq Ha. unfold verifyToken. rewrite Hq, Ha. reflexivity. Qed.

(** Whatever the request, a record that is not ready is never streamed. *)
Lemma streamVideo_not_ready_no_bytes db fs req video :
  db !! videoId req = Some video ->
  status video = uploaded \/ status video = processing ->
  forall bytes, res_body (streamVideo jwt_verify extname isObjectId db fs req) <> BodyBytes bytes.
Proof.
  intros Hdb Hst bytes. unfold streamVideo, streamVideo_body.
  destruct (verifyToken jwt_verify req) as [decoded|]; [|discriminate].
  unfold findOneTenant.
  destruct (tok_tenantId decoded) as [|c t]; [discriminate|].
  destruct (isObjectId (videoId req)); [|discriminate]. rewrite Hdb.
  destruct (decide (tenantId video = String c t)); [|discriminate].
  replace (bool_decide (status video = uploaded) || bool_decide (status video = processing))
    with true; [discriminate|].
  symmetry. destruct Hst as [-> | ->]; reflexivity.
Qed.

Lemma streamVideo_not_ready db fs req video :
  resolves jwt_verify isObjectId db req video ->
  status video = uploaded \/ status video = processing ->
  streamVideo jwt_verify extname isObjectId db fs req
  = errorHandler (ForbiddenError "Video is not ready for streaming").
Proof.
  intros (decoded & Hv & Hf) Hst. unfold streamVideo, streamVideo_body.
  rewrite Hv, Hf.
  replace (bool_decide (status video = uploaded) || bool_decide (status video = processing))
    with true; [reflexivity|].
  symmetry. destruct Hst as [-> | ->]; reflexivity.
Qed.

(** Without a derivative on record, the file selected is the original. *)
Lemma selectFile_original (fs : Fs) (video : Video) (content : list Byte.byte) :
  truthy (processedFilePath video) = None ->
  fs !! originalFilePath video = Some content ->
  originalFilePath video <> EmptyString ->
  selectFile fs video = Some (originalFilePath video).
Proof.
  intros Hp Hfs Hne. unfold selectFile, or_else. rewrite Hp.
  destruct (originalFilePath video) as [|c t] eqn:E; [contradiction|].
  cbn [truthy]. unfold existsSync. rewrite Hfs.
  rewrite bool_decide_eq_true_2 by eauto. reflexivity.
Qed.

(** C2.  A request that reaches the file and carries the range header
    [bytes=start-end] with [0 <= start <= end < fileSize] (the end may be
    left out and is then the last byte) is answered with status 206,
    [Content-Range: bytes start-end/fileSize],
    [Content-Length: end-start+1], [Accept-Ranges: bytes], and a body
    that is exactly the bytes [start..end] of the file, as many as the
    declared length. *)
Theorem C2_valid_range_partial_content db fs req video path content
    (start : Z) (end_ : option Z) :
  let fileSize := Z.of_nat (length content) in
  let last := default (fileSize - 1) end_ in
  serves jwt_verify isObjectId db fs req video path content ->
  range req = Some (rangeHeaderOf start end_) ->
  0 <= start -> start <= last -> last < fileSize ->
  let res := streamVideo jwt_verify extname isObjectId db fs req in
  res_status res = 206
  /\ res_headers res !! "Content-Range"
     = Some ("bytes " +:+ toString start +:+ "-" +:+ toString last +:+ "/" +:+ toString fileSize)
  /\ res_headers res !! "Content-Length" = Some (toString (last - start + 1))
  /\ res_headers res !! "Accept-Ranges" = Some "bytes"
  /\ exists body,
       res_body res = BodyBytes body
       /\ Z.of_nat (length body) = last - start + 1
       /\ forall i, 0 <= i <= last - start ->
            body !! Z.to_nat i = content !! Z.to_nat (start + i).
Proof.
  intros fileSize last Hserves Hrange Hs Hle Hlt res.
  subst res. rewrite (streamVideo_serves _ _ _ _ _ _ Hserves), Hrange.
  unfold respond. fold fileSize.
  rewrite (parseRange_valid start end_ fileSize Hs Hle Hlt). fold last.
  cbn [res_status res_headers res_body Stream.start Stream.end_ chunkSize].
  split; [reflexivity|]. split; [apply lookup_insert_eq|].
  split; [rewrite lookup_insert_ne by done; apply lookup_insert_eq|].
  split; [do 2 (rewrite lookup_insert_ne by done); apply lookup_insert_eq|].
  exists (readSpan content start last). split; [reflexivity|].
  apply readSpan_spec; trivial.
Qed.


(** C7 (as amended).  For a record whose status is [uploaded] or
    [processing]: no request for it, whatever its credentials and range
    header, is answered with bytes of the file; and every request that
    authenticates within the record's tenant is answered with the "not
    ready" error (status 403), whatever the user, the role and the range
    header. *)
Theorem C7_not_ready_never_streams db fs req video :
  db !! videoId req = Some video ->
  status video = uploaded \/ status video = processing ->
  let res := streamVideo jwt_verify extname isObjectId db fs req in
  (forall bytes, res_body res <> BodyBytes bytes)
  /\ (resolves jwt_verify isObjectId db req video ->
      res = errorHandler (ForbiddenError "Video is not ready for streaming")
      /\ res_status res = 403).
Proof.
  intros Hdb Hst res. split.
  - apply (streamVideo_not_ready_no_bytes db fs req video Hdb Hst).
  - intros Hres. subst res. rewrite (streamVideo_not_ready _ _ _ _ Hres Hst).
    split; reflexivity.
Qed.


End WithLibraries.

End StreamFacts.

(** ** The sensitivity scorer *)

Module ScorerFacts.
Import Sensitivity ScorerSpec.

Local Open Scope Q_scope.

Lemma gt_true (a b : Q) : gt a b = true <-> b < a.
Proof.
  unfold gt. rewrite negb_true_iff, <- not_true_iff_false, Qle_bool_iff.
  split; [apply Qnot_le_lt | apply Qlt_not_le].
Qed.


Lemma lt_true (a b : Q) : lt a b = true <-> a < b.
Proof. apply (gt_true b a). Qed.

#[global] Instance gt_proper : Proper (Qeq ==> Qeq ==> eq) gt.
Proof. intros a a' Ha b b' Hb. unfold gt. rewrite Ha, Hb. reflexivity. Qed.











(** With frames on disk the result is the classification of the frames
    that could be analysed. *)
Lemma processSensitivityCheck_frames (E : Engine) (framePaths : list string) :
  mkdirError E = None -> extractFrames E = inr framePaths -> framePaths <> [] ->
  fst (processSensitivityCheck E) = classify (analyzeFrames E framePaths 0).
Proof.
  intros Hm He Hne. unfold processSensitivityCheck. rewrite Hm, He.
  destruct framePaths; [contradiction|reflexivity].
Qed.



End ScorerFacts.

(** ** The scorer in binary64 *)

Module Scorer64Facts.
Import PrimFloat FloatOps FloatAxioms SpecFloat Sensitivity64 ScorerSpec64.

#[local] Set Warnings "-inexact-float".
Local Open Scope float_scope.

(** *** Facts of binary64 arithmetic, from the specification of the
    primitive operations *)

Lemma compare_cont_Eq (a b : positive) :
  PosDef.Pos.compare_cont Eq a b = (a ?= b)%positive.
Proof. reflexivity. Qed.

(** A number is NaN exactly when its specification is. *)
Lemma is_nan_spec (x : float) :
  is_nan x = match Prim2SF x with S754_nan => true | _ => false end.
Proof.
  unfold is_nan. rewrite eqb_spec. unfold SFeqb, SFcompare.
  destruct (Prim2SF x) as [s|s| |s m e]; try reflexivity.
  - destruct s; reflexivity.
  - destruct s; rewrite Z.compare_refl, compare_cont_Eq, Pos.compare_refl; reflexivity.
Qed.

Lemma nan_unique (x : float) : Prim2SF x = S754_nan -> x = nan.
Proof. intros H. apply Prim2SF_inj. rewrite H. vm_compute. reflexivity. Qed.

Lemma Prim2SF_one : Prim2SF 1 = S754_finite false 4503599627370496 (-52).
Proof. vm_compute. reflexivity. Qed.

Lemma Prim2SF_threshold : Prim2SF 0.6 = S754_finite false 5404319552844595 (-53).
Proof. vm_compute. reflexivity. Qed.

(** Rounded multiplication is commutative. *)
Lemma mul_comm (x y : float) : x * y = y * x.
Proof.
  apply Prim2SF_inj. rewrite !mul_spec. unfold SF64mul, SFmul.
  destruct (Prim2SF x) as [sx|sx| |sx mx ex], (Prim2SF y) as [sy|sy| |sy my ey];
    try reflexivity; rewrite ?(xorb_comm sx sy); try reflexivity.
  rewrite (Pos.mul_comm mx my), (Z.add_comm ex ey). reflexivity.
Qed.

(** [Math.min(x, 1)] caps [x] at 1. *)
Lemma Math_min_capped (x : float) : Math_min x 1 = capped x.
Proof.
  unfold Math_min, capped. rewrite (is_nan_spec x), !ltb_spec, Prim2SF_one.
  replace (is_nan 1) with false by (vm_compute; reflexivity). rewrite orb_false_r.
  destruct (Prim2SF x) as [s|s| |s m e] eqn:Hx.
  - reflexivity.
  - destruct s; reflexivity.
  - cbn. symmetry. apply nan_unique, Hx.
  - unfold SFltb, SFcompare. destruct s; [reflexivity|].
    rewrite (Z.compare_antisym e (-52)).
    rewrite (compare_cont_Eq m 4503599627370496), (compare_cont_Eq 4503599627370496 m).
    rewrite (Pos.compare_antisym m 4503599627370496).
    destruct (Z.compare_spec e (-52)) as [He|He|He]; cbn [CompOpp]; try reflexivity.
    destruct (Pos.compare_spec m 4503599627370496) as [Hm|Hm|Hm]; cbn [CompOpp]; try reflexivity.
    subst e m. assert (x = 1) as -> by (apply Prim2SF_inj; rewrite Hx, Prim2SF_one; reflexivity).
    vm_compute. reflexivity.
Qed.

Lemma zero_div (y : float) : zero_or_nan (Prim2SF (0 / y)).
Proof.
  rewrite div_spec. replace (Prim2SF 0) with (S754_zero false) by (vm_compute; reflexivity).
  unfold SF64div, SFdiv. destruct (Prim2SF y); exact I.
Qed.

Lemma zero_mul (z : float) : zero_or_nan (Prim2SF z) -> zero_or_nan (Prim2SF (0.3 * z)).
Proof.
  rewrite mul_spec.
  replace (Prim2SF 0.3) with (S754_finite false 5404319552844595 (-54))
    by (vm_compute; reflexivity).
  unfold SF64mul, SFmul. destruct (Prim2SF z); intros H; try destruct H; exact I.
Qed.

(** Adding such a value to a number at most [c] gives NaN or a number at
    most [c]. *)
Lemma add_zero_le (x z c : float) :
  zero_or_nan (Prim2SF z) -> (x <=? c) = true ->
  Prim2SF (x + z) = S754_nan \/ (x + z <=? c) = true.
Proof.
  intros Hz. rewrite !leb_spec, add_spec. unfold SF64add, SFadd.
  destruct (Prim2SF z) as [sz|sz| |sz mz ez]; try destruct Hz.
  - destruct (Prim2SF x) as [sx|sx| |sx mx ex]; auto.
    intros H. right. destruct sx, sz; exact H.
  - destruct (Prim2SF x); auto.
Qed.

(** A number at most 0.6, or NaN, is not above 0.6 once capped. *)
Lemma capped_not_above (w : float) :
  Prim2SF w = S754_nan \/ (w <=? 0.6) = true -> (0.6 <? capped w) = false.
Proof.
  intros H.
  assert (H1 : (1 <? w) = false /\ (0.6 <? w) = false).
  { rewrite !ltb_spec, Prim2SF_one, Prim2SF_threshold.
    destruct H as [Hn|Hle]; [rewrite Hn; split; reflexivity|].
    revert Hle. rewrite leb_spec, Prim2SF_threshold. unfold SFleb, SFltb, SFcompare.
    destruct (Prim2SF w) as [s|s| |s m e]; try (destruct s; auto; discriminate); auto.
    destruct s; [auto|].
    rewrite (Z.compare_antisym e (-52)), (Z.compare_antisym e (-53)).
    rewrite (compare_cont_Eq m 5404319552844595), (compare_cont_Eq 5404319552844595 m).
    rewrite (Pos.compare_antisym m 5404319552844595).
    destruct (Z.compare_spec e (-53)) as [He|He|He];
      destruct (Z.compare_spec e (-52)) as [He'|He'|He']; cbn [CompOpp];
      try lia; try discriminate; auto.
    destruct (Pos.compare m 5404319552844595); cbn [CompOpp]; auto; discriminate. }
  unfold capped. destruct H1 as [-> H2]. exact H2.
Qed.

(** *** The scorer *)

(** The score of a frame is the specification's formula, evaluated in
    binary64. *)
Lemma frameScore64_spec (a : FrameAnalysis) : frameScore a = per_frame a.
Proof.
  unfold frameScore, per_frame, lt, gt, BRIGHTNESS_MIN, BRIGHTNESS_MAX.
  rewrite (mul_comm 0.7 (skinTone a)).
  destruct ((brightness a <? 0.2) || (0.9 <? brightness a)), (0.4 <? skinTone a);
    reflexivity.
Qed.

(** So is the score recomputed when the flagged frames are counted. *)
Lemma filterScore64_spec (a : FrameAnalysis) : filterScore a = per_frame a.
Proof.
  unfold filterScore, per_frame, lt, gt, BRIGHTNESS_MIN, BRIGHTNESS_MAX.
  rewrite (mul_comm 0.7 (skinTone a)). reflexivity.
Qed.

(** The two accumulators of the loop, for any starting values. *)
Lemma fold_accumulate64 (l : list FrameAnalysis) (total : float) (count : Z) :
  fold_left accumulate l (total, count)
  = (fold_left add (List.map per_frame l) total,
     (count + Z.of_nat (length (exceeding l)))%Z).
Proof.
  revert total count. induction l as [|a l IH]; intros total count.
  - cbn. f_equal. lia.
  - cbn [fold_left accumulate List.map]. rewrite IH, frameScore64_spec. f_equal.
    unfold exceeding, gt. cbn [List.filter].
    destruct (0.5 <? per_frame a); cbn [length]; lia.
Qed.

(** The overall score is the specification's formula, evaluated in
    binary64 with the sum taken in frame order. *)
Lemma calculateSensitivityScore64_spec (l : list FrameAnalysis) :
  l <> [] -> calculateSensitivityScore l = overall l.
Proof.
  intros Hne. unfold calculateSensitivityScore, overall, mean, fraction, sum, len.
  destruct l as [|a l]; [contradiction|].
  rewrite fold_accumulate64, Z.add_0_l, Math_min_capped.
  rewrite (mul_comm 0.3). reflexivity.
Qed.

Lemma classify_details64 (l : list FrameAnalysis) :
  details (classify l)
  = Sensitivity.Frames (Z.of_nat (length l)) (Z.of_nat (length (exceeding l))).
Proof.
  unfold classify, exceeding. cbn [details]. do 3 f_equal.
  apply List.filter_ext. intros a. rewrite filterScore64_spec. reflexivity.
Qed.

(** C1 (as amended).  For every list of frame analyses, in binary64
    arithmetic (each operation rounded, the frame scores summed in frame
    order): the score of a frame is 0.3 when its brightness is outside
    [0.2, 0.9], plus 0.7 x skinTone when skinTone > 0.4; the overall
    score is the mean frame score plus 0.3 x the fraction of frames
    scoring above 0.5, capped at 1; the result is flagged iff that
    computed score exceeds 0.6, its level is high above 0.8, medium above
    0.5 and low otherwise, its confidence is the score, and it counts the
    frames scoring above 0.5.  The scan returns this classification of
    the frames it analysed, and when no frame was sampled it returns the
    default: not flagged, level low, confidence 0. *)
Theorem C1_scorer_follows_specification (l : list FrameAnalysis) :
  (forall a, frameScore a = per_frame a)
  /\ (l <> [] ->
      calculateSensitivityScore l = overall l
      /\ (flagged (classify l) = true <-> (0.6 <? overall l) = true)
      /\ level (classify l) = level_of (overall l)
      /\ confidence (classify l) = overall l
      /\ details (classify l)
         = Sensitivity.Frames (Z.of_nat (length l)) (Z.of_nat (length (exceeding l))))
  /\ (forall E framePaths,
        mkdirError E = None -> extractFrames E = inr framePaths -> framePaths <> [] ->
        processSensitivityCheck E = classify (analyzeFrames E framePaths 0))
  /\ (forall E,
        mkdirError E = None -> extractFrames E = inr [] ->
        processSensitivityCheck E = noFrames)
  /\ flagged noFrames = false /\ level noFrames = low /\ confidence noFrames = 0.
Proof.
  split; [apply frameScore64_spec|]. split.
  { intros Hne. pose proof (calculateSensitivityScore64_spec l Hne) as Hs.
    split; [exact Hs|]. unfold classify, level_of, gt, FLAG_THRESHOLD.
    cbn [flagged level confidence]. rewrite Hs.
    split; [reflexivity|]. split; [reflexivity|]. split; [reflexivity|].
    apply classify_details64. }
  split.
  { intros E framePaths Hm He Hne. unfold processSensitivityCheck. rewrite Hm, He.
    destruct framePaths; [contradiction|reflexivity]. }
  split.
  { intros E Hm He. unfold processSensitivityCheck. rewrite Hm, He. reflexivity. }
  repeat split; reflexivity.
Qed.

(** Frames none of which scores above 0.5, in binary64: none is counted
    as flagged, by the score computation or in the result, and the
    result is not flagged whenever the mean frame score is at most 0.6. *)
Lemma no_frame_above_half64 (l : list FrameAnalysis) :
  l <> [] ->
  Forall (fun a => gt (frameScore a) 0.5 = false) l ->
  snd (fold_left accumulate l (0, 0%Z)) = 0%Z
  /\ details (classify l) = Sensitivity.Frames (Z.of_nat (length l)) 0
  /\ ((mean l <=? 0.6) = true -> flagged (classify l) = false).
Proof.
  intros Hne Hall.
  assert (Hex : exceeding l = []).
  { clear Hne. unfold exceeding. induction Hall as [|a l' Ha _ IH]; [reflexivity|].
    cbn [List.filter]. rewrite <- frameScore64_spec. unfold gt in Ha. rewrite Ha.
    apply IH. }
  split; [rewrite fold_accumulate64, Hex; reflexivity|].
  split; [rewrite classify_details64, Hex; reflexivity|].
  intros Hmean. unfold classify, gt, FLAG_THRESHOLD. cbn [flagged].
  rewrite (calculateSensitivityScore64_spec l Hne). unfold overall, fraction.
  rewrite Hex. cbn [length Z.of_nat].
  replace (of_count 0) with 0 by (vm_compute; reflexivity).
  apply capped_not_above, add_zero_le; [|exact Hmean].
  apply zero_mul, zero_div.
Qed.

End Scorer64Facts.

(** ** The transcode pipeline *)

Module PipelineFacts.
Import Pipeline PipelineSpec.

Lemma bind_inr {A B} (m : M A) (k : A -> M B) w a w1 :
  m w = (inr a, w1) -> (m ≫= k) w = k a w1.
Proof. intros H. unfold mbind, M_bind. rewrite H. reflexivity. Qed.

Lemma bind_inl {A B} (m : M A) (k : A -> M B) w e w1 :
  m w = (inl e, w1) -> (m ≫= k) w = (inl e, w1).
Proof. intros H. unfold mbind, M_bind. rewrite H. reflexivity. Qed.

Lemma bind_run {A B} (m : M A) (k : A -> M B) w res w1 :
  m w = (res, w1) ->
  (m ≫= k) w = match res with inl e => (inl e, w1) | inr a => k a w1 end.
Proof. intros H. unfold mbind, M_bind. rewrite H. reflexivity. Qed.

Ltac step := erewrite bind_inr by reflexivity; cbn [db fs reported timers].

Lemma forEach_callbacks {A} (skip : A -> bool) (h : A -> Z) (l : list A) d f r t :
  forEach (fun x => if skip x then mret () else progressCallback (h x)) l (mkWorld d f r t)
  = (inr (), mkWorld d f (r ++ List.map h (List.filter (fun x => negb (skip x)) l)) t).
Proof.
  revert r. induction l as [|x l IH]; intros r.
  - simpl. rewrite app_nil_r. reflexivity.
  - cbn [forEach List.filter]. unfold mbind, M_bind.
    destruct (skip x); cbn.
    + apply IH.
    + rewrite IH. rewrite <- app_assoc. reflexivity.
Qed.

Lemma forEach_reports {A} (h : A -> Z) (l : list A) d f r t :
  forEach (fun x => progressCallback (h x)) l (mkWorld d f r t)
  = (inr (), mkWorld d f (r ++ List.map h l) t).
Proof.
  revert r. induction l as [|x l IH]; intros r.
  - simpl. rewrite app_nil_r. reflexivity.
  - cbn [forEach]. unfold mbind, M_bind. cbn. rewrite IH, <- app_assoc. reflexivity.
Qed.

Lemma transcodeVideo_run (E : Engine) (out : string) (h : Q -> Z) d f r t :
  transcodeVideo E out (fun p => progressCallback (h p)) (mkWorld d f r t)
  = (match transcodeError E with Some m => inl m | None => inr () end,
     mkWorld d (written out (transcodeOutput E) f)
             (r ++ List.map h (List.filter (fun p => negb (Qeq_bool p 0)) (transcodeProgress E)))
             t).
Proof.
  unfold transcodeVideo.
  erewrite bind_inr by apply forEach_callbacks.
  unfold written.
  destruct (transcodeOutput E), (transcodeError E); reflexivity.
Qed.

Lemma generateThumbnail_run (E : Engine) (out : string) (h : Q -> Z) d f r t :
  generateThumbnail E out (fun p => progressCallback (h p)) (mkWorld d f r t)
  = (match thumbnailError E with Some m => inl m | None => inr () end,
     mkWorld d (written out (thumbnailOutput E) f)
             (match thumbnailError E with Some _ => r | None => r ++ [h 100%Q] end) t).
Proof.
  unfold generateThumbnail, written.
  destruct (thumbnailOutput E), (thumbnailError E); reflexivity.
Qed.

Lemma cleanup_run (path : option string) d f r t :
  match Js.truthy path with
  | Some p => deleteFile p
  | None => mret ()
  end (mkWorld d f r t)
  = (inr (), mkWorld d (removed path f) r t).
Proof.
  unfold removed. destruct (Js.truthy path) as [p|] eqn:Hp; [|reflexivity].
  assert (p <> EmptyString) as Hne.
  { intros ->. destruct path as [[|c s]|]; discriminate. }
  unfold deleteFile. step.
  rewrite (bool_decide_eq_false_2 _ Hne). cbn [orb].
  destruct (existsSync f p); reflexivity.
Qed.

(** *** Progress arithmetic *)













Section WithConfig.

Variable UPLOAD_PATH : string.
Variable extname : string -> string.

(** The [try] block, run. *)
Lemma processVideo_try_run E id d f r t :
  processVideo_try UPLOAD_PATH extname E id (mkWorld d f r t)
  = tryResult UPLOAD_PATH extname E id (mkWorld d f r t).
Proof.
  unfold processVideo_try, tryResult. cbn [db fs reported timers].
  step. unfold findById.
  destruct (d !! id) as [v|]; [|reflexivity].
  step.
  destruct (existsSync f (originalFilePath v)); cbn [negb]; [|reflexivity].
  step. step.
  destruct (mkdirError E) as [m|]; [reflexivity|].
  step.
  erewrite bind_run by apply (transcodeVideo_run E _ (fun p => 10 + scaled p 0.3)).
  destruct (transcodeError E) as [m|]; [reflexivity|].
  step.
  erewrite bind_run by apply (generateThumbnail_run E _ (fun p => 40 + scaled p 0.2)).
  destruct (thumbnailError E) as [m|].
  { repeat rewrite <- app_assoc. reflexivity. }
  step.
  unfold getVideoMetadata.
  destruct (metadata E) as [m|dur].
  { erewrite bind_inl by reflexivity. repeat rewrite <- app_assoc. reflexivity. }
  step. step. step. step.
  unfold scanReports, finalRecord.
  destruct (Sensitivity.processSensitivityCheck (scan E)) as [res scanProgress].
  erewrite bind_run by apply (forEach_reports (fun p => 70 + scaled (inject_Z p) 0.2)).
  cbn [fst snd].
  step. step. step. unfold mret, M_ret.
  repeat rewrite <- app_assoc. reflexivity.
Qed.

(** The [catch] block, run. *)
Lemma processVideo_catch_run id error d f r t :
  processVideo_catch id error (mkWorld d f r t)
  = (inl error, catchResult id (mkWorld d f r t)).
Proof.
  unfold processVideo_catch, catchResult. cbn [db fs reported timers].
  step. unfold findById.
  destruct (d !! id) as [v|] eqn:Hd.
  - step. step. unfold findById. rewrite lookup_insert_eq.
    erewrite bind_inr.
    2:{ erewrite bind_inr by apply cleanup_run. apply cleanup_run. }
    reflexivity.
  - step. step. unfold findById. rewrite Hd. step. reflexivity.
Qed.

(** The whole of [processVideo], run. *)
Lemma processVideo_run E id w :
  processVideo UPLOAD_PATH extname E id w
  = match tryResult UPLOAD_PATH extname E id w with
    | (inl error, w1) => (inl error, catchResult id w1)
    | completed => completed
    end.
Proof.
  destruct w as [d f r t]. unfold processVideo, try_catch.
  rewrite processVideo_try_run.
  destruct (tryResult UPLOAD_PATH extname E id (mkWorld d f r t)) as [[error|o] [d1 f1 r1 t1]];
    [apply processVideo_catch_run | reflexivity].
Qed.

Lemma append_cancel_l (p a b : string) : p +:+ a = p +:+ b -> a = b.
Proof. induction p as [|c p IH]; simpl; [auto|]. intros [= H]. auto. Qed.

(** The original of an uploaded record is neither the derivative nor the
    thumbnail a run writes. *)
Lemma original_not_generated (tenant id e0 e : string) :
  getOriginalFilePath UPLOAD_PATH tenant id e0 <> getProcessedFilePath UPLOAD_PATH tenant id e
  /\ getOriginalFilePath UPLOAD_PATH tenant id e0 <> getThumbnailPath UPLOAD_PATH tenant id e.
Proof.
  unfold getOriginalFilePath, getProcessedFilePath, getThumbnailPath, path_join.
  split; intros H;
    apply append_cancel_l in H; apply (append_cancel_l "/") in H;
    apply append_cancel_l in H; apply (append_cancel_l "/") in H;
    apply append_cancel_l in H; discriminate H.
Qed.

Lemma written_other (path other : string) (content : option (list Byte.byte)) (f : Fs) :
  path <> other -> written path content f !! other = f !! other.
Proof.
  intros H. unfold written. destruct content; [apply lookup_insert_ne, H|reflexivity].
Qed.

Lemma original_kept (v : Video) (id : string) (f : Fs) (c1 c2 : option (list Byte.byte)) :
  storedByUpload UPLOAD_PATH id v ->
  written (derivativePath UPLOAD_PATH extname v id) c1 f !! originalFilePath v
  = f !! originalFilePath v
  /\ written (thumbPath UPLOAD_PATH v id) c2
       (written (derivativePath UPLOAD_PATH extname v id) c1 f) !! originalFilePath v
     = f !! originalFilePath v.
Proof.
  intros [[e0 Ho] _]. unfold derivativePath, thumbPath.
  set (e := match getFileExtension extname (originalFilePath v) with
            | EmptyString => "mp4"
            | x => x
            end).
  destruct (original_not_generated (tenantId v) id e0 e) as [Hp _].
  destruct (original_not_generated (tenantId v) id e0 "jpg") as [_ Ht].
  rewrite <- Ho in Hp, Ht.
  assert (written (getProcessedFilePath UPLOAD_PATH (tenantId v) id e) c1 f
            !! originalFilePath v = f !! originalFilePath v) as H1
    by (apply written_other; congruence).
  split; [exact H1|].
  rewrite written_other by congruence. exact H1.
Qed.

(** The cleanup of a record without stored derivative and thumbnail only
    marks it failed. *)
Lemma catchResult_marks_failed id d1 f1 r1 t1 v1 :
  d1 !! id = Some v1 -> processedFilePath v1 = None -> thumbnailPath v1 = None ->
  catchResult id (mkWorld d1 f1 r1 t1)
  = mkWorld (<[id := set_status failed v1]> d1) f1 r1 t1.
Proof.
  intros Hd Hp Ht. unfold catchResult. cbn [db fs reported timers].
  rewrite Hd, Hp, Ht. reflexivity.
Qed.

Lemma catchResult_status id w v :
  db w !! id = Some v ->
  timers (catchResult id w) = timers w
  /\ exists v', db (catchResult id w) !! id = Some v' /\ status v' = failed.
Proof.
  intros Hd. unfold catchResult. rewrite Hd. cbn [db timers]. split; [reflexivity|].
  exists (set_status failed v). split; [apply lookup_insert_eq|reflexivity].
Qed.

(** The failing runs: where the [try] block stops, with which error, and
    in which world. *)
Lemma tryResult_failure E id w stage message :
  failure E id w = Some (stage, message) ->
  exists w1,
    tryResult UPLOAD_PATH extname E id w = (inl message, w1)
    /\ timers w1 = timers w
    /\ (forall v, db w !! id = Some v ->
          (exists v1, db w1 !! id = Some v1
                      /\ processedFilePath v1 = processedFilePath v
                      /\ thumbnailPath v1 = thumbnailPath v)
          /\ (storedByUpload UPLOAD_PATH id v ->
              fs w1 !! originalFilePath v = fs w !! originalFilePath v)).
Proof.
  unfold failure, tryResult. destruct w as [d f r t]. cbn [db fs reported timers].
  destruct (d !! id) as [v|] eqn:Hd.
  2:{ intros [= <- <-]. eexists. split; [reflexivity|]. split; [reflexivity|].
      intros v Hv. discriminate Hv. }
  destruct (existsSync f (originalFilePath v)); cbn [negb].
  2:{ intros [= <- <-]. eexists. split; [reflexivity|]. split; [reflexivity|].
      cbn [db fs]. intros v' [= <-]. split; [eauto|reflexivity]. }
  destruct (mkdirError E) as [m|].
  { intros [= <- <-]. eexists. split; [reflexivity|]. split; [reflexivity|].
    cbn [db fs]. intros v' [= <-]. split; [|reflexivity].
    eexists. split; [apply lookup_insert_eq|]. split; reflexivity. }
  destruct (transcodeError E) as [m|].
  { intros [= <- <-]. eexists. split; [reflexivity|]. split; [reflexivity|].
    cbn [db fs]. intros v' [= <-]. split.
    - eexists. split; [apply lookup_insert_eq|]. split; reflexivity.
    - intros Hu. apply (original_kept v id f _ None Hu). }
  destruct (thumbnailError E) as [m|].
  { intros [= <- <-]. eexists. split; [reflexivity|]. split; [reflexivity|].
    cbn [db fs]. intros v' [= <-]. split.
    - eexists. split; [apply lookup_insert_eq|]. split; reflexivity.
    - intros Hu. apply (original_kept v id f _ _ Hu). }
  destruct (metadata E) as [m|dur]; [|discriminate].
  intros [= <- <-]. eexists. split; [reflexivity|]. split; [reflexivity|].
  cbn [db fs]. intros v' [= <-]. split.
  - eexists. split; [apply lookup_insert_eq|]. split; reflexivity.
  - intros Hu. apply (original_kept v id f _ _ Hu).
Qed.

(** The runs that do not fail: the result and the world they leave. *)
Lemma tryResult_success E id w :
  failure E id w = None ->
  exists v dur,
    db w !! id = Some v /\ metadata E = inr dur
    /\ tryResult UPLOAD_PATH extname E id w
       = (inr (mkOutcome true (finalRecord UPLOAD_PATH extname E id v dur)
                         (fst (Sensitivity.processSensitivityCheck (scan E)))),
          mkWorld (<[id := finalRecord UPLOAD_PATH extname E id v dur]>
                     (<[id := set_duration (Qfloor dur)
                                (set_progress 0 (set_status processing v))]>
                        (<[id := set_progress 0 (set_status processing v)]> (db w))))
                  (written (thumbPath UPLOAD_PATH v id) (thumbnailOutput E)
                     (written (derivativePath UPLOAD_PATH extname v id) (transcodeOutput E)
                        (fs w)))
                  (reported w ++ successReports E)
                  (timers w ++ [id])).
Proof.
  unfold failure, tryResult. destruct w as [d f r t]. cbn [db fs reported timers].
  destruct (d !! id) as [v|]; [|discriminate].
  destruct (existsSync f (originalFilePath v)); cbn [negb]; [|discriminate].
  destruct (mkdirError E); [discriminate|].
  destruct (transcodeError E); [discriminate|].
  destruct (thumbnailError E); [discriminate|].
  destruct (metadata E) as [m|dur]; [discriminate|]. intros _.
  exists v, dur. split; [reflexivity|]. split; [reflexivity|].
  unfold successReports. do 2 f_equal. repeat rewrite <- app_assoc. reflexivity.
Qed.

Lemma finalRecord_status E id v dur :
  status (finalRecord UPLOAD_PATH extname E id v dur)
  = if Sensitivity.flagged (fst (Sensitivity.processSensitivityCheck (scan E)))
    then flagged else safe.
Proof.
  unfold finalRecord.
  destruct (Sensitivity.flagged (fst (Sensitivity.processSensitivityCheck (scan E))));
    reflexivity.
Qed.

(** A scan whose engine fails returns the safe default. *)
Lemma scan_failure_is_safe (S : Sensitivity.Engine) :
  (exists m, Sensitivity.mkdirError S = Some m)
  \/ (exists m, Sensitivity.extractFrames S = inl m) ->
  Sensitivity.flagged (fst (Sensitivity.processSensitivityCheck S)) = false
  /\ Sensitivity.level (fst (Sensitivity.processSensitivityCheck S)) = low.
Proof.
  unfold Sensitivity.processSensitivityCheck.
  intros [[m Hm]|[m Hm]]; rewrite Hm; [split; reflexivity|].
  destruct (Sensitivity.mkdirError S); split; reflexivity.
Qed.

(** C5 (as amended).  A run throws exactly when the record or the
    original file is missing or when making the directory, the
    transcode, the thumbnail or the metadata extraction throws.  Such a
    run aborts with that error: no promotion is scheduled, the record
    (when there is one) ends with status [failed], and the original file
    of a record stored by the upload handler is left as it was.  An error
    inside the sensitivity scan, a failure of the external engine
    included, never aborts the run: the scorer returns its safe default
    and the run completes with status [safe]. *)
Theorem C5_failure_aborts_marks_failed E id w :
  (forall stage message,
     failure E id w = Some (stage, message) ->
     exists w',
       processVideo UPLOAD_PATH extname E id w = (inl message, w')
       /\ timers w' = timers w
       /\ (forall v, db w !! id = Some v ->
             (exists v', db w' !! id = Some v' /\ status v' = failed)
             /\ (storedByUpload UPLOAD_PATH id v ->
                 fs w' !! originalFilePath v = fs w !! originalFilePath v)))
  /\ (failure E id w = None ->
      exists o w',
        processVideo UPLOAD_PATH extname E id w = (inr o, w')
        /\ db w' !! id = Some (video o)
        /\ (status (video o) = safe \/ status (video o) = flagged)
        /\ ((exists m, Sensitivity.mkdirError (scan E) = Some m)
             \/ (exists m, Sensitivity.extractFrames (scan E) = inl m) ->
            status (video o) = safe)).
Proof.
  split.
  - intros stage message Hfail.
    destruct (tryResult_failure E id w stage message Hfail) as (w1 & Htry & Ht & Hrec).
    exists (catchResult id w1). rewrite processVideo_run, Htry.
    split; [reflexivity|]. split.
    + destruct w1 as [d1 f1 r1 t1]. unfold catchResult. cbn [db timers] in *.
      destruct (d1 !! id); exact Ht.
    + intros v Hv. destruct (Hrec v Hv) as [(v1 & Hv1 & Hp & Hth) Horig]. split.
      * apply (catchResult_status id w1 v1 Hv1).
      * intros Hu. rewrite <- (Horig Hu).
        destruct Hu as (_ & Hpn & Htn). rewrite Hpn in Hp. rewrite Htn in Hth.
        destruct w1 as [d1 f1 r1 t1]. cbn [db] in Hv1.
        rewrite (catchResult_marks_failed id d1 f1 r1 t1 v1 Hv1 Hp Hth). reflexivity.
  - intros Hok. destruct (tryResult_success E id w Hok) as (v & dur & Hv & Hm & Htry).
    eexists. eexists. rewrite processVideo_run, Htry.
    split; [reflexivity|]. cbn [db video].
    split; [apply lookup_insert_eq|]. rewrite finalRecord_status. split.
    + destruct (Sensitivity.flagged _); auto.
    + intros Hscan. destruct (scan_failure_is_safe (scan E) Hscan) as [-> _]. reflexivity.
Qed.

(** A run that returns did not fail anywhere. *)
Lemma processVideo_completes E id w o w' :
  processVideo UPLOAD_PATH extname E id w = (inr o, w') ->
  failure E id w = None
  /\ reported w' = reported w ++ successReports E
  /\ timers w' = timers w ++ [id].
Proof.
  intros Hrun. destruct (failure E id w) as [[stage message]|] eqn:Hf.
  - destruct (tryResult_failure E id w stage message Hf) as (w1 & Htry & _).
    rewrite processVideo_run, Htry in Hrun. discriminate.
  - split; [reflexivity|].
    destruct (tryResult_success E id w Hf) as (v & dur & _ & _ & Htry).
    rewrite processVideo_run, Htry in Hrun. injection Hrun as _ <-.
    split; reflexivity.
Qed.


(** C9.  A run that completes schedules the promotion of its record.
    When that timer fires, whatever happened to the store in between,
    the callback reads the record again: it stores [ready] when the
    status it reads is [safe] or [flagged]; it changes the store in no
    other case, so a record that has meanwhile become [failed] keeps its
    status; and it touches neither another record nor a file. *)
Theorem C9_promotion_rechecks_status id w :
  (forall E w0 o w1,
     processVideo UPLOAD_PATH extname E id w0 = (inr o, w1) ->
     timers w1 = timers w0 ++ [id])
  /\ (forall rest,
        timers w = id :: rest ->
        fireTimer w = Some (promote id (mkWorld (db w) (fs w) (reported w) rest)))
  /\ (forall v,
        db w !! id = Some v -> status v = safe \/ status v = flagged ->
        db (promote id w) = <[id := set_status ready v]> (db w))
  /\ (db (promote id w) <> db w ->
      exists v, db w !! id = Some v /\ (status v = safe \/ status v = flagged))
  /\ (forall v, db w !! id = Some v -> status v = failed -> promote id w = w)
  /\ fs (promote id w) = fs w.
Proof.
  split.
  { intros E w0 o w1 Hrun. apply (processVideo_completes E id w0 o w1 Hrun). }
  split.
  { intros rest Ht. unfold fireTimer. rewrite Ht. reflexivity. }
  unfold promote, findById. split; [|split; [|split]].
  - intros v Hv Hst. rewrite Hv.
    replace (bool_decide (status v = safe) || bool_decide (status v = flagged)) with true;
      [reflexivity|].
    symmetry. destruct Hst as [-> | ->]; reflexivity.
  - destruct (db w !! id) as [v|]; [|congruence].
    destruct (bool_decide (status v = safe) || bool_decide (status v = flagged)) eqn:Hb;
      [|congruence].
    intros _. exists v. split; [reflexivity|].
    apply orb_true_iff in Hb as [Hb|Hb]; apply bool_decide_eq_true in Hb; auto.
  - intros v Hv Hst. rewrite Hv, Hst. reflexivity.
  - destruct (db w !! id) as [v|]; [|reflexivity].
    destruct (bool_decide (status v = safe) || bool_decide (status v = flagged)); reflexivity.
Qed.

End WithConfig.

End PipelineFacts.

(** ** The job queue *)

Module QueueFacts.
Import Queue QueueSpec.

Lemma started_app (t u : list Event) : started (t ++ u) = started t ++ started u.
Proof.
  induction t as [|[job|job ok] t IH]; cbn [app started]; [reflexivity| |exact IH].
  rewrite IH. reflexivity.
Qed.

Lemma finished_app (t u : list Event) : finished (t ++ u) = finished t ++ finished u.
Proof.
  induction t as [|[job|job ok] t IH]; cbn [app finished]; [reflexivity|exact IH|].
  rewrite IH. reflexivity.
Qed.

Lemma sequential_app (t u : list Event) (cur : option Job) :
  sequential cur (t ++ u)
  = match sequential cur t with
    | Some cur' => sequential cur' u
    | None => None
    end.
Proof.
  revert cur. induction t as [|[job|job ok] t IH]; intros cur; cbn [app sequential].
  - reflexivity.
  - destruct cur; [reflexivity|apply IH].
  - destruct cur as [j|]; [|reflexivity]. destruct (decide (j = job)); [apply IH|reflexivity].
Qed.

(** [processNext] keeps the state consistent and leaves no job stranded. *)
Lemma processNext_consistent (jobs : list Job) (s : State) :
  consistent jobs s -> consistent jobs (processNext s).
Proof.
  intros Hc. pose proof Hc as (Hq & Hseq & Hfin & Hflag & Hcur). unfold processNext.
  destruct (isProcessing s) eqn:Hp; cbn [orb]; [exact Hc|].
  destruct (processingQueue s) as [|job rest] eqn:Hqueue; cbn [length Nat.eqb]; [exact Hc|].
  destruct (running s) as [j|] eqn:Hr; [discriminate|]. clear Hc.
  unfold consistent, inFlight in *. cbn [trace processingQueue running isProcessing currentVideoId].
  rewrite started_app, finished_app, sequential_app, Hseq. cbn [started finished sequential].
  rewrite Hr in Hfin. rewrite app_nil_r in *.
  split; [rewrite <- app_assoc; exact Hq|]. split; [reflexivity|].
  split; [rewrite Hfin; reflexivity|]. split; reflexivity.
Qed.

Lemma processNext_live (s : State) : live (processNext s).
Proof.
  unfold processNext, live.
  destruct (isProcessing s) eqn:Hp; cbn [orb]; [congruence|].
  destruct (processingQueue s) as [|job rest] eqn:Hqueue; cbn [length Nat.eqb].
  - congruence.
  - cbn [isProcessing]. discriminate.
Qed.

Lemma processNext_measure (s : State) : (measure (processNext s) <= measure s)%nat.
Proof.
  destruct s as [queue busy cur pending frame events]. unfold processNext, measure.
  cbn [isProcessing processingQueue immediates].
  destruct busy; cbn [orb]; [cbn [isProcessing processingQueue immediates]; lia|].
  destruct queue as [|job rest]; cbn [length Nat.eqb isProcessing processingQueue immediates]; lia.
Qed.

(** Every turn keeps the state consistent and live. *)
Lemma step_consistent (a : Action) (jobs : list Job) (s s' : State) :
  consistent jobs s -> step a s = Some s' ->
  consistent (jobs ++ enqueued [a]) s' /\ live s'.
Proof.
  intros Hc Hstep. destruct a as [job|ok|]; cbn [step enqueued] in *.
  - injection Hstep as <-.
    assert (consistent (jobs ++ [job])
              (mkState (processingQueue s ++ [job]) (isProcessing s) (currentVideoId s)
                       (immediates s) (running s) (trace s))) as Hpushed.
    { destruct Hc as (Hq & Hseq & Hfin & Hflag & Hcur).
      unfold consistent, inFlight in *.
      cbn [trace processingQueue running isProcessing currentVideoId].
      split; [rewrite app_assoc, Hq; reflexivity|]. repeat split; assumption. }
    unfold addToQueue. cbn [isProcessing].
    destruct (isProcessing s) eqn:Hp; cbv beta iota delta [negb].
    + split; [exact Hpushed|]. unfold live. cbn [isProcessing]. intros H. discriminate H.
    + split; [apply processNext_consistent, Hpushed|apply processNext_live].
  - rewrite app_nil_r. unfold resume in Hstep.
    destruct Hc as (Hq & Hseq & Hfin & Hflag & Hcur). unfold inFlight in Hfin.
    destruct (running s) as [job|] eqn:Hr; [|discriminate].
    injection Hstep as <-. split.
    + unfold consistent, inFlight.
      cbn [trace processingQueue running isProcessing currentVideoId].
      rewrite started_app, finished_app, sequential_app, Hseq.
      cbn [started finished sequential]. rewrite decide_True by reflexivity.
      rewrite !app_nil_r. repeat split; assumption.
    + unfold live. cbn [isProcessing processingQueue immediates].
      intros _ Hne. destruct (processingQueue s); [contradiction|]. cbn. lia.
  - rewrite app_nil_r. unfold runImmediate in Hstep.
    destruct (immediates s) as [|n] eqn:Hi; [discriminate|].
    injection Hstep as <-. split; [|apply processNext_live].
    apply processNext_consistent. exact Hc.
Qed.

Lemma enqueued_app (acts more : list Action) :
  enqueued (acts ++ more) = enqueued acts ++ enqueued more.
Proof.
  induction acts as [|[job|ok|] acts IH]; cbn [app enqueued]; [reflexivity| |exact IH..].
  rewrite IH. reflexivity.
Qed.

Lemma run_consistent (acts : list Action) (jobs : list Job) (s s' : State) :
  consistent jobs s -> live s -> run acts s = Some s' ->
  consistent (jobs ++ enqueued acts) s' /\ live s'.
Proof.
  revert jobs s. induction acts as [|a acts IH]; intros jobs s Hc Hl Hrun.
  - injection Hrun as <-. cbn [enqueued]. rewrite app_nil_r. split; assumption.
  - cbn [run] in Hrun. destruct (step a s) as [s1|] eqn:Hstep; [|discriminate].
    destruct (step_consistent a jobs s s1 Hc Hstep) as [Hc1 Hl1].
    destruct (IH _ _ Hc1 Hl1 Hrun) as [Hc' Hl'].
    change (a :: acts) with ([a] ++ acts). rewrite enqueued_app, app_assoc.
    split; assumption.
Qed.

Lemma initial_consistent : consistent [] initial /\ live initial.
Proof. split; [repeat split|]. unfold live. cbn. congruence. Qed.

(** Left alone, the event loop comes to rest within [measure] turns, and
    then every enqueued job has run, once, in order. *)
Lemma drain_quiesces (outcome : Job -> bool) (fuel : nat) (jobs : list Job) (s : State) :
  consistent jobs s -> live s -> (measure s <= fuel)%nat ->
  let s' := drain outcome fuel s in
  quiescent s' /\ consistent jobs s'
  /\ started (trace s') = jobs /\ finished (trace s') = jobs.
Proof.
  revert s. induction fuel as [|fuel IH]; intros s Hc Hl Hm; cbn [drain].
  - destruct Hc as (Hq & Hseq & Hfin & Hflag & Hcur). unfold measure in Hm.
    destruct (isProcessing s) eqn:Hp; [lia|].
    destruct (running s) as [j|] eqn:Hr; [discriminate|].
    assert (processingQueue s = []) as Hqe by (destruct (processingQueue s); [reflexivity|cbn in Hm; lia]).
    unfold inFlight in Hfin. rewrite Hr, app_nil_r in Hfin. rewrite Hqe, app_nil_r in Hq.
    split; [repeat split; [assumption..|lia|assumption]|].
    split; [|split; congruence].
    unfold consistent, inFlight. rewrite Hr, Hqe, !app_nil_r. repeat split; assumption.
  - destruct (running s) as [job|] eqn:Hr.
    + unfold resume. rewrite Hr.
      assert (step (Settle (outcome job)) s
              = Some (mkState (processingQueue s) false None
                        (if (0 <? length (processingQueue s))%nat
                         then S (immediates s) else immediates s)
                        None (trace s ++ [Finished job (outcome job)]))) as Hstep
        by (cbn [step]; unfold resume; rewrite Hr; reflexivity).
      destruct (step_consistent _ jobs s _ Hc Hstep) as [Hc1 Hl1].
      cbn [enqueued] in Hc1. rewrite app_nil_r in Hc1.
      apply IH; [exact Hc1|exact Hl1|].
      destruct Hc as (_ & _ & _ & Hflag & _). rewrite Hr in Hflag.
      unfold measure in *. cbn [processingQueue immediates isProcessing].
      rewrite Hflag in Hm. destruct (0 <? length (processingQueue s))%nat; lia.
    + unfold runImmediate. destruct (immediates s) as [|n] eqn:Hi.
      * destruct Hc as (Hq & Hseq & Hfin & Hflag & Hcur). rewrite Hr in Hflag, Hseq, Hcur.
        assert (processingQueue s = []) as Hqe.
        { destruct (processingQueue s) eqn:E; [reflexivity|].
          specialize (Hl Hflag). rewrite E in Hl. specialize (Hl ltac:(discriminate)). lia. }
        unfold inFlight in Hfin. rewrite Hr, app_nil_r in Hfin. rewrite Hqe, app_nil_r in Hq.
        split; [repeat split; assumption|].
        split; [|split; congruence].
        unfold consistent, inFlight. rewrite Hr, Hqe, !app_nil_r. repeat split; assumption.
      * set (s1 := mkState (processingQueue s) (isProcessing s) (currentVideoId s)
                           n (running s) (trace s)).
        assert (consistent jobs s1) as Hc1 by exact Hc.
        apply IH; [apply processNext_consistent, Hc1|apply processNext_live|].
        pose proof (processNext_measure s1) as Hle.
        assert (measure s1 < measure s)%nat
          by (unfold measure, s1; cbn [processingQueue immediates isProcessing]; lia).
        lia.
Qed.

(** C4.  After any interleaving of enqueue calls, pipeline runs
    settling (with or without an error) and [setImmediate] callbacks:
    a further enqueue is always accepted and returns with the job waiting
    or just started, before any run has completed; the runs so far were
    strictly one at a time; the jobs started, followed by those waiting,
    are the enqueued jobs in enqueue order; and, left alone, the event
    loop comes to rest with every one of the N enqueued jobs run exactly
    once, in that order, one at a time, whatever the outcome of each run. *)
Theorem C4_queue_runs_jobs_one_at_a_time_in_order (acts : list Action) (s : State) :
  run acts initial = Some s ->
  (forall job,
     step (Enqueue job) s = Some (addToQueue job s)
     /\ finished (trace (addToQueue job s)) = finished (trace s)
     /\ started (trace (addToQueue job s)) ++ processingQueue (addToQueue job s)
        = enqueued acts ++ [job])
  /\ sequential None (trace s) = Some (running s)
  /\ started (trace s) ++ processingQueue s = enqueued acts
  /\ finished (trace s) ++ inFlight s = started (trace s)
  /\ (forall outcome : Job -> bool,
        let s' := drain outcome (measure s) s in
        quiescent s'
        /\ started (trace s') = enqueued acts
        /\ finished (trace s') = enqueued acts
        /\ length (started (trace s')) = length (enqueued acts)
        /\ sequential None (trace s') = Some None).
Proof.
  intros Hrun.
  destruct initial_consistent as [Hc0 Hl0].
  destruct (run_consistent acts [] initial s Hc0 Hl0 Hrun) as [Hc Hl].
  cbn [app] in Hc. split; [|split; [|split; [|split]]].
  - intros job. split; [reflexivity|].
    destruct (step_consistent (Enqueue job) _ s _ Hc eq_refl) as [(Hq & _) _].
    cbn [enqueued] in Hq. split; [|exact Hq].
    unfold addToQueue, processNext.
    cbn [isProcessing processingQueue trace immediates running currentVideoId].
    destruct (isProcessing s); cbn [negb orb]; [reflexivity|].
    destruct (processingQueue s ++ [job]) as [|j rest]; cbn [length Nat.eqb trace];
      [reflexivity|].
    rewrite finished_app. cbn [finished]. apply app_nil_r.
  - apply Hc.
  - apply Hc.
  - apply Hc.
  - intros outcome s'.
    destruct (drain_quiesces outcome (measure s) _ s Hc Hl (le_n _))
      as (Hquiet & Hc' & Hst & Hfi).
    fold s' in Hquiet, Hc', Hst, Hfi.
    split; [exact Hquiet|]. split; [exact Hst|]. split; [exact Hfi|].
    split; [rewrite Hst; reflexivity|].
    destruct Hc' as (_ & Hseq & _). destruct Hquiet as (Hr & _).
    rewrite Hseq, Hr. reflexivity.
Qed.

End QueueFacts.

(** ** The properties on the sample data *)

Module Checks.
Import Sample.

Local Abbreviation GET := (Stream.streamVideo jwt_verify extname isObjectId db fs).
Local Abbreviation HEAD := (Stream.getStreamInfo jwt_verify extname isObjectId db fs).

Lemma sample_serves (rangeHeader : option string) :
  StreamSpec.serves jwt_verify isObjectId db fs (get "v1" (Some "token-u1") rangeHeader)
                     (record "v1" ready) (original "v1") content.
Proof.
  split; [|split; [discriminate|split; [discriminate|split; reflexivity]]].
  exists (Stream.mkDecoded "u1" "viewer" "t1"). split; reflexivity.
Defined.

Lemma sample_resolves (id : string) (st : Status) (rangeHeader : option string) :
  isObjectId id = true -> db !! id = Some (record id st) ->
  StreamSpec.resolves jwt_verify isObjectId db (get id (Some "token-u1") rangeHeader) (record id st).
Proof.
  intros Hid H. exists (Stream.mkDecoded "u1" "viewer" "t1"). split; [reflexivity|].
  unfold Stream.findOneTenant. cbn [Stream.tok_tenantId Stream.videoId get].
  rewrite Hid, H. reflexivity.
Defined.

Lemma C1_witness :
  Sensitivity64.flagged (Sensitivity64.classify Sample64.frames) = true
  /\ Sensitivity64.level (Sensitivity64.classify Sample64.frames) = medium.
Proof.
  destruct (Scorer64Facts.C1_scorer_follows_specification Sample64.frames) as (_ & H & _).
  destruct H as (_ & Hflag & Hlevel & _); [discriminate|].
  split; [apply Hflag; reflexivity|rewrite Hlevel; reflexivity].
Defined.

(** The formula of the specification, in exact arithmetic, against the
    code.  For the seven frames of [borderline] the formula gives 0.6,
    which is not above 0.6, so by the formula the result is not flagged; the
    code computes 0.6000000000000001 and flags it.  For the frame
    [rounded] the formula gives a frame score above 0.5; the code
    computes 0.5, which is not. *)
Lemma C1_counterexample :
  (ScorerSpec.overall (List.map Sensitivity64.exact Sample64.borderline) == 0.6)%Q
  /\ ~ (0.6 < ScorerSpec.overall (List.map Sensitivity64.exact Sample64.borderline))%Q
  /\ Sensitivity64.calculateSensitivityScore Sample64.borderline = Sample64.above
  /\ Sensitivity64.flagged (Sensitivity64.classify Sample64.borderline) = true
  /\ (0.5 < ScorerSpec.per_frame (Sensitivity64.exact Sample64.rounded))%Q
  /\ Sensitivity64.frameScore Sample64.rounded = Sample64.half
  /\ Sensitivity64.gt (Sensitivity64.frameScore Sample64.rounded) Sample64.half = false.
Proof.
  split; [vm_compute; reflexivity|]. split; [vm_compute; discriminate|].
  split; [vm_compute; reflexivity|]. split; [vm_compute; reflexivity|].
  split; [vm_compute; reflexivity|]. split; vm_compute; reflexivity.
Qed.

(** The ten-byte file asked for with [Range: bytes=0-9]. *)
Lemma C2_witness :
  res_status (GET (get "v1" (Some "token-u1") (Some "bytes=0-9"))) = 206
  /\ res_headers (GET (get "v1" (Some "token-u1") (Some "bytes=0-9"))) !! "Content-Range"
     = Some "bytes 0-9/10"
  /\ res_headers (GET (get "v1" (Some "token-u1") (Some "bytes=0-9"))) !! "Content-Length"
     = Some "10".
Proof.
  destruct (StreamFacts.C2_valid_range_partial_content jwt_verify extname isObjectId db fs
              (get "v1" (Some "token-u1") (Some "bytes=0-9"))
              (record "v1" ready) (original "v1") content 0 (Some 9))
    as (H1 & H2 & H3 & _).
  - apply sample_serves.
  - reflexivity.
  - lia.
  - simpl. lia.
  - simpl. lia.
  - split; [exact H1|]. split; [exact H2|exact H3].
Defined.



Lemma C4_witness :
  Queue.started
    (Queue.trace (Queue.drain (fun _ => false) (Queue.measure after_turns) after_turns))
  = [job "a"; job "b"; job "c"].
Proof.
  destruct (QueueFacts.C4_queue_runs_jobs_one_at_a_time_in_order turns after_turns)
    as (_ & _ & _ & _ & Hdrain).
  - reflexivity.
  - destruct (Hdrain (fun _ => false)) as (_ & Hstarted & _). exact Hstarted.
Defined.

Lemma C5_witness :
  exists w',
    run engine_thumbnail_broken
    = (inl "Thumbnail generation failed: ffmpeg exited with code 1", w')
    /\ Pipeline.timers w' = []
    /\ (exists v', Pipeline.db w' !! "v3" = Some v' /\ status v' = failed)
    /\ Pipeline.fs w' !! original "v3" = Some content.
Proof.
  destruct (PipelineFacts.C5_failure_aborts_marks_failed UPLOAD_PATH extname
              engine_thumbnail_broken "v3" world) as [Hfail _].
  destruct (Hfail PipelineSpec.Thumbnail
                  "Thumbnail generation failed: ffmpeg exited with code 1" eq_refl)
    as (w' & Hrun & Htimers & Hrecord).
  destruct (Hrecord (record "v3" uploaded) eq_refl) as [Hstatus Horiginal].
  exists w'. split; [exact Hrun|]. split; [exact Htimers|]. split; [exact Hstatus|].
  etransitivity; [apply Horiginal|reflexivity].
  split; [exists "mp4"; reflexivity|split; reflexivity].
Defined.

(** The external engine fails while the scan extracts frames, and the
    run completes with status [safe]: the record is not marked failed. *)
Lemma C5_counterexample :
  Sensitivity.extractFrames (Pipeline.scan engine_scan_broken)
  = inl "Failed to get video metadata: ffprobe exited with code 1"
  /\ (exists o, fst (run engine_scan_broken) = inr o)
  /\ status <$> (Pipeline.db (snd (run engine_scan_broken)) !! "v3") = Some safe
  /\ status <$> (Pipeline.db (snd (run engine_scan_broken)) !! "v3") <> Some failed.
Proof.
  split; [reflexivity|]. split; [eexists; vm_compute; reflexivity|].
  split; [vm_compute; reflexivity|vm_compute; discriminate].
Qed.

(** The thumbnail stage fails after the transcode has written the
    derivative: the record is marked failed and the derivative is still
    on disk, because the cleanup looks for it under the path stored in
    the record, which is only stored when a run completes. *)
Example failed_run_leaves_derivative :
  fst (run engine_thumbnail_broken)
  = inl "Thumbnail generation failed: ffmpeg exited with code 1"
  /\ processedFilePath <$> (Pipeline.db (snd (run engine_thumbnail_broken)) !! "v3")
     = Some None
  /\ Pipeline.fs (snd (run engine_thumbnail_broken))
       !! Pipeline.getProcessedFilePath UPLOAD_PATH "t1" "v3" "mp4"
     = Some content.
Proof. repeat split; vm_compute; reflexivity. Qed.



Lemma C7_witness :
  GET (get "v2" (Some "token-u1") (Some "bytes=0-9"))
  = errorHandler (ForbiddenError "Video is not ready for streaming").
Proof.
  destruct (StreamFacts.C7_not_ready_never_streams jwt_verify extname isObjectId db fs
              (get "v2" (Some "token-u1") (Some "bytes=0-9")) (record "v2" processing))
    as (_ & Hready).
  - reflexivity.
  - right. reflexivity.
  - destruct Hready as [H _]; [apply sample_resolves; reflexivity|exact H].
Defined.

(** A request for the record being processed that carries no credential
    is answered 401 "Authentication required", not with the "not ready"
    error. *)
Lemma C7_counterexample :
  db !! "v2" = Some (record "v2" processing)
  /\ status (record "v2" processing) = processing
  /\ GET (get "v2" None None) = errorHandler (UnauthorizedError "Authentication required")
  /\ res_status (GET (get "v2" None None)) = 401
  /\ GET (get "v2" None None)
     <> errorHandler (ForbiddenError "Video is not ready for streaming").
Proof. repeat split; try reflexivity. vm_compute. discriminate. Qed.


Lemma C9_witness :
  Pipeline.promote "v3" (Pipeline.mkWorld (<["v3" := record "v3" failed]> db) fs [] [])
  = Pipeline.mkWorld (<["v3" := record "v3" failed]> db) fs [] [].
Proof.
  destruct (PipelineFacts.C9_promotion_rechecks_status UPLOAD_PATH extname "v3"
              (Pipeline.mkWorld (<["v3" := record "v3" failed]> db) fs [] []))
    as (_ & _ & _ & _ & Hfailed & _).
  apply (Hfailed (record "v3" failed)); reflexivity.
Defined.


(** A request without a [Range] header for a file of 1000 bytes. *)
Example no_range_1000_bytes :
  let big : Fs := <[original "v1" := List.repeat Byte.x00 1000]> fs in
  let res := Stream.streamVideo jwt_verify extname isObjectId db big (get "v1" (Some "token-u1") None) in
  res_status res = 200
  /\ res_headers res !! "Content-Range" = Some "bytes 0-999/1000"
  /\ res_headers res !! "Content-Length" = Some "1000".
Proof. repeat split; vm_compute; reflexivity. Qed.

(** The pattern is searched for anywhere in the header, and leading
    zeros are read as decimal digits. *)
Example range_found_inside_header :
  Stream.parseRange (Some "xbytes=007-8abc") 10 = Some (Stream.mkRange 7 8 2).
Proof. reflexivity. Qed.

(** A suffix range has no start and is not matched. *)
Example suffix_range_ignored : Stream.parseRange (Some "bytes=-5") 10 = None.
Proof. reflexivity. Qed.

End Checks.

(** * More properties of the code *)

(** ** The streaming responder, any request *)

Module StreamGuarantees.
Import Js Stream StreamSpec StreamWords JsFacts RangeFacts StreamFacts.

Lemma parseRange_bounds (rangeHeader : option string) (fileSize : Z) (r : Range) :
  parseRange rangeHeader fileSize = Some r ->
  0 <= start r /\ start r <= end_ r /\ end_ r < fileSize
  /\ chunkSize r = end_ r - start r + 1
  /\ 1 <= chunkSize r <= fileSize.
Proof.
  destruct rangeHeader as [h|]; [|discriminate].
  rewrite parseRange_captured.
  destruct (captured h) as [[s e]|]; [|discriminate].
  cbn zeta.
  destruct ((s >? default (fileSize - 1) e) || (s <? 0) || (default (fileSize - 1) e >=? fileSize))
    eqn:Hc; [discriminate|].
  intros [= <-]. cbn [start end_ chunkSize].
  apply orb_false_elim in Hc as [Hc H3]. apply orb_false_elim in Hc as [H1 H2].
  lia.
Qed.

(** X1.  Whatever the Range header, a range the parser accepts lies
    inside the file: 0 <= start <= end < fileSize, and the chunk size is
    end - start + 1, between 1 and the file size.  Written back as the
    header [bytes=start-end] it is accepted again, with the same
    result. *)
Theorem X1_accepted_range_lies_in_file (rangeHeader : option string) (fileSize : Z) (r : Range) :
  parseRange rangeHeader fileSize = Some r ->
  0 <= start r /\ start r <= end_ r /\ end_ r < fileSize
  /\ chunkSize r = end_ r - start r + 1
  /\ 1 <= chunkSize r <= fileSize
  /\ parseRange (Some (rangeHeaderOf (start r) (Some (end_ r)))) fileSize = Some r.
Proof.
  intros Hr. destruct (parseRange_bounds _ _ _ Hr) as (H0 & H1 & H2 & H3 & H4).
  split; [exact H0|]. split; [exact H1|]. split; [exact H2|]. split; [exact H3|].
  split; [exact H4|].
  rewrite (parseRange_valid (start r) (Some (end_ r)) fileSize H0 H1 H2).
  cbn [from_option]. unfold id. destruct r as [s e c]. cbn in *. congruence.
Qed.

Lemma readSpan_slice (content : list Byte.byte) (first last : Z) :
  0 <= first -> first <= last -> last < Z.of_nat (length content) ->
  exists before after,
    slice_of content before (readSpan content first last) after
    /\ Z.of_nat (length before) = first
    /\ Z.of_nat (length (readSpan content first last)) = last - first + 1.
Proof.
  intros H0 H1 H2.
  exists (take (Z.to_nat first) content),
         (drop (Z.to_nat (last - first + 1)) (drop (Z.to_nat first) content)).
  unfold slice_of, readSpan. split; [|split].
  - now rewrite !take_drop.
  - rewrite length_take. lia.
  - rewrite length_take, length_drop. lia.
Qed.

Section WithLibraries.

Variable jwt_verify : string -> option Decoded.
Variable extname : string -> string.
Variable isObjectId : string -> bool.

Lemma contentType_nonempty (video : Video) (path : string) :
  contentType extname video path <> EmptyString.
Proof.
  unfold contentType, getMimeType.
  destruct (mimeType video) as [[|c m]|]; cbn [truthy];
    try discriminate; repeat case_decide; discriminate.
Qed.

(** What [streamVideo] sends once it has the file, whatever the Range
    header. *)
Lemma respond_describes (video : Video) (path : string) (content : list Byte.byte)
    (rangeHeader : option string) :
  let res := respond extname video path content rangeHeader in
  exists before body after,
    slice_of content before body after
    /\ res_body res = BodyBytes body
    /\ (res_status res = 200 /\ body = content
        \/ res_status res = 206 /\ body <> [])
    /\ res_headers res !! "Content-Length" = Some (toString (Z.of_nat (length body)))
    /\ res_headers res !! "Content-Range"
       = Some ("bytes " +:+ toString (Z.of_nat (length before)) +:+ "-"
               +:+ toString (Z.of_nat (length before) + Z.of_nat (length body) - 1)
               +:+ "/" +:+ toString (Z.of_nat (length content)))
    /\ res_headers res !! "Accept-Ranges" = Some "bytes"
    /\ (exists mime, res_headers res !! "Content-Type" = Some mime /\ mime <> EmptyString).
Proof.
  intros res. subst res. unfold respond.
  destruct (parseRange rangeHeader (Z.of_nat (length content))) as [r|] eqn:Hr.
  - destruct (parseRange_bounds _ _ _ Hr) as (H0 & H1 & H2 & H3 & H4).
    destruct (readSpan_slice content (start r) (end_ r) H0 H1 H2)
      as (before & after & Hs & Hb & Hl).
    exists before, (readSpan content (start r) (end_ r)), after.
    cbn [res_status res_headers res_body].
    split; [exact Hs|]. split; [reflexivity|].
    split. { right. split; [reflexivity|]. intros E. rewrite E in Hl. cbn in Hl. lia. }
    split. { rewrite lookup_insert_ne by done. rewrite lookup_insert_eq, Hl, H3. reflexivity. }
    split. { rewrite lookup_insert_eq, Hb, Hl.
            replace (start r + (end_ r - start r + 1) - 1) with (end_ r) by lia. reflexivity. }
    split. { do 2 (rewrite lookup_insert_ne by done). apply lookup_insert_eq. }
    eexists. split; [do 3 (rewrite lookup_insert_ne by done); apply lookup_insert_eq|].
    apply contentType_nonempty.
  - exists [], content, [].
    cbn [res_status res_headers res_body].
    split; [unfold slice_of; now rewrite app_nil_r|]. split; [reflexivity|].
    split; [left; split; reflexivity|].
    split. { rewrite lookup_insert_ne by done. apply lookup_insert_eq. }
    split. { rewrite lookup_insert_eq. reflexivity. }
    split. { do 2 (rewrite lookup_insert_ne by done). apply lookup_insert_eq. }
    eexists. split; [do 3 (rewrite lookup_insert_ne by done); apply lookup_insert_eq|].
    apply contentType_nonempty.
Qed.

(** The file [selectFile] picks is one the record names, and it is on
    disk. *)
Lemma selectFile_Some (fs : Fs) (video : Video) (path : string) :
  selectFile fs video = Some path ->
  (processedFilePath video = Some path \/ originalFilePath video = path)
  /\ path <> EmptyString
  /\ exists content, fs !! path = Some content.
Proof.
  unfold selectFile, or_else, existsSync.
  destruct (processedFilePath video) as [[|c p]|]; cbn [truthy];
    destruct (originalFilePath video) as [|c' p']; try discriminate;
    case_bool_decide as He; try discriminate; intros [= <-];
    (split; [auto|split; [discriminate|]]); destruct He as [x Hx]; eauto.
Qed.

(** What the GET handler needs to go as far as sending bytes. *)
Lemma streamVideo_bytes db fs req bytes :
  res_body (streamVideo jwt_verify extname isObjectId db fs req) = BodyBytes bytes ->
  exists decoded video path content,
    verifyToken jwt_verify req = Some decoded
    /\ db !! videoId req = Some video
    /\ tenantId video = tok_tenantId decoded
    /\ serves jwt_verify isObjectId db fs req video path content.
Proof.
  unfold streamVideo, streamVideo_body.
  destruct (verifyToken jwt_verify req) as [decoded|] eqn:Hv; [|discriminate].
  destruct (findOneTenant isObjectId db (tok_tenantId decoded) (videoId req)) as [e|[video|]] eqn:Hf;
    [discriminate| |discriminate].
  destruct (bool_decide (status video = uploaded) || bool_decide (status video = processing))
    eqn:Hst; [discriminate|].
  destruct (selectFile fs video) as [path|] eqn:Hsel; [|discriminate].
  intros _.
  destruct (selectFile_Some _ _ _ Hsel) as (_ & _ & content & Hc).
  apply orb_false_elim in Hst as [H1 H2].
  apply bool_decide_eq_false in H1. apply bool_decide_eq_false in H2.
  assert (Hdb : db !! videoId req = Some video /\ tenantId video = tok_tenantId decoded).
  { destruct (findOneTenant_Some _ _ _ _ _ Hf) as (_ & _ & H3 & H4). split; trivial. }
  exists decoded, video, path, content.
  split; [reflexivity|]. split; [apply Hdb|]. split; [apply Hdb|].
  split; [exists decoded; split; trivial|]. repeat split; trivial.
Qed.

(** X2. Whatever the Range header of a request that reaches the file,
    the answer is 200 or 206 and its headers describe its body: the body
    is a contiguous part of the file, the whole file when the status is
    200; Content-Length is the number of bytes of the body; Content-Range
    names the offsets of its first and last byte and the size of the
    file; and Content-Type is never empty. *)
Theorem X2_served_headers_describe_body db fs req video path content :
  serves jwt_verify isObjectId db fs req video path content ->
  let res := streamVideo jwt_verify extname isObjectId db fs req in
  exists before body after,
    slice_of content before body after
    /\ res_body res = BodyBytes body
    /\ (res_status res = 200 /\ body = content
        \/ res_status res = 206 /\ body <> [])
    /\ res_headers res !! "Content-Length" = Some (toString (Z.of_nat (length body)))
    /\ res_headers res !! "Content-Range"
       = Some ("bytes " +:+ toString (Z.of_nat (length before)) +:+ "-"
               +:+ toString (Z.of_nat (length before) + Z.of_nat (length body) - 1)
               +:+ "/" +:+ toString (Z.of_nat (length content)))
    /\ res_headers res !! "Accept-Ranges" = Some "bytes"
    /\ (exists mime, res_headers res !! "Content-Type" = Some mime /\ mime <> EmptyString).
Proof.
  intros Hserves res. subst res.
  rewrite (streamVideo_serves _ _ _ _ _ _ _ _ _ Hserves). apply respond_describes.
Qed.

(** X3. Bytes leave the GET handler only for a request whose token
    verifies, from a record of the token's own tenant that is neither
    uploaded nor processing, and they are a contiguous part of a file
    that record names (its derivative or its original). *)
Theorem X3_bytes_only_from_own_tenant db fs req bytes :
  res_body (streamVideo jwt_verify extname isObjectId db fs req) = BodyBytes bytes ->
  exists decoded video path content before after,
    verifyToken jwt_verify req = Some decoded
    /\ db !! videoId req = Some video
    /\ tenantId video = tok_tenantId decoded
    /\ status video <> uploaded /\ status video <> processing
    /\ (processedFilePath video = Some path \/ originalFilePath video = path)
    /\ fs !! path = Some content
    /\ slice_of content before bytes after.
Proof.
  intros Hbytes.
  destruct (streamVideo_bytes _ _ _ _ Hbytes) as (decoded & video & path & content & Hv & Hdb & Ht & Hs).
  pose proof Hs as (_ & Hu & Hp & Hsel & Hfs).
  rewrite (streamVideo_serves _ _ _ _ _ _ _ _ _ Hs) in Hbytes.
  destruct (respond_describes video path content (range req))
    as (before & body & after & Hslice & Hbody & _).
  rewrite Hbody in Hbytes. injection Hbytes as ->.
  exists decoded, video, path, content, before, after.
  repeat (split; trivial). apply (selectFile_Some _ _ _ Hsel).
Qed.

(** X4. A record of another tenant is answered exactly as a record that
    does not exist: the GET and HEAD responses are those of the store
    without that record, no bytes are sent, and with a non-empty tenant
    in the token the GET status is 404; the HEAD status is 404 too when
    the id casts to an ObjectId, as the id of a stored record does (500
    for an id that does not). *)
Theorem X4_foreign_record_looks_missing db fs req decoded video :
  verifyToken jwt_verify req = Some decoded ->
  db !! videoId req = Some video ->
  tenantId video <> tok_tenantId decoded ->
  streamVideo jwt_verify extname isObjectId db fs req
  = streamVideo jwt_verify extname isObjectId (delete (videoId req) db) fs req
  /\ getStreamInfo jwt_verify extname isObjectId db fs req
     = getStreamInfo jwt_verify extname isObjectId (delete (videoId req) db) fs req
  /\ (forall bytes, res_body (streamVideo jwt_verify extname isObjectId db fs req) <> BodyBytes bytes)
  /\ (tok_tenantId decoded <> EmptyString ->
      res_status (streamVideo jwt_verify extname isObjectId db fs req) = 404
      /\ res_status (getStreamInfo jwt_verify extname isObjectId db fs req)
         = if isObjectId (videoId req) then 404 else 500).
Proof.
  intros Hv Hdb Hne.
  assert (Hf : findOneTenant isObjectId db (tok_tenantId decoded) (videoId req)
               = findOneTenant isObjectId (delete (videoId req) db) (tok_tenantId decoded) (videoId req)).
  { unfold findOneTenant. rewrite Hdb, lookup_delete_eq.
    destruct (tok_tenantId decoded); [reflexivity|].
    destruct (isObjectId (videoId req)); [|reflexivity].
    destruct (decide (tenantId video = _)); [contradiction|reflexivity]. }
  assert (Hn : tok_tenantId decoded <> EmptyString ->
               findOneTenant isObjectId db (tok_tenantId decoded) (videoId req)
               = if isObjectId (videoId req) then inr None else inl (CastError (videoId req))).
  { unfold findOneTenant. rewrite Hdb.
    destruct (tok_tenantId decoded); [contradiction|]. intros _.
    destruct (isObjectId (videoId req)); [|reflexivity].
    destruct (decide (tenantId video = _)); [contradiction|reflexivity]. }
  unfold streamVideo, streamVideo_body, getStreamInfo. rewrite Hv, <- Hf.
  split; [reflexivity|]. split; [reflexivity|]. split.
  - intros bytes. destruct (tok_tenantId decoded) eqn:E.
    + cbn. discriminate.
    + rewrite Hn by discriminate. destruct (isObjectId (videoId req)); discriminate.
  - intros Ht. rewrite (Hn Ht). destruct (isObjectId (videoId req)); split; reflexivity.
Qed.

Lemma split_space_no_space (s : string) :
  no_space s = true -> split_space s = [s].
Proof.
  induction s as [|c t IH]; [reflexivity|].
  cbn [no_space split_space]. intros H. apply andb_true_iff in H as [Hc Ht].
  apply negb_true_iff in Hc. rewrite Hc, (IH Ht). reflexivity.
Qed.

Lemma split_space_word (s t : string) :
  no_space s = true -> split_space (s +:+ " " +:+ t) = s :: split_space t.
Proof.
  induction s as [|c s IH]; [reflexivity|].
  cbn [no_space]. intros H. apply andb_true_iff in H as [Hc Hs].
  apply negb_true_iff in Hc.
  change (String c s +:+ " " +:+ t) with (String c (s +:+ " " +:+ t)).
  cbn [split_space]. rewrite Hc, (IH Hs). reflexivity.
Qed.

(** X5. Where the stream handlers take the token from: a non-empty
    [token] query parameter is the token and the Authorization header is
    not looked at; otherwise the token is the second blank-separated word
    of the Authorization header, whatever the first word is; and a header
    of a single word gives no token. *)
Theorem X5_token_from_query_then_header req :
  (forall token,
     query_token req = Some token -> token <> EmptyString ->
     verifyToken jwt_verify req = jwt_verify token)
  /\ (forall scheme token,
        truthy (query_token req) = None ->
        authorization req = Some (scheme +:+ " " +:+ token) ->
        no_space scheme = true -> no_space token = true -> token <> EmptyString ->
        verifyToken jwt_verify req = jwt_verify token)
  /\ (forall word,
        truthy (query_token req) = None ->
        authorization req = Some word -> no_space word = true ->
        verifyToken jwt_verify req = None).
Proof.
  unfold verifyToken, or_else. split; [|split].
  - intros token -> Hne. destruct token; [contradiction|reflexivity].
  - intros scheme token -> -> Hs Ht Hne.
    rewrite (split_space_word _ _ Hs), (split_space_no_space _ Ht).
    destruct token; [contradiction|reflexivity].
  - intros word -> -> Hw. rewrite (split_space_no_space _ Hw). reflexivity.
Qed.

Ltac splits := repeat match goal with |- _ /\ _ => split end.

(** Closes the branches in which both handlers answer with constants. *)
Ltac settled :=
  cbn; splits; try discriminate; auto 6; try (intros [H|H]; discriminate).

(** X6. HEAD against GET on the same request: the two statuses differ
    only where GET answers 403 (record not ready) or 206 (a range), or
    where the id does not cast to an ObjectId: the error handler then
    answers GET with 404 "Resource not found with id of ...", while HEAD
    answers its own 500; where GET answers 200 or 206, HEAD answers 200
    with the same Content-Type and Accept-Ranges, and where GET answers
    200 also the same Content-Length; HEAD never carries a Content-Range
    or a body of bytes. *)
Theorem X6_head_agrees_with_get db fs req :
  let head := getStreamInfo jwt_verify extname isObjectId db fs req in
  let get := streamVideo jwt_verify extname isObjectId db fs req in
  (res_status head = res_status get \/ res_status get = 403 \/ res_status get = 206
   \/ isObjectId (videoId req) = false /\ res_status get = 404 /\ res_status head = 500)
  /\ (forall decoded,
        verifyToken jwt_verify req = Some decoded ->
        tok_tenantId decoded <> EmptyString -> isObjectId (videoId req) = false ->
        get = errorHandler (CastError (videoId req))
        /\ res_status get = 404 /\ res_status head = 500)
  /\ (res_status get = 200 \/ res_status get = 206 ->
      res_status head = 200
      /\ res_headers head !! "Content-Type" = res_headers get !! "Content-Type"
      /\ res_headers head !! "Accept-Ranges" = res_headers get !! "Accept-Ranges")
  /\ (res_status get = 200 ->
      res_headers head !! "Content-Length" = res_headers get !! "Content-Length")
  /\ res_headers head !! "Content-Range" = None
  /\ (forall bytes, res_body head <> BodyBytes bytes).
Proof.
  cbn zeta. split; [|split].
  2:{ intros decoded Hv Ht Hid. unfold getStreamInfo, streamVideo, streamVideo_body.
      rewrite Hv. unfold findOneTenant.
      destruct (tok_tenantId decoded); [contradiction|]. rewrite Hid.
      split; [reflexivity|split; reflexivity]. }
  all: unfold getStreamInfo, streamVideo, streamVideo_body.
  all: destruct (verifyToken jwt_verify req) as [decoded|]; [|solve [settled]].
  all: destruct (findOneTenant isObjectId db (tok_tenantId decoded) (videoId req))
         as [e|[video|]] eqn:Hf.
  1,4: destruct (findOneTenant_inl _ _ _ _ _ Hf) as [[_ ->]|(_ & Hid & ->)];
         solve [settled].
  2,4: solve [settled].
  all: destruct (selectFile fs video) as [path|];
    destruct (bool_decide (status video = uploaded) || bool_decide (status video = processing));
    try solve [settled].
  all: destruct (parseRange (range req) (statSize fs path)) as [r|];
    cbn [res_status res_headers res_body]; auto.
  split.
  { intros _. split; [reflexivity|].
    split; rewrite !lookup_insert_ne by done; reflexivity. }
  split; [discriminate|]. split; [reflexivity|discriminate].
Qed.

End WithLibraries.

End StreamGuarantees.

(** ** The scan: result, frame extraction, analyzers *)

Module ScorerGuarantees.
Import Js JsFacts Sensitivity ScorerSpec ScorerFacts Frames FramesSpec.

Local Open Scope Q_scope.








(** *** Frame extraction *)

Lemma below_count (duration : Q) (interval : Z) (i : nat) :
  (0 < interval)%Z ->
  (i < Z.to_nat (frameCount duration interval))%nat ->
  inject_Z (Z.of_nat i * interval) < duration.
Proof.
  intros Hi Hlt. unfold frameCount in Hlt.
  set (n := Qceiling (duration / inject_Z interval)) in *.
  assert (Hq : 0 < inject_Z interval) by (rewrite <- (Zlt_Qlt 0); exact Hi).
  assert (H1 : inject_Z (Z.of_nat i) <= inject_Z (n - 1)) by (rewrite <- Zle_Qle; lia).
  pose proof (Qceiling_lt (duration / inject_Z interval)) as H2. fold n in H2.
  assert (H3 : inject_Z (Z.of_nat i) < duration / inject_Z interval) by lra.
  rewrite inject_Z_mult.
  apply (Qmult_lt_compat_r _ _ _ Hq) in H3.
  assert (H4 : duration / inject_Z interval * inject_Z interval == duration)
    by (field; lra).
  lra.
Qed.

Lemma filter_all {A} (f : A -> bool) (l : list A) :
  Forall (fun x => f x = true) l -> List.filter f l = l.
Proof.
  induction 1 as [|x l Hx _ IH]; cbn [List.filter]; [reflexivity|].
  rewrite Hx, IH. reflexivity.
Qed.

(** The guard [timestamp < duration] of the loop never drops an index. *)
Lemma timestamps_all (duration : Q) (interval : Z) :
  (0 < interval)%Z ->
  timestamps duration interval
  = List.map (fun i => (Z.of_nat i * interval)%Z)
             (seq 0 (Z.to_nat (frameCount duration interval))).
Proof.
  intros Hi. unfold timestamps. apply filter_all, List.Forall_forall.
  intros t Ht. apply in_map_iff in Ht as (i & <- & Hin). apply in_seq in Hin.
  apply lt_true, below_count; [exact Hi|lia].
Qed.

Lemma frameCount_pos (duration : Q) (interval : Z) :
  (0 < interval)%Z -> (0 < frameCount duration interval)%Z <-> 0 < duration.
Proof.
  intros Hi. unfold frameCount.
  assert (Hq : 0 < inject_Z interval) by (rewrite <- (Zlt_Qlt 0); exact Hi).
  set (x := duration / inject_Z interval).
  assert (Hx : x * inject_Z interval == duration) by (unfold x; field; lra).
  pose proof (Qle_ceiling x) as H1. pose proof (Qceiling_lt x) as H2.
  split; intros H.
  - assert (0 <= inject_Z (Qceiling x - 1)) by (rewrite <- (Zle_Qle 0); lia).
    assert (0 < x) by lra. pose proof (Qmult_lt_compat_r _ _ _ Hq H3). lra.
  - rewrite Zlt_Qlt. apply Qlt_le_trans with x; [|exact H1].
    change (inject_Z 0) with 0. apply Qnot_le_lt. intros Hle.
    pose proof (Qmult_le_compat_r _ _ _ Hle (Qlt_le_weak _ _ Hq)). lra.
Qed.

(** X8. The timestamps at which frames are taken, for a positive
    interval: there are ceil(duration / interval) of them (none when
    that is not positive), the k-th is k x interval and lies below the
    duration, so the guard of the loop never drops one; there is none
    exactly when the duration is not positive; and the last one is less
    than one interval before the end of the video. *)
Theorem X8_frame_timestamps (duration : Q) (interval : Z) :
  (0 < interval)%Z ->
  let ts := timestamps duration interval in
  Z.of_nat (length ts) = Z.max 0 (frameCount duration interval)
  /\ (forall k t, ts !! k = Some t ->
        t = (Z.of_nat k * interval)%Z /\ inject_Z t < duration)
  /\ (ts = [] <-> duration <= 0)
  /\ (forall t, last ts = Some t -> duration <= inject_Z (t + interval)).
Proof.
  intros Hi ts. subst ts. rewrite (timestamps_all _ _ Hi).
  set (n := frameCount duration interval).
  assert (Hlook : forall k t,
            List.map (fun i => (Z.of_nat i * interval)%Z) (seq 0 (Z.to_nat n)) !! k = Some t ->
            t = (Z.of_nat k * interval)%Z /\ (k < Z.to_nat n)%nat).
  { intros k t. change (List.map ?f ?l) with (f <$> l).
    rewrite list_lookup_fmap. intros H. apply fmap_Some in H as (i & Hs & ->).
    apply lookup_seq in Hs as [-> Hk]. split; [reflexivity|exact Hk]. }
  split; [|split; [|split]].
  - rewrite length_map, length_seq. lia.
  - intros k t H. destruct (Hlook k t H) as [-> Hk]. split; [reflexivity|].
    apply below_count; trivial.
  - pose proof (frameCount_pos duration interval Hi) as Hp. fold n in Hp.
    split.
    + intros E. apply Qnot_lt_le. intros Hd. apply Hp in Hd.
      apply (f_equal length) in E. rewrite length_map, length_seq in E. cbn in E. lia.
    + intros Hd. replace (Z.to_nat n) with O; [reflexivity|].
      destruct (Z_lt_le_dec 0 n) as [Hn|Hn]; [|lia]. apply Hp in Hn. lra.
  - intros t Hl. rewrite last_lookup in Hl. rewrite length_map, length_seq in Hl.
    destruct (Hlook _ _ Hl) as [-> Hk].
    replace (Z.of_nat (Init.Nat.pred (Z.to_nat n))) with (n - 1)%Z by lia.
    replace ((n - 1) * interval + interval)%Z with (n * interval)%Z by ring.
    rewrite inject_Z_mult. unfold n, frameCount.
    assert (Hq : 0 < inject_Z interval) by (rewrite <- (Zlt_Qlt 0); exact Hi).
    set (x := duration / inject_Z interval).
    assert (Hx : x * inject_Z interval == duration) by (unfold x; field; lra).
    pose proof (Qle_ceiling x) as H1.
    pose proof (Qmult_le_compat_r _ _ _ H1 (Qlt_le_weak _ _ Hq)). lra.
Qed.

Lemma toString_inj (a b : Z) : (0 <= a)%Z -> (0 <= b)%Z -> toString a = toString b -> a = b.
Proof.
  intros Ha Hb E. pose proof (parseInt_toString a Ha) as H1.
  rewrite E, (parseInt_toString b Hb) in H1. congruence.
Qed.

Lemma framePathOf_inj (outputDir : string) (a b : Z) :
  (0 <= a)%Z -> (0 <= b)%Z -> framePathOf outputDir a = framePathOf outputDir b -> a = b.
Proof.
  intros Ha Hb E. unfold framePathOf in E.
  do 3 apply PipelineFacts.append_cancel_l in E.
  apply toString_inj; trivial.
  pose proof (span_digits_toString a ".png" Ha eq_refl) as H1.
  rewrite E, (span_digits_toString b ".png" Hb eq_refl) in H1. congruence.
Qed.

Lemma NoDup_bool_filter {A} (f : A -> bool) (l : list A) :
  NoDup l -> NoDup (List.filter f l).
Proof.
  induction 1 as [|x l Hx _ IH]; cbn [List.filter]; [constructor|].
  destruct (f x); [|exact IH]. constructor; [|exact IH].
  intros Hin. apply Hx. apply list_elem_of_In in Hin. apply filter_In in Hin as [Hin _].
  apply list_elem_of_In, Hin.
Qed.

(** X9. What frame extraction returns, for a positive interval.  When
    the probed duration is missing, zero or negative there are no
    timestamps and the result is the empty list, without the screenshot
    command being run: a scan of such a video is the no-frames result,
    even when that command would fail.  Otherwise the paths returned are
    pairwise distinct, each exists on disk and is the frame file of a
    timestamp below the duration, and they are at most
    ceil(duration / interval). *)
Theorem X9_extracted_frames (X : Extraction) (interval : Z) (outputDir : string)
    (d : option Q) :
  (0 < interval)%Z ->
  probe X = inr d ->
  (default 0 d <= 0 ->
     extractFrames X interval outputDir = inr []
     /\ forall analyze,
          processSensitivityCheck (scanWith X outputDir None analyze)
          = (noFrames, [10; 20]%Z))
  /\ (forall framePaths,
        extractFrames X interval outputDir = inr framePaths ->
        NoDup framePaths
        /\ (Z.of_nat (length framePaths) <= Z.max 0 (frameCount (default 0%Q d) interval))%Z
        /\ Forall (fun p => onDisk X p = true
                            /\ exists k, p = framePathOf outputDir (Z.of_nat k * interval)
                                         /\ inject_Z (Z.of_nat k * interval) < default 0 d)
                  framePaths).
Proof.
  intros Hi Hp.
  assert (Hnone : forall i, (0 < i)%Z -> default 0 d <= 0 -> timestamps (default 0 d) i = []).
  { intros i H0 Hd. rewrite (timestamps_all _ _ H0). replace (Z.to_nat _) with O; [reflexivity|].
    destruct (Z_lt_le_dec 0 (frameCount (default 0 d) i)) as [Hn|Hn]; [|lia].
    apply (frameCount_pos _ _ H0) in Hn. lra. }
  split.
  - intros Hd. split.
    + unfold extractFrames. rewrite Hp. cbn zeta. rewrite (Hnone _ Hi Hd). reflexivity.
    + intros analyze. unfold processSensitivityCheck, scanWith.
      cbn [Sensitivity.mkdirError Sensitivity.extractFrames].
      unfold extractFrames. rewrite Hp. cbn zeta. rewrite (Hnone 5%Z) by (trivial; lia).
      reflexivity.
  - intros framePaths. unfold extractFrames. rewrite Hp. cbn zeta.
    pose proof (timestamps_all (default 0 d) interval Hi) as Hall.
    set (paths := List.filter (onDisk X)
                    (List.map (framePathOf outputDir) (timestamps (default 0 d) interval))).
    assert (Hpaths : NoDup paths
              /\ (Z.of_nat (length paths) <= Z.max 0 (frameCount (default 0%Q d) interval))%Z
              /\ Forall (fun p => onDisk X p = true
                            /\ exists k, p = framePathOf outputDir (Z.of_nat k * interval)
                                         /\ inject_Z (Z.of_nat k * interval) < default 0 d)
                        paths).
    { unfold paths. rewrite Hall. split; [|split].
      - apply NoDup_bool_filter.
        change (List.map ?f ?l) with (f <$> l).
        apply NoDup_fmap_2_strong.
        + intros a b Ha Hb. apply list_elem_of_fmap in Ha as (i & -> & _).
          apply list_elem_of_fmap in Hb as (j & -> & _).
          apply framePathOf_inj; lia.
        + apply NoDup_fmap_2_strong; [|apply NoDup_seq].
          intros i j _ _ E. nia.
      - etransitivity; [apply inj_le, filter_length_le|].
        rewrite !length_map, length_seq. lia.
      - apply List.Forall_forall. intros p Hin. apply filter_In in Hin as [Hin Hon].
        split; [exact Hon|]. apply in_map_iff in Hin as (t & <- & Hin).
        apply in_map_iff in Hin as (k & <- & Hin). apply in_seq in Hin.
        exists k. split; [reflexivity|]. apply below_count; [exact Hi|lia]. }
    destruct (timestamps (default 0 d) interval) as [|t ts] eqn:Hts.
    + intros [= <-]. split; [constructor|]. split; [cbn; lia|constructor].
    + destruct (screenshotError X); [discriminate|]. intros [= <-]. exact Hpaths.
Qed.

(** *** The analyzers *)








End ScorerGuarantees.

(** ** The scale filter *)

Module TranscodeFacts.
Import Transcode.







End TranscodeFacts.

(** ** Tenant queries, the video controller, whole runs, the routes *)

Module TenantFacts.
Import Js Stream Tenant.

(** X13.  The two query helpers, for a non-empty tenant id [t]: both keep
    every other key of the object they are given;
    [addTenantFilter] always sets [tenantId] to [t], whatever the query
    holds; [tenantQuery] sets it to [t] only when the additional filters
    have no [tenantId] of their own, which otherwise wins.  Without a
    tenant id both throw. *)
Theorem X13_tenant_helpers_precedence (object : Object) (tenantId : option string) :
  (truthy tenantId = None ->
     addTenantFilter object tenantId = inl "tenantId is required for tenant filtering"
     /\ tenantQuery tenantId object = inl "tenantId is required for tenant filtering")
  /\ (forall t, truthy tenantId = Some t ->
        exists q1 q2,
          addTenantFilter object tenantId = inr q1
          /\ tenantQuery tenantId object = inr q2
          /\ q1 !! "tenantId" = Some t
          /\ q2 !! "tenantId" = Some (default t (object !! "tenantId"))
          /\ forall key, key <> "tenantId" ->
               q1 !! key = object !! key /\ q2 !! key = object !! key).
Proof.
  unfold addTenantFilter, tenantQuery. split.
  - intros ->. split; reflexivity.
  - intros t ->. eexists _, _. split; [reflexivity|]. split; [reflexivity|].
    split; [apply lookup_insert_eq|]. split.
    + rewrite lookup_union, lookup_singleton_eq.
      destruct (object !! "tenantId"); reflexivity.
    + intros key Hk. split; [apply lookup_insert_ne; congruence|].
      rewrite lookup_union, lookup_singleton_ne by congruence.
      destruct (object !! key); reflexivity.
Qed.

Lemma firstMatch_by_id (db : Db) (query : Object) (id : string) :
  query !! "_id" = Some id ->
  firstMatch db query
  = match db !! id with
    | Some video => if satisfies query id video then Some video else None
    | None => None
    end.
Proof.
  intros Hq. unfold firstMatch.
  set (P := fun '(i, video) => satisfies query i video).
  assert (Hin : forall i v, (i, v) ∈ List.filter P (map_to_list db) ->
                            i = id /\ db !! id = Some v /\ satisfies query id v = true).
  { intros i v H. apply list_elem_of_In, filter_In in H as [H HP].
    apply list_elem_of_In, elem_of_map_to_list in H. cbn in HP.
    assert (i = id).
    { unfold satisfies in HP. rewrite Hq in HP. apply andb_true_iff in HP as [HP _].
      apply bool_decide_eq_true in HP. congruence. }
    subst i. auto. }
  destruct (List.filter P (map_to_list db)) as [|[i v] rest] eqn:Hl.
  - cbn. destruct (db !! id) as [video|] eqn:Hd; [|reflexivity].
    destruct (satisfies query id video) eqn:Hs; [|reflexivity].
    assert (In (id, video) (List.filter P (map_to_list db))) as Hmem.
    { apply filter_In. split; [|exact Hs]. apply list_elem_of_In, elem_of_map_to_list, Hd. }
    rewrite Hl in Hmem. destruct Hmem.
  - cbn. destruct (Hin i v ltac:(left)) as (-> & Hd & Hs). rewrite Hd, Hs. reflexivity.
Qed.

(** X14.  The lookup the stream and video handlers make,
    [Video.findOne(tenantQuery(tenantId, {_id: id}))]: it throws when the
    tenant id is empty; it rejects with a [CastError] when the id is not
    an ObjectId; otherwise it finds the record [id] exactly when that
    record belongs to the tenant, and finds nothing when there is no such
    record or it belongs to another tenant. *)
Theorem X14_tenant_query_finds_own_records (isObjectId : string -> bool)
    (db : Db) (tenant id : string) :
  match tenantQuery (Some tenant) {["_id" := id]} with
  | inl message => findOneTenant isObjectId db tenant id = inl (PlainError message)
  | inr query =>
      findOneTenant isObjectId db tenant id = findOne isObjectId db query
      /\ (isObjectId id = false -> findOne isObjectId db query = inl (CastError id))
      /\ (forall video, findOne isObjectId db query = inr (Some video) ->
            isObjectId id = true /\ db !! id = Some video /\ tenantId video = tenant)
      /\ (forall video, isObjectId id = true -> db !! id = Some video ->
            tenantId video = tenant -> findOne isObjectId db query = inr (Some video))
      /\ (isObjectId id = true ->
          (forall video, db !! id = Some video -> tenantId video <> tenant) ->
          findOne isObjectId db query = inr None)
  end.
Proof.
  unfold tenantQuery, findOneTenant, findOne. destruct tenant as [|c t]; [reflexivity|].
  cbn [truthy].
  set (query := ({["_id" := id]} : Object) ∪ {["tenantId" := String c t]}).
  assert (H1 : query !! "_id" = Some id).
  { unfold query. rewrite lookup_union, lookup_singleton_eq, lookup_singleton_ne by done.
    reflexivity. }
  assert (H2 : query !! "tenantId" = Some (String c t)).
  { unfold query. rewrite lookup_union, lookup_singleton_ne, lookup_singleton_eq by done.
    reflexivity. }
  rewrite H1, (firstMatch_by_id db query id H1).
  assert (Hs : forall video,
            satisfies query id video = bool_decide (tenantId video = String c t)).
  { intros video. unfold satisfies. rewrite H1, H2.
    rewrite bool_decide_eq_true_2 by reflexivity. cbn [andb].
    apply bool_decide_ext. split; congruence. }
  destruct (isObjectId id).
  2:{ split; [reflexivity|]. split; [reflexivity|]. repeat split; discriminate. }
  destruct (db !! id) as [video|].
  - rewrite Hs. destruct (decide (tenantId video = String c t)) as [E|E].
    + rewrite bool_decide_eq_true_2 by exact E. split; [reflexivity|].
      split; [discriminate|]. split; [intros ? [= <-]; auto|].
      split; [intros ? _ [= <-] _; reflexivity|].
      intros _ H. destruct (H video eq_refl E).
    + rewrite bool_decide_eq_false_2 by exact E. split; [reflexivity|].
      split; [discriminate|]. split; [discriminate|].
      split; [intros ? _ [= <-] ?; contradiction|reflexivity].
  - split; [reflexivity|]. split; [discriminate|]. split; [discriminate|].
    split; [discriminate|reflexivity].
Qed.

End TenantFacts.

Module LibraryFacts.
Import Js Pipeline PipelineSpec PipelineFacts Library LibrarySpec.

Lemma deleteFile_lookup (p q : string) (f : Fs) :
  deleteFile p f !! q = if decide (p = q /\ q <> EmptyString) then None else f !! q.
Proof.
  unfold deleteFile, existsSync.
  destruct (decide (p = q /\ q <> EmptyString)) as [[-> Hne]|Hn].
  - rewrite bool_decide_eq_false_2 by exact Hne. cbn [orb].
    case_bool_decide as He; cbn [negb].
    + apply lookup_delete_eq.
    + destruct (f !! q) eqn:E; [|reflexivity]. exfalso. apply He. eauto.
  - case_bool_decide as Hp; cbn [orb]; [reflexivity|].
    case_bool_decide as He; cbn [negb]; [|reflexivity].
    apply lookup_delete_ne. intros ->. apply Hn. auto.
Qed.

(** [deleteFile] here and in the pipeline's monad are the same function. *)
Lemma deleteFile_agrees (p : string) d f r t :
  Pipeline.deleteFile p (mkWorld d f r t) = (inr (), mkWorld d (deleteFile p f) r t).
Proof.
  unfold Pipeline.deleteFile, deleteFile, existsM, unlink, mbind, M_bind. cbn [fs db reported timers].
  destruct (bool_decide (p = "") || negb (existsSync f p)); reflexivity.
Qed.

Ltac settle :=
  exfalso; destruct_and?; simplify_eq; try tauto; destruct_or?; simplify_eq; try tauto;
  match goal with
  | n : ~ _ |- _ => apply n; clear n; split; [assumption|]; auto 6 using eq_sym
  end.

Lemma deleteIfSet_lookup (o : option string) (q : string) (f : Fs) :
  deleteIfSet o f !! q = if decide (o = Some q /\ q <> EmptyString) then None else f !! q.
Proof.
  unfold deleteIfSet. destruct o as [[|c p]|]; cbn [truthy]; [| rewrite deleteFile_lookup |];
    repeat destruct (decide _); try reflexivity; settle.
Qed.

Lemma deleteVideoFiles_lookup (video : Video) (filePath : option string) (f : Fs) (q : string) :
  deleteVideoFiles video filePath f !! q
  = if decide (named video filePath q) then None else f !! q.
Proof.
  unfold deleteVideoFiles.
  set (f1 := deleteIfSet (Some (originalFilePath video)) f).
  set (f2 := deleteIfSet (processedFilePath video) f1).
  set (f3 := deleteIfSet (thumbnailPath video) f2).
  assert (H3 : f3 !! q
               = if decide (q <> EmptyString
                            /\ (originalFilePath video = q \/ processedFilePath video = Some q
                                \/ thumbnailPath video = Some q))
                 then None else f !! q).
  { unfold f3, f2, f1. rewrite !deleteIfSet_lookup.
    repeat destruct (decide _); try reflexivity; settle. }
  destruct filePath as [[|c p]|]; cbn [truthy]; [|case_bool_decide as Hp|];
    rewrite ?deleteFile_lookup, H3; unfold named;
    repeat destruct (decide _); try reflexivity; settle.
Qed.

(** X15.  [deleteVideoFiles] removes exactly the files the record names:
    afterwards none of its original, derivative, thumbnail and legacy
    paths exists, every other file is as it was, and running it again
    changes nothing. *)
Theorem X15_deleteVideoFiles_removes_named (video : Video) (filePath : option string) (f : Fs) :
  (forall p, named video filePath p -> deleteVideoFiles video filePath f !! p = None)
  /\ (forall p, ~ named video filePath p ->
        deleteVideoFiles video filePath f !! p = f !! p)
  /\ deleteVideoFiles video filePath (deleteVideoFiles video filePath f)
     = deleteVideoFiles video filePath f.
Proof.
  split; [|split].
  - intros p H. rewrite deleteVideoFiles_lookup, decide_True by exact H. reflexivity.
  - intros p H. rewrite deleteVideoFiles_lookup, decide_False by exact H. reflexivity.
  - apply map_eq. intros p. rewrite !deleteVideoFiles_lookup.
    destruct (decide (named video filePath p)); reflexivity.
Qed.

(** X16.  [deleteVideo] acts only on a record of the caller's tenant: for
    such a record (its id casts to an ObjectId, as every stored id does)
    it answers 200, removes the record and exactly the files it names;
    for a record that is missing or belongs to another tenant, and for an
    id that does not cast, it answers 404 (500 when the caller has no
    tenant id) and changes nothing.  The job queue is never touched. *)
Theorem X16_deleteVideo_own_tenant_only (isObjectId : string -> bool)
    (tenant id : string) (s : Server) :
  let res := fst (deleteVideo isObjectId tenant id s) in
  let s' := snd (deleteVideo isObjectId tenant id s) in
  (forall video,
     isObjectId id = true ->
     videos s !! id = Some video -> tenantId video = tenant -> tenant <> EmptyString ->
     res_status res = 200
     /\ videos s' = delete id (videos s)
     /\ filePaths s' = delete id (filePaths s)
     /\ (forall p, named video (filePaths s !! id) p -> files s' !! p = None)
     /\ (forall p, ~ named video (filePaths s !! id) p -> files s' !! p = files s !! p))
  /\ ((forall video, videos s !! id = Some video -> tenantId video <> tenant) ->
      s' = s /\ res_status res = (if decide (tenant = EmptyString) then 500 else 404))
  /\ (isObjectId id = false ->
      s' = s /\ res_status res = (if decide (tenant = EmptyString) then 500 else 404))
  /\ (tenant = EmptyString -> s' = s /\ res_status res = 500)
  /\ queue s' = queue s.
Proof.
  cbn zeta. unfold deleteVideo, Stream.findOneTenant.
  destruct tenant as [|c t].
  { cbn. split; [intros ? _ _ _ []; reflexivity|]. repeat split. }
  destruct (isObjectId id).
  2:{ cbn. split; [discriminate|]. repeat split. discriminate. }
  destruct (videos s !! id) as [video|] eqn:Hv.
  - destruct (decide (tenantId video = String c t)) as [E|E]; cbn [fst snd].
    + split.
      { intros ? _ [= <-] _ _. cbn [videos filePaths files res_status answer].
        split; [reflexivity|]. split; [reflexivity|]. split; [reflexivity|].
        split; intros p H; rewrite deleteVideoFiles_lookup;
          [rewrite decide_True by exact H|rewrite decide_False by exact H]; reflexivity. }
      split; [intros H; destruct (H video eq_refl E)|].
      split; [discriminate|]. split; [discriminate|reflexivity].
    + split; [intros ? _ [= <-] ?; contradiction|].
      split; [intros _; split; reflexivity|].
      split; [discriminate|]. split; [discriminate|reflexivity].
  - cbn [fst snd]. split; [discriminate|].
    split; [intros _; split; reflexivity|].
    split; [discriminate|]. split; [discriminate|reflexivity].
Qed.

Section WithConfig.

Variable UPLOAD_PATH : string.
Variable extname : string -> string.

Local Abbreviation securePath req env fileInfo :=
  (getOriginalFilePath UPLOAD_PATH (user_tenantId req) (newId env)
     (getFileExtension extname (originalname fileInfo))).

Local Abbreviation uploaded_record req env fileInfo :=
  (mkVideo (user_tenantId req) (user_userId req) (securePath req env fileInfo) None None
           (Some (mimetype fileInfo)) None uploaded 0 low).

(** An upload that completes, step by step. *)
Lemma uploadVideo_success env req s fileInfo content :
  file req = Some fileInfo ->
  createError env = None -> renameError env = None ->
  files s !! path fileInfo = Some content ->
  uploadVideo UPLOAD_PATH extname env req s
  = (answer 201 "Video uploaded successfully. Processing started.",
     mkServer (<[newId env := uploaded_record req env fileInfo]> (videos s))
              (<[newId env := securePath req env fileInfo]> (filePaths s))
              (<[securePath req env fileInfo := content]> (delete (path fileInfo) (files s)))
              (if has_io req
               then Queue.addToQueue (Queue.mkJob (newId env) true) (queue s)
               else queue s)).
Proof.
  intros Hf Hc Hr Ht. unfold uploadVideo, renameToSecurePath.
  rewrite Hf, Hc, Hr. cbn [files]. rewrite Ht. cbn [videos filePaths files queue].
  rewrite !insert_insert_eq. destruct (has_io req); reflexivity.
Qed.

(** X17.  An upload that completes (a file was received, the record is
    created and the temporary file renamed) answers 201; it stores one
    new record, of the caller's tenant and user, with status uploaded,
    no derivative and no thumbnail, its original under the secure name;
    the content received is at that path and no longer at the temporary
    one; no other record or file changes; and with a push transport the
    job is handed to the queue. *)
Theorem X17_upload_stores_record_and_file env req s fileInfo content :
  file req = Some fileInfo ->
  createError env = None -> renameError env = None ->
  files s !! path fileInfo = Some content ->
  let res := fst (uploadVideo UPLOAD_PATH extname env req s) in
  let s' := snd (uploadVideo UPLOAD_PATH extname env req s) in
  let secure := securePath req env fileInfo in
  res_status res = 201
  /\ (exists video,
        videos s' !! newId env = Some video
        /\ storedByUpload UPLOAD_PATH (newId env) video
        /\ originalFilePath video = secure
        /\ tenantId video = user_tenantId req /\ uploadedBy video = user_userId req
        /\ status video = uploaded
        /\ mimeType video = Some (mimetype fileInfo))
  /\ (forall other, other <> newId env -> videos s' !! other = videos s !! other)
  /\ files s' !! secure = Some content
  /\ (path fileInfo <> secure -> files s' !! path fileInfo = None)
  /\ (forall p, p <> secure -> p <> path fileInfo -> files s' !! p = files s !! p)
  /\ queue s' = (if has_io req
                 then Queue.addToQueue (Queue.mkJob (newId env) true) (queue s)
                 else queue s).
Proof.
  intros Hf Hc Hr Ht. cbn zeta.
  rewrite (uploadVideo_success env req s fileInfo content Hf Hc Hr Ht).
  cbn [fst snd videos filePaths files queue res_status answer].
  split; [reflexivity|]. split.
  { eexists. split; [apply lookup_insert_eq|].
    split; [split; [eexists; reflexivity|split; reflexivity]|].
    repeat split; reflexivity. }
  split; [intros other Ho; apply lookup_insert_ne; congruence|].
  split; [apply lookup_insert_eq|].
  split; [intros Hne; rewrite lookup_insert_ne by congruence; apply lookup_delete_eq|].
  split; [|reflexivity].
  intros p H1 H2. rewrite lookup_insert_ne by congruence. apply lookup_delete_ne. congruence.
Qed.

(** X18.  An upload that fails leaves no trace: when no file was received
    nothing changes; when creating the record or renaming the temporary
    file fails (for a fresh, non-empty record id and a non-empty
    temporary path) the answer is an error, the records, the legacy
    paths and the queue are as before, and the files are as before but
    for the temporary file, which is removed. *)
Theorem X18_failed_upload_leaves_no_trace env req s :
  uploadFails env req s ->
  videos s !! newId env = None -> filePaths s !! newId env = None ->
  newId env <> EmptyString ->
  let res := fst (uploadVideo UPLOAD_PATH extname env req s) in
  let s' := snd (uploadVideo UPLOAD_PATH extname env req s) in
  videos s' = videos s /\ filePaths s' = filePaths s /\ queue s' = queue s
  /\ match file req with
     | None => res_status res = 400 /\ files s' = files s
     | Some fileInfo =>
         path fileInfo <> EmptyString ->
         files s' = delete (path fileInfo) (files s)
         /\ (createError env = None -> res_status res = 500)
     end.
Proof.
  intros Hfail Hv Hp Hid. cbn zeta. unfold uploadFails in Hfail. unfold uploadVideo.
  destruct (file req) as [fileInfo|]; [|cbn; auto].
  destruct (createError env) as [[status message]|] eqn:Hc.
  { cbn [fst snd]. unfold cleanupUploadedFile.
    destruct (path fileInfo) as [|c t] eqn:Ept; cbn [truthy videos filePaths queue files].
    - repeat split; try reflexivity; contradiction.
    - repeat split; try reflexivity; discriminate. }
  cbn [videos filePaths files queue].
  assert (Hren : exists message,
             renameToSecurePath (renameError env) (path fileInfo) (securePath req env fileInfo)
                                (files s) = inl message).
  { unfold renameToSecurePath. destruct Hfail as [H|[H|H]]; [contradiction| |].
    - destruct (renameError env); [eauto|contradiction].
    - rewrite H. destruct (renameError env); eauto. }
  destruct Hren as [message ->]. cbn [fst snd].
  destruct (newId env) as [|ci ti] eqn:Eid; [contradiction|]. cbn [truthy].
  unfold cleanupUploadedFile, cleanupVideoRecord, findById.
  destruct (path fileInfo) as [|c t] eqn:Ept; cbn [truthy videos filePaths queue files].
  - rewrite !lookup_insert_eq. cbn [videos filePaths queue files].
    rewrite !delete_insert_id by assumption.
    repeat split; try reflexivity; contradiction.
  - rewrite !lookup_insert_eq. cbn [videos filePaths queue files].
    rewrite !delete_insert_id by assumption.
    split; [reflexivity|]. split; [reflexivity|]. split; [reflexivity|].
    intros _. split; [|reflexivity].
    apply map_eq. intros p. rewrite deleteVideoFiles_lookup.
    destruct (decide _) as [(Hne & [H|[H|[H|H]]])|]; try discriminate; try reflexivity.
    + cbn in H. subst p. rewrite lookup_delete_eq. reflexivity.
    + injection H as <-. rewrite lookup_delete_eq. reflexivity.
Qed.

End WithConfig.

End LibraryFacts.

Module PipelineGuarantees.
Import Js Pipeline PipelineSpec PipelineFacts.

Lemma removed_other (stored : option string) (p : string) (f : Fs) :
  stored <> Some p -> removed stored f !! p = f !! p.
Proof.
  intros H. unfold removed. destruct (truthy stored) as [q|] eqn:Hq; [|reflexivity].
  destruct (existsSync f q); [|reflexivity].
  apply lookup_delete_ne. intros ->. apply H.
  destruct stored as [[|c s]|]; cbn in Hq; congruence.
Qed.

Section WithConfig.

Variable UPLOAD_PATH : string.
Variable extname : string -> string.

Local Abbreviation derivative := (derivativePath UPLOAD_PATH extname).
Local Abbreviation thumb := (thumbPath UPLOAD_PATH).

(** What the [try] block leaves of the record and the files. *)
Lemma tryResult_frame E id w r w1 :
  tryResult UPLOAD_PATH extname E id w = (r, w1) ->
  (forall other, other <> id -> db w1 !! other = db w !! other)
  /\ (forall v p, db w !! id = Some v -> p <> derivative v id -> p <> thumb v id ->
        fs w1 !! p = fs w !! p)
  /\ (db w !! id = None -> w1 = w /\ r = inl "Video not found")
  /\ (forall v, db w !! id = Some v ->
        exists v1,
          db w1 !! id = Some v1
          /\ tenantId v1 = tenantId v /\ originalFilePath v1 = originalFilePath v
          /\ mimeType v1 = mimeType v
          /\ match r with
             | inl _ =>
                 processedFilePath v1 = processedFilePath v
                 /\ thumbnailPath v1 = thumbnailPath v
             | inr o =>
                 video o = v1
                 /\ processedFilePath v1 = Some (derivative v id)
                 /\ (status v1 = safe \/ status v1 = flagged)
                 /\ fs w1 = written (thumb v id) (thumbnailOutput E)
                              (written (derivative v id) (transcodeOutput E) (fs w))
             end)
  /\ (exists more, reported w1 = reported w ++ more).
Proof.
  destruct w as [d f rep t]. unfold tryResult. cbn [db fs reported timers].
  destruct (d !! id) as [v|] eqn:Hd.
  2:{ intros [= <- <-]. cbn [db fs reported].
      split; [reflexivity|]. split; [discriminate|]. split; [auto|].
      split; [discriminate|]. exists []. now rewrite app_nil_r. }
  assert (Hsame : forall v1 : Video,
            tenantId v1 = tenantId v -> originalFilePath v1 = originalFilePath v ->
            mimeType v1 = mimeType v -> processedFilePath v1 = processedFilePath v ->
            thumbnailPath v1 = thumbnailPath v ->
            forall (d1 : Db), d1 !! id = Some v1 ->
            forall v0, Some v = Some v0 ->
            exists v1', d1 !! id = Some v1'
              /\ tenantId v1' = tenantId v0 /\ originalFilePath v1' = originalFilePath v0
              /\ mimeType v1' = mimeType v0
              /\ processedFilePath v1' = processedFilePath v0
                 /\ thumbnailPath v1' = thumbnailPath v0).
  { intros v1 ? ? ? ? ? d1 ? v0 [= <-]. exists v1. auto 10. }
  destruct (existsSync f (originalFilePath v)); cbn [negb].
  2:{ intros [= <- <-]. cbn [db fs reported].
      split; [reflexivity|]. split; [reflexivity|]. split; [discriminate|].
      split; [apply (Hsame v); auto|]. exists []. now rewrite app_nil_r. }
  destruct (mkdirError E) as [m|].
  { intros [= <- <-]. cbn [db fs reported].
    split; [intros other Ho; apply lookup_insert_ne; congruence|].
    split; [reflexivity|]. split; [discriminate|].
    split; [apply (Hsame (set_progress 0 (set_status processing v))); auto;
            apply lookup_insert_eq|].
    eexists. reflexivity. }
  destruct (transcodeError E) as [m|].
  { intros [= <- <-]. cbn [db fs reported].
    split; [intros other Ho; apply lookup_insert_ne; congruence|].
    split; [intros v0 p [= <-] H1 H2; apply written_other; congruence|].
    split; [discriminate|].
    split; [apply (Hsame (set_progress 0 (set_status processing v))); auto;
            apply lookup_insert_eq|].
    eexists. rewrite <- app_assoc. reflexivity. }
  destruct (thumbnailError E) as [m|].
  { intros [= <- <-]. cbn [db fs reported].
    split; [intros other Ho; apply lookup_insert_ne; congruence|].
    split; [intros v0 p [= <-] H1 H2; rewrite !written_other by congruence; reflexivity|].
    split; [discriminate|].
    split; [apply (Hsame (set_progress 0 (set_status processing v))); auto;
            apply lookup_insert_eq|].
    eexists. rewrite <- !app_assoc. reflexivity. }
  destruct (metadata E) as [m|dur].
  { intros [= <- <-]. cbn [db fs reported].
    split; [intros other Ho; apply lookup_insert_ne; congruence|].
    split; [intros v0 p [= <-] H1 H2; rewrite !written_other by congruence; reflexivity|].
    split; [discriminate|].
    split; [apply (Hsame (set_progress 0 (set_status processing v))); auto;
            apply lookup_insert_eq|].
    eexists. rewrite <- !app_assoc. reflexivity. }
  intros [= <- <-]. cbn [db fs reported video].
  split; [intros other Ho; rewrite !lookup_insert_ne by congruence; reflexivity|].
  split; [intros v0 p [= <-] H1 H2; rewrite !written_other by congruence; reflexivity|].
  split; [discriminate|].
  split.
  - intros v0 [= <-]. eexists. split; [apply lookup_insert_eq|].
    rewrite finalRecord_status.
    unfold finalRecord.
    destruct (Sensitivity.flagged _); cbn; auto 10.
  - eexists. rewrite <- !app_assoc. reflexivity.
Qed.

(** What a whole run leaves of the record and the files. *)
Lemma processVideo_frame E id w r w' :
  processVideo UPLOAD_PATH extname E id w = (r, w') ->
  (forall other, other <> id -> db w' !! other = db w !! other)
  /\ (forall v p, db w !! id = Some v ->
        p <> derivative v id -> p <> thumb v id ->
        processedFilePath v <> Some p -> thumbnailPath v <> Some p ->
        fs w' !! p = fs w !! p)
  /\ (db w !! id = None -> w' = w /\ r = inl "Video not found")
  /\ (forall v, db w !! id = Some v ->
        exists v',
          db w' !! id = Some v'
          /\ tenantId v' = tenantId v /\ originalFilePath v' = originalFilePath v
          /\ mimeType v' = mimeType v
          /\ match r with
             | inl _ =>
                 status v' = failed
                 /\ processedFilePath v' = processedFilePath v
                 /\ thumbnailPath v' = thumbnailPath v
             | inr o =>
                 video o = v'
                 /\ processedFilePath v' = Some (derivative v id)
                 /\ (status v' = safe \/ status v' = flagged)
                 /\ fs w' = written (thumb v id) (thumbnailOutput E)
                              (written (derivative v id) (transcodeOutput E) (fs w))
             end)
  /\ (exists more, reported w' = reported w ++ more).
Proof.
  rewrite processVideo_run.
  destruct (tryResult UPLOAD_PATH extname E id w) as [[e|o] w1] eqn:Htry;
    destruct (tryResult_frame E id w _ w1 Htry) as (Hother & Hfiles & Hnone & Hrec & Hrep);
    intros [= <- <-].
  2:{ split; [exact Hother|]. split; [intros v p Hv H1 H2 _ _; apply (Hfiles v p Hv H1 H2)|].
      split; [exact Hnone|]. split; [exact Hrec|exact Hrep]. }
  unfold catchResult.
  destruct (db w !! id) as [v|] eqn:Hd.
  - destruct (Hrec v eq_refl) as (v1 & Hv1 & Ht & Ho & Hm & Hp & Hth).
    rewrite Hv1. cbn [db fs reported].
    split; [intros other Hne; rewrite lookup_insert_ne by congruence; apply Hother, Hne|].
    split.
    { intros v0 p [= <-] H1 H2 H3 H4.
      rewrite !removed_other by congruence. apply (Hfiles v p eq_refl H1 H2). }
    split; [discriminate|]. split; [|exact Hrep].
    intros v0 [= <-]. eexists. split; [apply lookup_insert_eq|]. cbn. auto 10.
  - destruct (Hnone eq_refl) as [-> He]. rewrite Hd.
    split; [reflexivity|]. split; [discriminate|]. split; [auto|].
    split; [discriminate|exact Hrep].
Qed.

(** X19.  A run of the pipeline touches only what belongs to its record:
    every other record is as before; every media file is as before,
    except the derivative and thumbnail paths the run computes and the
    derivative and thumbnail paths stored in the record (the frame files
    the scan writes and deletes in its [temp_frames] directory are not
    media files and are left out of the statement); the record itself
    keeps its tenant and its original path and is neither created nor
    removed; for an id that names no record the run changes nothing; and
    the progress reports already made are kept. *)
Theorem X19_run_touches_only_its_record E id w r w' :
  processVideo UPLOAD_PATH extname E id w = (r, w') ->
  (forall other, other <> id -> db w' !! other = db w !! other)
  /\ (forall v p, db w !! id = Some v ->
        ~ inScanDirectory UPLOAD_PATH v p ->
        p <> derivative v id -> p <> thumb v id ->
        processedFilePath v <> Some p -> thumbnailPath v <> Some p ->
        fs w' !! p = fs w !! p)
  /\ (db w !! id = None -> w' = w /\ r = inl "Video not found")
  /\ (forall v, db w !! id = Some v ->
        exists v', db w' !! id = Some v'
                   /\ tenantId v' = tenantId v
                   /\ originalFilePath v' = originalFilePath v)
  /\ (exists more, reported w' = reported w ++ more).
Proof.
  intros Hrun.
  destruct (processVideo_frame E id w r w' Hrun) as (H1 & H2 & H3 & H4 & H5).
  split; [exact H1|]. split; [intros v p Hv _; apply (H2 v p Hv)|].
  split; [exact H3|]. split; [|exact H5].
  intros v Hv. destruct (H4 v Hv) as (v' & Hv' & Ht & Ho & _). eauto.
Qed.

End WithConfig.

End PipelineGuarantees.

Module EndToEnd.
Import Js Stream StreamSpec StreamWords StreamFacts Pipeline PipelineSpec PipelineFacts
  PipelineGuarantees.
Import Library LibrarySpec LibraryFacts.

Lemma path_join_nonempty (a b c : string) : path_join a b c <> EmptyString.
Proof. unfold path_join. destruct a; discriminate. Qed.

Section WithConfig.

Variable UPLOAD_PATH : string.
Variable extname : string -> string.
Variable jwt_verify : string -> option Decoded.
Variable isObjectId : string -> bool.

Local Abbreviation derivative := (derivativePath UPLOAD_PATH extname).
Local Abbreviation thumb := (thumbPath UPLOAD_PATH).
Local Abbreviation GET := (streamVideo jwt_verify extname isObjectId).

Lemma derivative_not_thumb (v : Video) (id : string) : derivative v id <> thumb v id.
Proof.
  unfold derivativePath, thumbPath, getProcessedFilePath, getThumbnailPath, path_join.
  intros H.
  apply append_cancel_l in H; apply (append_cancel_l "/") in H;
    apply append_cancel_l in H; apply (append_cancel_l "/") in H;
    apply append_cancel_l in H; discriminate H.
Qed.

Lemma asks_resolves (db : Db) (req : Request) (id : string) (v : Video) :
  asks jwt_verify isObjectId req id (tenantId v) -> tenantId v <> EmptyString -> db !! id = Some v ->
  resolves jwt_verify isObjectId db req v.
Proof.
  intros (Hid & Hcast & decoded & Hv & Ht) Hne Hdb. exists decoded. split; [exact Hv|].
  rewrite Ht, Hid. apply findOneTenant_found; trivial.
Qed.

Lemma serves_whole_file db fs req v path content :
  serves jwt_verify isObjectId db fs req v path content -> range req = None ->
  res_status (GET db fs req) = 200 /\ res_body (GET db fs req) = BodyBytes content.
Proof.
  intros Hs Hr. rewrite (streamVideo_serves _ _ _ _ _ _ _ _ _ Hs), Hr.
  unfold respond, parseRange. cbn [truthy]. split; reflexivity.
Qed.

Lemma completed_run_serves E id w o w' v req content :
  processVideo UPLOAD_PATH extname E id w = (inr o, w') ->
  db w !! id = Some v ->
  transcodeOutput E = Some content ->
  asks jwt_verify isObjectId req id (tenantId v) -> tenantId v <> EmptyString ->
  db w' !! id = Some (video o)
  /\ (status (video o) = safe \/ status (video o) = flagged)
  /\ serves jwt_verify isObjectId (db w') (fs w') req (video o) (derivative v id) content
  /\ serves jwt_verify isObjectId (db (promote id w')) (fs (promote id w')) req
            (set_status ready (video o)) (derivative v id) content.
Proof.
  intros Hrun Hv Hout Hasks Hne.
  destruct (processVideo_frame UPLOAD_PATH extname E id w _ w' Hrun) as (_ & _ & _ & Hrec & _).
  destruct (Hrec v Hv) as (v' & Hv' & Ht & Ho & Hm & <- & Hp & Hst & Hfs).
  assert (Hfile : fs w' !! derivative v id = Some content).
  { rewrite Hfs, Hout. rewrite written_other by (apply not_eq_sym, derivative_not_thumb).
    apply lookup_insert_eq. }
  assert (Hsel : forall x : Video,
            processedFilePath x = Some (derivative v id) ->
            selectFile (fs w') x = Some (derivative v id)).
  { intros x Hx. unfold selectFile, or_else. rewrite Hx.
    pose proof (path_join_nonempty UPLOAD_PATH (tenantId v)
                  (id +:+ "_processed." +:+
                   match getFileExtension extname (originalFilePath v) with
                   | EmptyString => "mp4" | e => e end)) as Hnonempty.
    change (path_join _ _ _) with (derivative v id) in Hnonempty.
    destruct (derivative v id) as [|c t] eqn:Ed; [contradiction|].
    cbn [truthy]. unfold existsSync. rewrite Hfile.
    rewrite bool_decide_eq_true_2 by eauto. reflexivity. }
  split; [exact Hv'|]. split; [exact Hst|]. split.
  - split; [apply (asks_resolves _ _ id); [rewrite Ht| rewrite Ht |]; trivial|].
    split; [destruct Hst as [-> | ->]; discriminate|].
    split; [destruct Hst as [-> | ->]; discriminate|].
    split; [apply Hsel, Hp|exact Hfile].
  - assert (Hdb : db (promote id w') !! id = Some (set_status ready (video o))).
    { unfold promote, findById. rewrite Hv'.
      replace (bool_decide (status (video o) = safe) || bool_decide (status (video o) = flagged))
        with true by (destruct Hst as [-> | ->]; reflexivity).
      cbn [db]. apply lookup_insert_eq. }
    assert (Hf : fs (promote id w') = fs w').
    { unfold promote, findById. rewrite Hv'.
      destruct (bool_decide _ || bool_decide _); reflexivity. }
    rewrite Hf.
    split; [apply (asks_resolves _ _ id); cbn [tenantId set_status];
            [rewrite Ht| rewrite Ht |]; trivial|].
    split; [discriminate|]. split; [discriminate|].
    split; [apply Hsel; exact Hp|exact Hfile].
Qed.

Lemma failed_run_serves E id w e w' v req content :
  processVideo UPLOAD_PATH extname E id w = (inl e, w') ->
  db w !! id = Some v ->
  storedByUpload UPLOAD_PATH id v ->
  fs w !! originalFilePath v = Some content ->
  asks jwt_verify isObjectId req id (tenantId v) -> tenantId v <> EmptyString ->
  exists v',
    db w' !! id = Some v' /\ status v' = failed
    /\ fs w' !! originalFilePath v = Some content
    /\ serves jwt_verify isObjectId (db w') (fs w') req v' (originalFilePath v) content.
Proof.
  intros Hrun Hv Hup Hfile Hasks Hne.
  destruct (processVideo_frame UPLOAD_PATH extname E id w _ w' Hrun)
    as (_ & Hfiles & _ & Hrec & _).
  destruct (Hrec v Hv) as (v' & Hv' & Ht & Ho & Hm & Hst & Hp & Hth).
  pose proof Hup as ([ext Hext] & Hpn & Htn).
  assert (Hkept : fs w' !! originalFilePath v = Some content).
  { rewrite <- Hfile. apply (Hfiles v _ Hv).
    - rewrite Hext. apply original_not_generated.
    - rewrite Hext. apply original_not_generated.
    - rewrite Hpn. discriminate.
    - rewrite Htn. discriminate. }
  exists v'. split; [exact Hv'|]. split; [exact Hst|]. split; [exact Hkept|].
  split; [apply (asks_resolves _ _ id); [rewrite Ht| rewrite Ht |]; trivial|].
  split; [rewrite Hst; discriminate|]. split; [rewrite Hst; discriminate|].
  split; [|exact Hkept].
  rewrite <- Ho. apply (selectFile_original _ _ content).
  - rewrite Hp, Hpn. reflexivity.
  - rewrite Ho. exact Hkept.
  - rewrite Ho, Hext. apply path_join_nonempty.
Qed.

(** X20.  After a run that completes and whose transcode wrote a file, a
    request for the record by a token of its tenant reaches the
    derivative, not the original: without a Range header it is answered
    200 with the transcoded bytes, and the same holds once the delayed
    promotion has set the status to ready. *)
Theorem X20_completed_run_streams_derivative E id w o w' v req content :
  processVideo UPLOAD_PATH extname E id w = (inr o, w') ->
  db w !! id = Some v ->
  transcodeOutput E = Some content ->
  asks jwt_verify isObjectId req id (tenantId v) -> tenantId v <> EmptyString ->
  serves jwt_verify isObjectId (db w') (fs w') req (video o) (derivative v id) content
  /\ serves jwt_verify isObjectId (db (promote id w')) (fs (promote id w')) req
            (set_status ready (video o)) (derivative v id) content
  /\ (range req = None ->
      res_status (GET (db w') (fs w') req) = 200
      /\ res_body (GET (db w') (fs w') req) = BodyBytes content
      /\ GET (db (promote id w')) (fs (promote id w')) req = GET (db w') (fs w') req).
Proof.
  intros Hrun Hv Hout Hasks Hne.
  destruct (completed_run_serves E id w o w' v req content Hrun Hv Hout Hasks Hne)
    as (_ & _ & Hs & Hs').
  split; [exact Hs|]. split; [exact Hs'|]. intros Hr.
  destruct (serves_whole_file _ _ _ _ _ _ Hs Hr) as [H1 H2].
  split; [exact H1|]. split; [exact H2|].
  rewrite (streamVideo_serves _ _ _ _ _ _ _ _ _ Hs), (streamVideo_serves _ _ _ _ _ _ _ _ _ Hs').
  reflexivity.
Qed.

(** X21.  A failed run does not take the video offline: for a record as
    the upload handler stores it whose original is on disk, after a run
    that throws the record is marked failed, the original is untouched,
    and a request by a token of its tenant is served the original (200
    with the whole file when there is no Range header). *)
Theorem X21_failed_run_streams_original E id w e w' v req content :
  processVideo UPLOAD_PATH extname E id w = (inl e, w') ->
  db w !! id = Some v ->
  storedByUpload UPLOAD_PATH id v ->
  fs w !! originalFilePath v = Some content ->
  asks jwt_verify isObjectId req id (tenantId v) -> tenantId v <> EmptyString ->
  exists v',
    db w' !! id = Some v' /\ status v' = failed
    /\ fs w' !! originalFilePath v = Some content
    /\ serves jwt_verify isObjectId (db w') (fs w') req v' (originalFilePath v) content
    /\ (range req = None ->
        res_status (GET (db w') (fs w') req) = 200
        /\ res_body (GET (db w') (fs w') req) = BodyBytes content).
Proof.
  intros Hrun Hv Hup Hfile Hasks Hne.
  destruct (failed_run_serves E id w e w' v req content Hrun Hv Hup Hfile Hasks Hne)
    as (v' & H1 & H2 & H3 & Hs).
  exists v'. split; [exact H1|]. split; [exact H2|]. split; [exact H3|].
  split; [exact Hs|]. intros Hr. apply (serves_whole_file _ _ _ _ _ _ Hs Hr).
Qed.

(** X22.  The life of an upload.  After an upload that completes, the
    video is not served while its status is uploaded (403); after the
    run of the pipeline on it, whatever the external engine did, the
    original is still on disk with the content received and the record
    still belongs to the uploader's tenant; if the run threw, the record
    is failed and a request of that tenant is served the original; if
    it completed, the record is safe or flagged and the request is
    served the file the transcode wrote. *)
Theorem X22_uploaded_video_lifecycle env upload s fileInfo content E r w' req :
  file upload = Some fileInfo ->
  createError env = None -> renameError env = None ->
  files s !! path fileInfo = Some content ->
  user_tenantId upload <> EmptyString ->
  let s1 := snd (uploadVideo UPLOAD_PATH extname env upload s) in
  let id := newId env in
  let secure := getOriginalFilePath UPLOAD_PATH (user_tenantId upload) id
                  (getFileExtension extname (originalname fileInfo)) in
  processVideo UPLOAD_PATH extname E id (mkWorld (videos s1) (files s1) [] []) = (r, w') ->
  asks jwt_verify isObjectId req id (user_tenantId upload) ->
  res_status (GET (videos s1) (files s1) req) = 403
  /\ fs w' !! secure = Some content
  /\ exists v',
       db w' !! id = Some v' /\ tenantId v' = user_tenantId upload
       /\ match r with
          | inl _ =>
              status v' = failed
              /\ serves jwt_verify isObjectId (db w') (fs w') req v' secure content
          | inr o =>
              (status v' = safe \/ status v' = flagged)
              /\ forall transcoded,
                   transcodeOutput E = Some transcoded ->
                   exists path, serves jwt_verify isObjectId (db w') (fs w') req v' path transcoded
          end.
Proof.
  intros Hf Hc Hr Ht Hne. cbn zeta.
  rewrite (uploadVideo_success UPLOAD_PATH extname env upload s fileInfo content Hf Hc Hr Ht).
  cbn [snd videos files].
  set (id := newId env).
  set (secure := getOriginalFilePath UPLOAD_PATH (user_tenantId upload) id
                   (getFileExtension extname (originalname fileInfo))).
  set (v := mkVideo (user_tenantId upload) (user_userId upload) secure None None
                    (Some (mimetype fileInfo)) None uploaded 0 low).
  set (d := <[id := v]> (videos s)).
  set (f := <[secure := content]> (delete (path fileInfo) (files s))).
  intros Hrun Hasks.
  assert (Hv : d !! id = Some v) by apply lookup_insert_eq.
  assert (Hfile : f !! secure = Some content) by apply lookup_insert_eq.
  assert (Hup : storedByUpload UPLOAD_PATH id v)
    by (split; [eexists; reflexivity|split; reflexivity]).
  split.
  { rewrite (streamVideo_not_ready jwt_verify extname isObjectId d f req v); [reflexivity| |left; reflexivity].
    apply (asks_resolves d req id v); trivial. }
  destruct r as [e|o].
  - destruct (failed_run_serves E id _ e w' v req content Hrun Hv Hup Hfile Hasks Hne)
      as (v' & H1 & H2 & H3 & Hs).
    split; [exact H3|]. exists v'. split; [exact H1|].
    destruct (processVideo_frame UPLOAD_PATH extname E id _ _ w' Hrun) as (_ & _ & _ & Hrec & _).
    destruct (Hrec v Hv) as (v'' & Hv'' & Htn & _). cbn [db] in *.
    assert (v'' = v') by congruence. subst v''.
    split; [exact Htn|]. split; [exact H2|exact Hs].
  - destruct (processVideo_frame UPLOAD_PATH extname E id _ _ w' Hrun)
      as (_ & Hfiles & _ & Hrec & _).
    destruct (Hrec v Hv) as (v' & Hv' & Htn & _ & _ & Hvo & _ & Hst & _).
    split.
    { rewrite <- Hfile. apply (Hfiles v secure Hv).
      - apply original_not_generated.
      - apply original_not_generated.
      - discriminate.
      - discriminate. }
    exists v'. split; [exact Hv'|]. split; [exact Htn|]. split; [exact Hst|].
    intros transcoded Hout.
    destruct (completed_run_serves E id _ o w' v req transcoded Hrun Hv Hout Hasks Hne)
      as (_ & _ & Hs & _).
    rewrite Hvo in Hs. eexists. exact Hs.
Qed.

End WithConfig.

End EndToEnd.

Module QueueStatusFacts.
Import Queue QueueSpec QueueFacts QueueStatus.

(** X23.  What [getQueueStatus] reports in any state the queue can reach:
    [currentVideo] is set exactly while [isProcessing] holds and is then
    the id of the job started last, which has not finished;
    [queueLength] counts the jobs handed to [addToQueue] that have not
    been started, the job in flight not included; and every job started
    before the one in flight has finished. *)
Theorem X23_queue_status_report (acts : list Action) (s : State) :
  run acts initial = Some s ->
  let report := getQueueStatus s in
  (isProcessing report = true <-> is_Some (currentVideo report))
  /\ currentVideo report
     = (if isProcessing report then videoId <$> last (started (trace s)) else None)
  /\ (queueLength report + length (started (trace s)) = length (enqueued acts))%nat
  /\ (length (finished (trace s)) + (if isProcessing report then 1 else 0)
      = length (started (trace s)))%nat
  /\ processingQueue s = drop (length (started (trace s))) (enqueued acts).
Proof.
  intros Hrun. cbn zeta.
  destruct initial_consistent as [Hc Hl].
  destruct (run_consistent acts [] initial s Hc Hl Hrun) as [(H1 & _ & H3 & H4 & H5) _].
  cbn [app] in H1. unfold getQueueStatus. cbn [isProcessing currentVideo queueLength].
  rewrite H4, H5. unfold inFlight in H3.
  split; [|split; [|split; [|split]]].
  - destruct (running s); cbn; split; intros H; eauto; try discriminate.
    destruct H as [? [=]].
  - destruct (running s) as [job|]; [|reflexivity].
    rewrite <- H3, last_snoc. reflexivity.
  - rewrite <- H1, length_app. lia.
  - rewrite <- H3. destruct (running s); rewrite length_app; cbn; lia.
  - rewrite <- H1, drop_app_length. reflexivity.
Qed.

End QueueStatusFacts.

Module RoutesFacts.
Import Js Stream StreamWords StreamGuarantees Library LibrarySpec LibraryFacts Routes.

Section WithLibraries.

Variable jwt : string -> JwtError + Decoded.
Variable isObjectId : string -> bool.

Lemma bearer_token (req : Request) (bearer : string) :
  authorization req = Some ("Bearer " +:+ bearer) ->
  no_space bearer = true -> bearer <> EmptyString ->
  selectToken req = Some bearer.
Proof.
  intros Ha Hs Hne. unfold selectToken. rewrite Ha.
  change ("Bearer " +:+ bearer) with ("Bearer" +:+ " " +:+ bearer).
  rewrite (split_space_word "Bearer" bearer eq_refl), (split_space_no_space _ Hs).
  cbn. destruct bearer; [contradiction|reflexivity].
Qed.

Lemma or_else_attached (decoded : Decoded) (stored : string) :
  or_else (Some (tok_tenantId decoded)) (Some stored) = Some (attached decoded stored).
Proof.
  unfold or_else, attached. destruct (tok_tenantId decoded); reflexivity.
Qed.

(** X24.  [authenticate] against the stream handlers' own check, on a
    request whose Authorization header is [Bearer] followed by a token:
    [authenticate] reads that token even when a [token] query parameter
    is present, while the stream handlers read the query parameter
    first; [authenticate] refuses a valid token whose user is no longer
    stored, while the stream handlers accept it; and the tenant it
    attaches is the token's, or the stored user's when the token has
    none. *)
Theorem X24_authenticate_header_first (users : gmap string string) (req : Request)
    (bearer : string) :
  authorization req = Some ("Bearer " +:+ bearer) ->
  no_space bearer = true -> bearer <> EmptyString ->
  selectToken req = Some bearer
  /\ (forall q, query_token req = Some q -> q <> EmptyString ->
        verifyToken (jwt_verify jwt) req = jwt_verify jwt q)
  /\ (truthy (query_token req) = None ->
        verifyToken (jwt_verify jwt) req = jwt_verify jwt bearer)
  /\ (forall decoded, jwt bearer = inr decoded ->
        authenticate jwt users req
        = match users !! tok_userId decoded with
          | None => inl (UnauthorizedError "User no longer exists")
          | Some stored =>
              inr (mkUser (tok_userId decoded) (tok_role decoded)
                          (Some (attached decoded stored)))
          end)
  /\ (forall e, jwt bearer = inl e ->
        exists err, authenticate jwt users req = inl err
                    /\ (statusCode err = 401 \/ statusCode err = 500)).
Proof.
  intros Ha Hs Hne. pose proof (bearer_token req bearer Ha Hs Hne) as Hsel.
  split; [exact Hsel|]. split; [|split; [|split]].
  - intros q Hq Hqne. unfold verifyToken, or_else. rewrite Hq.
    destruct q; [contradiction|reflexivity].
  - intros Hq. unfold verifyToken, or_else. rewrite Hq, Ha.
    change ("Bearer " +:+ bearer) with ("Bearer" +:+ " " +:+ bearer).
    rewrite (split_space_word "Bearer" bearer eq_refl), (split_space_no_space _ Hs).
    cbn. destruct bearer; [contradiction|reflexivity].
  - intros decoded Hj. unfold authenticate. rewrite Hsel, Hj.
    destruct (users !! tok_userId decoded); [|reflexivity].
    rewrite or_else_attached. reflexivity.
  - intros e Hj. unfold authenticate. rewrite Hsel, Hj.
    destruct e; eexists; (split; [reflexivity|]); cbn; auto.
Qed.

(** X25.  The DELETE route removes something only for an administrator of
    the record's tenant: when it answers 200 or changes the server, the
    request carried a token that verifies, whose user is still stored,
    whose role is admin, and the record named belongs to the tenant
    attached to that user; then the record is removed.  In every other
    case the server is as before and the answer is 401, 403, 404 or
    500. *)
Theorem X25_delete_route_admin_of_tenant (users : gmap string string) (req : Request)
    (s : Server) :
  let res := fst (deleteRoute jwt isObjectId users req s) in
  let s' := snd (deleteRoute jwt isObjectId users req s) in
  (res_status res = 200 \/ s' <> s ->
     exists token decoded stored video,
       selectToken req = Some token /\ jwt token = inr decoded
       /\ users !! tok_userId decoded = Some stored
       /\ tok_role decoded = "admin"
       /\ videos s !! videoId req = Some video
       /\ tenantId video = attached decoded stored
       /\ res_status res = 200
       /\ videos s' = delete (videoId req) (videos s))
  /\ (res_status res <> 200 ->
      s' = s
      /\ (res_status res = 401 \/ res_status res = 403
          \/ res_status res = 404 \/ res_status res = 500))
  /\ queue s' = queue s.
Proof.
  cbn zeta. unfold deleteRoute, authenticate.
  destruct (selectToken req) as [token|] eqn:Hsel.
  2:{ cbn. split; [intros [H|H]; [discriminate|contradiction]|]. auto. }
  destruct (jwt token) as [e|decoded] eqn:Hj.
  { destruct e; cbn; (split; [intros [H|H]; [discriminate|contradiction]|]); auto 6. }
  destruct (users !! tok_userId decoded) as [stored|] eqn:Hu.
  2:{ cbn. split; [intros [H|H]; [discriminate|contradiction]|]. auto. }
  rewrite or_else_attached. unfold ensureTenant. cbn [user_tenant].
  destruct (attached decoded stored) as [|c t] eqn:Hat; cbn [truthy].
  { cbn. split; [intros [H|H]; [discriminate|contradiction]|]. auto. }
  unfold checkRole. cbn [role].
  case_bool_decide as Hrole.
  2:{ cbn. split; [intros [H|H]; [discriminate|contradiction]|]. auto 6. }
  apply list_elem_of_singleton in Hrole.
  cbn [from_option]. unfold id.
  unfold deleteVideo, findOneTenant.
  destruct (isObjectId (videoId req)).
  2:{ cbn. split; [intros [H|H]; [discriminate|contradiction]|]. auto 6. }
  destruct (videos s !! videoId req) as [video|] eqn:Hv.
  2:{ cbn. split; [intros [H|H]; [discriminate|contradiction]|]. auto 6. }
  destruct (decide (tenantId video = String c t)) as [Ht|Ht].
  2:{ cbn. split; [intros [H|H]; [discriminate|contradiction]|]. auto 6. }
  cbn [fst snd videos queue res_status answer].
  split; [|split; [intros H; contradiction|reflexivity]].
  intros _. exists token, decoded, stored, video. repeat split; auto; congruence.
Qed.

End WithLibraries.

End RoutesFacts.

(** ** The further properties on the sample data *)

Module MoreChecks.
Import Sample Sample2.

Local Abbreviation GET := (Stream.streamVideo jwt_verify extname isObjectId).
Local Abbreviation HEAD := (Stream.getStreamInfo jwt_verify extname isObjectId).
Local Abbreviation viewer := (Stream.mkDecoded "u1" "viewer" "t1").

Lemma sample_asks (id : string) (rangeHeader : option string) :
  isObjectId id = true ->
  StreamWords.asks jwt_verify isObjectId (get id (Some "token-u1") rangeHeader) id "t1".
Proof.
  intros Hid. split; [reflexivity|]. split; [exact Hid|].
  exists viewer. split; reflexivity.
Defined.

(** The pattern found inside a longer header. *)
Lemma X1_witness :
  Stream.end_ (Stream.mkRange 2 5 4) < 10
  /\ 1 <= Stream.chunkSize (Stream.mkRange 2 5 4) <= 10.
Proof.
  destruct (StreamGuarantees.X1_accepted_range_lies_in_file
              (Some "xbytes=2-5,7-8") 10 (Stream.mkRange 2 5 4))
    as (_ & _ & H & _ & Hsize & _).
  - reflexivity.
  - split; [exact H|exact Hsize].
Defined.

Lemma X2_witness :
  exists before body after,
    StreamWords.slice_of content before body after
    /\ res_body (GET db fs (get "v1" (Some "token-u1") (Some "bytes=2-5"))) = BodyBytes body
    /\ res_headers (GET db fs (get "v1" (Some "token-u1") (Some "bytes=2-5"))) !! "Content-Length"
       = Some (Js.toString (Z.of_nat (length body))).
Proof.
  destruct (StreamGuarantees.X2_served_headers_describe_body jwt_verify extname isObjectId db fs
              (get "v1" (Some "token-u1") (Some "bytes=2-5"))
              (record "v1" ready) (original "v1") content (Checks.sample_serves _))
    as (before & body & after & H1 & H2 & _ & H4 & _).
  exists before, body, after. split; [exact H1|]. split; [exact H2|exact H4].
Defined.

Lemma X3_witness :
  exists decoded video,
    Stream.verifyToken jwt_verify (get "v1" (Some "token-u1") None) = Some decoded
    /\ db !! "v1" = Some video
    /\ tenantId video = Stream.tok_tenantId decoded.
Proof.
  destruct (StreamGuarantees.X3_bytes_only_from_own_tenant jwt_verify extname isObjectId db fs
              (get "v1" (Some "token-u1") None) content)
    as (decoded & video & _ & _ & _ & _ & H1 & H2 & H3 & _).
  - reflexivity.
  - exists decoded, video. split; [exact H1|]. split; [exact H2|exact H3].
Defined.

(** A viewer of [t1] asks for the record [w1] of [t2]. *)
Lemma X4_witness :
  res_status (GET db2 fs (get "w1" (Some "token-u1") None)) = 404
  /\ GET db2 fs (get "w1" (Some "token-u1") None)
     = GET (delete "w1" db2) fs (get "w1" (Some "token-u1") None).
Proof.
  destruct (StreamGuarantees.X4_foreign_record_looks_missing jwt_verify extname isObjectId db2 fs
              (get "w1" (Some "token-u1") None) viewer foreign)
    as (Hsame & _ & _ & Hstatus).
  - reflexivity.
  - reflexivity.
  - discriminate.
  - split; [|exact Hsame]. apply Hstatus. discriminate.
Defined.

(** The same request for an id that does not cast to an ObjectId: the
    error handler answers GET, the handler itself answers HEAD. *)
Example bad_id_get_and_head :
  GET db fs (get "not-an-id" (Some "token-u1") None)
  = errorHandler (CastError "not-an-id")
  /\ res_status (GET db fs (get "not-an-id" (Some "token-u1") None)) = 404
  /\ res_status (HEAD db fs (get "not-an-id" (Some "token-u1") None)) = 500.
Proof. repeat split. Qed.

(** The scheme of the Authorization header is not looked at. *)
Lemma X5_witness :
  Stream.verifyToken jwt_verify (with_header "v1" "Basic token-u1") = Some viewer.
Proof.
  destruct (StreamGuarantees.X5_token_from_query_then_header jwt_verify
              (with_header "v1" "Basic token-u1")) as (_ & Hheader & _).
  rewrite (Hheader "Basic" "token-u1"); reflexivity || discriminate.
Defined.

Lemma X6_witness :
  res_headers (HEAD db fs (get "v1" (Some "token-u1") None)) !! "Content-Length"
  = res_headers (GET db fs (get "v1" (Some "token-u1") None)) !! "Content-Length".
Proof.
  destruct (StreamGuarantees.X6_head_agrees_with_get jwt_verify extname isObjectId db fs
              (get "v1" (Some "token-u1") None)) as (_ & _ & _ & Hlength & _).
  apply Hlength. reflexivity.
Defined.


(** A video of 12.5 seconds sampled every 5 seconds. *)
Lemma X8_witness :
  Z.of_nat (length (Frames.timestamps 12.5 5)) = Z.max 0 (Frames.frameCount 12.5 5)
  /\ (Frames.timestamps 12.5 5 = [] <-> (12.5 <= 0)%Q).
Proof.
  destruct (ScorerGuarantees.X8_frame_timestamps 12.5 5) as (H1 & _ & H3 & _).
  - lia.
  - split; [exact H1|exact H3].
Defined.

Lemma X9_witness :
  Frames.extractFrames still 5 "temp_frames" = inr []
  /\ Sensitivity.processSensitivityCheck
       (FramesSpec.scanWith still "temp_frames" None (fun _ => None))
     = (Sensitivity.noFrames, [10; 20]).
Proof.
  destruct (ScorerGuarantees.X9_extracted_frames still 5 "temp_frames" (Some 0%Q))
    as (Hnone & _).
  - lia.
  - reflexivity.
  - destruct Hnone as [H1 H2]; [unfold Qle; simpl; lia|].
    split; [exact H1|apply H2].
Defined.




(** Filters that carry a tenant id of their own. *)
Lemma X13_witness :
  exists q1 q2,
    Tenant.addTenantFilter {["tenantId" := "t2"]} (Some "t1") = inr q1
    /\ Tenant.tenantQuery (Some "t1") {["tenantId" := "t2"]} = inr q2
    /\ q1 !! "tenantId" = Some "t1"
    /\ q2 !! "tenantId" = Some "t2".
Proof.
  destruct (TenantFacts.X13_tenant_helpers_precedence {["tenantId" := "t2"]} (Some "t1"))
    as (_ & H).
  destruct (H "t1" eq_refl) as (q1 & q2 & H1 & H2 & H3 & H4 & _).
  exists q1, q2. split; [exact H1|]. split; [exact H2|]. split; [exact H3|exact H4].
Defined.

Lemma X14_witness :
  Stream.findOneTenant isObjectId db "t1" "v1" = inr (Some (record "v1" ready))
  /\ Stream.findOneTenant isObjectId db2 "t1" "w1" = inr None
  /\ Stream.findOneTenant isObjectId db "t1" "not-an-id" = inl (CastError "not-an-id").
Proof.
  pose proof (TenantFacts.X14_tenant_query_finds_own_records isObjectId db "t1" "v1") as H1.
  pose proof (TenantFacts.X14_tenant_query_finds_own_records isObjectId db2 "t1" "w1") as H2.
  pose proof (TenantFacts.X14_tenant_query_finds_own_records isObjectId db "t1" "not-an-id")
    as H3.
  unfold Tenant.tenantQuery in H1, H2, H3. cbn [Js.truthy] in H1, H2, H3.
  destruct H1 as (H1 & _ & _ & Hfound & _). destruct H2 as (H2 & _ & _ & _ & Hnone).
  destruct H3 as (H3 & Hcast & _).
  split; [|split].
  - rewrite H1, (Hfound (record "v1" ready)); reflexivity.
  - rewrite H2, Hnone; [reflexivity|reflexivity|].
    intros video [= <-]. discriminate.
  - rewrite H3, Hcast; reflexivity.
Defined.

Lemma X15_witness :
  Library.deleteVideoFiles processed (Some (original "v1")) (Library.files library)
    !! Pipeline.getProcessedFilePath UPLOAD_PATH "t1" "v1" "mp4" = None
  /\ Library.deleteVideoFiles processed (Some (original "v1")) (Library.files library)
       !! original "v2" = Some content.
Proof.
  destruct (LibraryFacts.X15_deleteVideoFiles_removes_named processed (Some (original "v1"))
              (Library.files library)) as (Hgone & Hkept & _).
  split.
  - apply Hgone. split; [discriminate|]. right. left. reflexivity.
  - rewrite Hkept; [reflexivity|].
    intros (_ & [H|[H|[H|H]]]); discriminate H.
Defined.

Lemma X16_witness :
  res_status (fst (Library.deleteVideo isObjectId "t1" "v1" library)) = 200
  /\ Library.videos (snd (Library.deleteVideo isObjectId "t1" "v1" library))
     = delete "v1" (Library.videos library).
Proof.
  destruct (LibraryFacts.X16_deleteVideo_own_tenant_only isObjectId "t1" "v1" library)
    as (H & _).
  destruct (H processed) as (H1 & H2 & _).
  - reflexivity.
  - reflexivity.
  - reflexivity.
  - discriminate.
  - split; [exact H1|exact H2].
Defined.

Lemma X17_witness :
  res_status (fst (Library.uploadVideo UPLOAD_PATH extname env_ok upload server)) = 201
  /\ Library.files server_after_upload !! original "v9" = Some content.
Proof.
  destruct (LibraryFacts.X17_upload_stores_record_and_file UPLOAD_PATH extname
              env_ok upload server incoming content)
    as (H1 & _ & _ & H4 & _); try reflexivity.
  split; [exact H1|exact H4].
Defined.

(** The temporary file cannot be renamed. *)
Lemma X18_witness :
  Library.videos (snd (Library.uploadVideo UPLOAD_PATH extname env_rename_broken upload server))
  = Library.videos server
  /\ Library.files (snd (Library.uploadVideo UPLOAD_PATH extname env_rename_broken upload server))
     = delete (Library.path incoming) (Library.files server).
Proof.
  destruct (LibraryFacts.X18_failed_upload_leaves_no_trace UPLOAD_PATH extname
              env_rename_broken upload server)
    as (H1 & _ & _ & H4).
  - right. left. discriminate.
  - reflexivity.
  - reflexivity.
  - discriminate.
  - split; [exact H1|]. apply H4. discriminate.
Defined.

Lemma X19_witness :
  Pipeline.db (snd (run engine_thumbnail_broken)) !! "v1" = Some (record "v1" ready)
  /\ Pipeline.fs (snd (run engine_thumbnail_broken)) !! original "v1" = Some content.
Proof.
  destruct (PipelineGuarantees.X19_run_touches_only_its_record UPLOAD_PATH extname
              engine_thumbnail_broken "v3" world
              (fst (run engine_thumbnail_broken)) (snd (run engine_thumbnail_broken)))
    as (Hrecords & Hfiles & _).
  - apply surjective_pairing.
  - split.
    + rewrite Hrecords; [reflexivity|discriminate].
    + rewrite (Hfiles (record "v3" uploaded) (original "v1") eq_refl); try reflexivity.
      * intros [name H]. vm_compute in H. discriminate H.
      * discriminate.
      * discriminate.
      * discriminate.
      * discriminate.
Defined.

Lemma X20_witness :
  res_status (GET (Pipeline.db (snd (run engine_ok))) (Pipeline.fs (snd (run engine_ok)))
                  (get "v3" (Some "token-u1") None)) = 200
  /\ res_body (GET (Pipeline.db (snd (run engine_ok))) (Pipeline.fs (snd (run engine_ok)))
                   (get "v3" (Some "token-u1") None)) = BodyBytes content.
Proof.
  destruct (EndToEnd.X20_completed_run_streams_derivative UPLOAD_PATH extname jwt_verify isObjectId
              engine_ok "v3" world
              (Pipeline.mkOutcome true (returned (run engine_ok) (record "v3" uploaded))
                 (fst (Sensitivity.processSensitivityCheck scan_ok)))
              (snd (run engine_ok)) (record "v3" uploaded)
              (get "v3" (Some "token-u1") None) content)
    as (_ & _ & H).
  - vm_compute. reflexivity.
  - reflexivity.
  - reflexivity.
  - apply sample_asks. reflexivity.
  - discriminate.
  - destruct (H eq_refl) as (H1 & H2 & _). split; [exact H1|exact H2].
Defined.

Lemma X21_witness :
  exists v',
    Pipeline.db (snd (run engine_thumbnail_broken)) !! "v3" = Some v' /\ status v' = failed
    /\ res_body (GET (Pipeline.db (snd (run engine_thumbnail_broken)))
                     (Pipeline.fs (snd (run engine_thumbnail_broken)))
                     (get "v3" (Some "token-u1") None)) = BodyBytes content.
Proof.
  destruct (EndToEnd.X21_failed_run_streams_original UPLOAD_PATH extname jwt_verify isObjectId
              engine_thumbnail_broken "v3" world
              "Thumbnail generation failed: ffmpeg exited with code 1"
              (snd (run engine_thumbnail_broken)) (record "v3" uploaded)
              (get "v3" (Some "token-u1") None) content)
    as (v' & H1 & H2 & _ & _ & H).
  - vm_compute. reflexivity.
  - reflexivity.
  - split; [exists "mp4"; reflexivity|split; reflexivity].
  - reflexivity.
  - apply sample_asks. reflexivity.
  - discriminate.
  - exists v'. split; [exact H1|]. split; [exact H2|]. apply (H eq_refl).
Defined.

Lemma X22_witness :
  res_status (GET (Library.videos server_after_upload) (Library.files server_after_upload)
                  (get "v9" (Some "token-u1") None)) = 403
  /\ Pipeline.fs (snd (run_uploaded engine_ok)) !! original "v9" = Some content.
Proof.
  destruct (EndToEnd.X22_uploaded_video_lifecycle UPLOAD_PATH extname jwt_verify isObjectId
              env_ok upload server incoming content engine_ok
              (fst (run_uploaded engine_ok)) (snd (run_uploaded engine_ok))
              (get "v9" (Some "token-u1") None))
    as (H1 & H2 & _).
  - reflexivity.
  - reflexivity.
  - reflexivity.
  - reflexivity.
  - discriminate.
  - apply surjective_pairing.
  - apply sample_asks. reflexivity.
  - split; [exact H1|exact H2].
Defined.

Lemma X23_witness :
  QueueStatus.currentVideo (QueueStatus.getQueueStatus after_turns)
  = (if QueueStatus.isProcessing (QueueStatus.getQueueStatus after_turns)
     then Queue.videoId <$> last (Queue.started (Queue.trace after_turns))
     else None)
  /\ (QueueStatus.queueLength (QueueStatus.getQueueStatus after_turns)
      + length (Queue.started (Queue.trace after_turns))
      = length (Queue.enqueued turns))%nat.
Proof.
  destruct (QueueStatusFacts.X23_queue_status_report turns after_turns)
    as (_ & H2 & H3 & _).
  - reflexivity.
  - split; [exact H2|exact H3].
Defined.

(** A request with the viewer's token in the query and the
    administrator's in the header. *)
Lemma X24_witness :
  Routes.selectToken (Stream.mkRequest "v1" (Some "token-u1") (Some "Bearer token-admin") None)
  = Some "token-admin"
  /\ Stream.verifyToken (Routes.jwt_verify jwt)
       (Stream.mkRequest "v1" (Some "token-u1") (Some "Bearer token-admin") None)
     = Routes.jwt_verify jwt "token-u1".
Proof.
  destruct (RoutesFacts.X24_authenticate_header_first jwt users
              (Stream.mkRequest "v1" (Some "token-u1") (Some "Bearer token-admin") None)
              "token-admin")
    as (H1 & H2 & _).
  - reflexivity.
  - reflexivity.
  - discriminate.
  - split; [exact H1|]. apply H2; [reflexivity|discriminate].
Defined.

Lemma X25_witness :
  exists token decoded stored video,
    Routes.selectToken (with_header "v1" "Bearer token-admin") = Some token
    /\ jwt token = inr decoded
    /\ users !! Stream.tok_userId decoded = Some stored
    /\ Stream.tok_role decoded = "admin"
    /\ Library.videos library !! "v1" = Some video
    /\ tenantId video = Routes.attached decoded stored.
Proof.
  destruct (RoutesFacts.X25_delete_route_admin_of_tenant jwt isObjectId users
              (with_header "v1" "Bearer token-admin") library) as (H & _).
  destruct H as (token & decoded & stored & video & H1 & H2 & H3 & H4 & H5 & H6 & _).
  - left. reflexivity.
  - exists token, decoded, stored, video. repeat split; assumption.
Defined.

End MoreChecks.
